(** * Filename classification, pair matching and report aggregation

    A shallow embedding of the batch scripts under [scripts/]:
    [organize_files.py], [rename_files.py], [summaryExtractor.py],
    [summaryEvaluation.py], [AutomaticMetric.py] and [countHallucination.py].

    Python [str] values are modelled as [string] (sequences of [ascii]
    characters); the character classes used by the scripts ([str.lower],
    [str.strip], the regex class [\d]) are given on the ASCII range and leave
    every other character alone.  Dictionaries are [gmap]s where only lookup
    matters and insertion-ordered association lists where the script
    iterates them.  Python [float] values are 64-bit binary numbers
    ([PrimFloat]), read through their specification in [SpecFloat] where a
    property is about their values.  The file system is never touched by a definition: every
    read, existence test and copy goes through an oracle that is a
    [Variable] of the section modelling the script. *)

From Stdlib Require Import ZArith QArith Qpower Lqa Uint63 PrimFloat Floats Ascii String List Bool Lia
  Permutation Sorted.
From stdpp Require Import gmap strings list fin_maps.

Local Open Scope string_scope.
Local Open Scope list_scope.

#[local] Arguments String.append !_ _ / : simpl nomatch.

(** * Part I: the scripts *)

(** ** Python string primitives *)

Module PyStr.

Definition code (c : ascii) : nat := nat_of_ascii c.

Definition is_upper (c : ascii) : bool := (65 <=? code c)%nat && (code c <=? 90)%nat.

Definition is_digit (c : ascii) : bool := (48 <=? code c)%nat && (code c <=? 57)%nat.

(** [str.isspace] on the ASCII range: TAB..CR, FS..US and the blank. *)
Definition is_space (c : ascii) : bool :=
  ((9 <=? code c)%nat && (code c <=? 13)%nat) || ((28 <=? code c)%nat && (code c <=? 32)%nat).

Definition lower_char (c : ascii) : ascii :=
  if is_upper c then ascii_of_nat (code c + 32) else c.

(** [s.lower()] *)
Fixpoint lower (s : string) : string :=
  match s with
  | EmptyString => EmptyString
  | String c s' => String (lower_char c) (lower s')
  end.

(** [s.startswith(p)] *)
Fixpoint starts_with (p s : string) : bool :=
  match p, s with
  | EmptyString, _ => true
  | String _ _, EmptyString => false
  | String a p', String b s' => if Ascii.eqb a b then starts_with p' s' else false
  end.

(** [p in s] *)
Fixpoint contains (p s : string) : bool :=
  starts_with p s
  || match s with
     | EmptyString => false
     | String _ s' => contains p s'
     end.

(** [s.endswith(p)] *)
Definition ends_with (p s : string) : bool :=
  starts_with (String.rev p) (String.rev s).

Fixpoint all_digits (s : string) : bool :=
  match s with
  | EmptyString => true
  | String c s' => is_digit c && all_digits s'
  end.

(** The regex fragment [\d{n}] matched at the very start of [s]. *)
Fixpoint take_digits (n : nat) (s : string) : option string :=
  match n with
  | O => Some EmptyString
  | S n' =>
      match s with
      | EmptyString => None
      | String c s' =>
          if is_digit c then option_map (String c) (take_digits n' s') else None
      end
  end.

Fixpoint lstrip (s : string) : string :=
  match s with
  | EmptyString => EmptyString
  | String c s' => if is_space c then lstrip s' else s
  end.

Definition rstrip (s : string) : string := String.rev (lstrip (String.rev s)).

(** [s.strip()] *)
Definition strip (s : string) : string := rstrip (lstrip s).

Definition newline : string := String (ascii_of_nat 10) EmptyString.

(** The regex anchor [$]: the end of the string, which it also finds in
    front of one final newline. *)
Definition at_end (s : string) : bool :=
  String.eqb s EmptyString || String.eqb s newline.

(** [s[n:]] *)
Fixpoint drop (n : nat) (s : string) : string :=
  match n, s with
  | O, _ => s
  | S _, EmptyString => EmptyString
  | S n', String _ s' => drop n' s'
  end.

(** Truth value of an optional string: [None] and [""] are falsy. *)
Definition truthy (o : option string) : bool :=
  match o with
  | Some EmptyString => false
  | Some _ => true
  | None => false
  end.

(** [p] occurs in [s] as a contiguous block. *)
Definition substring (p s : string) : Prop :=
  exists a b : string, s = a +:+ p +:+ b.

(** [p] occurs in [s] when letter case is ignored. *)
Definition substring_nocase (p s : string) : Prop :=
  substring (lower p) (lower s).

End PyStr.

(** ** Command-line conventions shared by the scripts *)

Module Cli.

(** What a call of a function body leaves behind: a returned boolean, or
    an exception that escapes to the caller. *)
Inductive outcome : Type :=
  | Returned (b : bool)
  | Raised.

(** [sys.exit(0 if success else 1)] in [main], and [sys.exit(1)] in the
    handler around it. *)
Definition exit_code (o : outcome) : Z :=
  match o with
  | Returned true => 0%Z
  | Returned false => 1%Z
  | Raised => 1%Z
  end.

End Cli.

(** ** 64-bit floating-point numbers *)

Module Binary64.

(** The rational a finite binary64 number stands for; an infinity or a
    NaN stands for none and is given 0. *)
Definition SF_value (x : spec_float) : Q :=
  match x with
  | S754_finite s m e => inject_Z (cond_Zopp s (Z.pos m)) * 2 ^ e
  | _ => 0
  end.

Definition value (f : float) : Q := SF_value (Prim2SF f).

(** One unit in the last place of a number between 1 and 2, 2^-52: the
    bound of the relative error of one rounding. *)
Definition eps : Q := 1 # 4503599627370496.

(** A normal positive number of value [v]: a mantissa of 53 binary digits
    and an exponent between [lo] and [hi]. *)
Definition normal (x : spec_float) (lo hi : Z) (v : Q) : Prop :=
  exists m e, x = S754_finite false m e
              /\ Z.pos (digits2_pos m) = 53%Z
              /\ (lo <= e <= hi)%Z
              /\ inject_Z (Z.pos m) * 2 ^ e == v.

(** A number that is +0 or normal. *)
Definition nonneg (x : spec_float) (lo hi : Z) (v : Q) : Prop :=
  (x = S754_zero false /\ v == 0) \/ normal x lo hi v.

Fixpoint qpow (q : Q) (n : nat) : Q :=
  match n with
  | O => 1
  | S k => q * qpow q k
  end.

End Binary64.

(** ** [organize_files.py]: the filename classifier and the organizer *)

Module OrganizeFiles.
Import PyStr Cli.

(** A pattern table is a Python dict literal: the order of its items is
    the order in which they are written. *)
Definition pattern_table : Type := list (string * list string).

Definition shot_patterns : pattern_table :=
  [ ("oneshot", ["one-shot"; "oneshot"; "1-shot"; "1shot"]);
    ("zeroshot", ["zero-shot"; "zeroshot"; "0-shot"; "0shot"]);
    ("fewshot", ["few-shot"; "fews-shot"; "fewshot"; "k-shot"; "kshot"]) ].

Definition model_patterns : pattern_table :=
  [ ("llama", ["llama"; "llama2"; "llama-2"]);
    ("qwen", ["qwen"; "qwen-7b"; "qwen-14b"]);
    ("chatgpt", ["chatgpt"; "chat"; "gpt"; "gpt-3.5"; "gpt-4"]) ].

(** [any(pattern.lower() in filename_lower for pattern in patterns)] *)
Definition any_pattern_in (patterns : list string) (filename_lower : string) : bool :=
  existsb (fun pattern => contains (lower pattern) filename_lower) patterns.

(** The [for category, patterns in table.items(): if any(...): ...; break]
    loop, started from [None]. *)
Fixpoint first_category (table : pattern_table) (filename_lower : string) : option string :=
  match table with
  | [] => None
  | (category, patterns) :: rest =>
      if any_pattern_in patterns filename_lower then Some category
      else first_category rest filename_lower
  end.

Definition determine_categories (filename : string) : option string * option string :=
  let filename_lower := lower filename in
  (first_category shot_patterns filename_lower,
   first_category model_patterns filename_lower).

(** [re.search(r'\d{6}', filename)]: the leftmost position at which six
    digits follow one another. *)
Fixpoint get_six_digit_number (filename : string) : option string :=
  match take_digits 6 filename with
  | Some digits => Some digits
  | None =>
      match filename with
      | EmptyString => None
      | String _ rest => get_six_digit_number rest
      end
  end.

(** *** The specification's reading of the document id

    Follows the words of the specification, not the code: the maximal runs
    of digits of the filename, and the first of them whose length is six. *)
Definition close_run (cur : string) : list string :=
  match cur with
  | EmptyString => []
  | String _ _ => [cur]
  end.

Fixpoint digit_runs_from (cur s : string) : list string :=
  match s with
  | EmptyString => close_run cur
  | String c s' =>
      if is_digit c then digit_runs_from (cur +:+ String c EmptyString) s'
      else close_run cur ++ digit_runs_from EmptyString s'
  end.

Definition spec_document_id (filename : string) : option string :=
  List.find (fun run => (String.length run =? 6)%nat) (digit_runs_from EmptyString filename).

(** *** The organizer *)

(** A [pathlib.Path] found by the glob, with its [.name]. *)
Record file : Type := { file_path : string; file_name : string }.

Inductive log_entry : Type :=
  | WarnNoTextFiles
  | WarnCouldNotClassify (name : string)
  | InfoMoved (name shot model new_filename : string)
  | InfoWouldMove (name shot model new_filename : string)
  | ErrorProcessing (name : string).

Record state : Type := {
  processed_files : nat;
  successful_moves : nat;
  unclassified_files : list file;
  stats : gmap (string * string) nat;
  stats_unclassified : nat;
  copies : list (string * string);
  log : list log_entry
}.

Definition init_stats : gmap (string * string) nat :=
  list_to_map
    (flat_map (fun shot => map (fun model => ((shot, model), 0%nat)) (map fst model_patterns))
       (map fst shot_patterns)).

Definition init_state : state :=
  {| processed_files := 0; successful_moves := 0; unclassified_files := [];
     stats := init_stats; stats_unclassified := 0; copies := []; log := [] |}.

Definition count_file (st : state) : state :=
  {| processed_files := S (processed_files st);
     successful_moves := successful_moves st;
     unclassified_files := unclassified_files st;
     stats := stats st; stats_unclassified := stats_unclassified st;
     copies := copies st; log := log st |}.

(** [unclassified_files.append(file_path); stats['unclassified'] += 1],
    after the message [entry] has been logged. *)
Definition mark_unclassified (entry : log_entry) (f : file) (st : state) : state :=
  {| processed_files := processed_files st;
     successful_moves := successful_moves st;
     unclassified_files := unclassified_files st ++ [f];
     stats := stats st; stats_unclassified := S (stats_unclassified st);
     copies := copies st; log := log st ++ [entry] |}.

(** [successful_moves += 1; stats[shot_cat][model_cat] += 1], with the
    copies made so far extended by [made]. *)
Definition mark_moved (entry : log_entry) (shot model : string)
    (made : list (string * string)) (st : state) : state :=
  {| processed_files := processed_files st;
     successful_moves := S (successful_moves st);
     unclassified_files := unclassified_files st;
     stats := <[(shot, model) := S (default 0%nat (stats st !! (shot, model)))]> (stats st);
     stats_unclassified := stats_unclassified st;
     copies := copies st ++ made; log := log st ++ [entry] |}.

Section Organizer.

Variable output_dir : string.
Variable dry_run : bool.
(** [target_dir.mkdir(...)] followed by [shutil.copy2(file_path, target_path)]
    completes ([true]) or raises ([false]). *)
Variable copy_ok : file -> string -> bool.
(** [create_report] completes or raises. *)
Variable report_ok : bool.

Definition target_of (shot model six_digit : string) : string :=
  output_dir +:+ "/" +:+ shot +:+ "/" +:+ model +:+ "/" +:+ six_digit +:+ ".txt".

(** The body of the [for file_path in text_files] loop. *)
Definition organize_step (st : state) (f : file) : state :=
  let st := count_file st in
  let '(shot_cat, model_cat) := determine_categories (file_name f) in
  let six_digit := get_six_digit_number (file_name f) in
  if negb (truthy shot_cat && truthy model_cat && truthy six_digit) then
    mark_unclassified (WarnCouldNotClassify (file_name f)) f st
  else
    match shot_cat, model_cat, six_digit with
    | Some shot, Some model, Some six =>
        let new_filename := six +:+ ".txt" in
        let target_path := target_of shot model six in
        if dry_run then
          mark_moved (InfoWouldMove (file_name f) shot model new_filename) shot model [] st
        else if copy_ok f target_path then
          mark_moved (InfoMoved (file_name f) shot model new_filename) shot model
            [(file_path f, target_path)] st
        else
          mark_unclassified (ErrorProcessing (file_name f)) f st
    | _, _, _ => mark_unclassified (ErrorProcessing (file_name f)) f st
    end.

Definition organize_loop (text_files : list file) : state :=
  fold_left organize_step text_files init_state.

Definition organize_files (text_files : list file) : outcome * state :=
  match text_files with
  | [] =>
      (Returned false,
       {| processed_files := 0; successful_moves := 0; unclassified_files := [];
          stats := ∅; stats_unclassified := 0; copies := []; log := [WarnNoTextFiles] |})
  | _ :: _ =>
      let st := organize_loop text_files in
      if dry_run then (Returned (0 <? successful_moves st)%nat, st)
      else if report_ok then (Returned (0 <? successful_moves st)%nat, st)
      else (Raised, st)
  end.

(** [main], from the construction of the organizer on. *)
Definition main (text_files : list file) : Z :=
  exit_code (fst (organize_files text_files)).

End Organizer.

(** A category of [table] matches when one of its patterns occurs in the
    filename, letter case ignored. *)
Definition category_matches (filename : string) (entry : string * list string) : Prop :=
  exists pattern, In pattern (snd entry) /\ substring_nocase pattern filename.

(** [result] is the first category of [table], in the order of the table,
    that matches [filename]; [None] when no category matches. *)
Definition first_declared (table : pattern_table) (filename : string)
    (result : option string) : Prop :=
  match result with
  | Some category =>
      exists before patterns after,
        table = before ++ (category, patterns) :: after
        /\ category_matches filename (category, patterns)
        /\ Forall (fun entry => ~ category_matches filename entry) before
  | None => Forall (fun entry => ~ category_matches filename entry) table
  end.

(** [d] is the leftmost block of six consecutive digits of [filename]. *)
Definition leftmost_six_digits (filename d : string) : Prop :=
  exists a b,
    filename = a +:+ d +:+ b
    /\ String.length d = 6%nat /\ all_digits d = true
    /\ forall a' d' b',
         filename = a' +:+ d' +:+ b' ->
         String.length d' = 6%nat -> all_digits d' = true ->
         (String.length a <= String.length a')%nat.

Definition has_six_digits (filename : string) : Prop :=
  exists a d b,
    filename = a +:+ d +:+ b /\ String.length d = 6%nat /\ all_digits d = true.

End OrganizeFiles.

(** ** [summaryExtractor.py]: the document processor *)

Module SummaryExtractor.
Import PyStr Cli.

(** A [.docx] path found by the glob, with its [.name] and [.stem]. *)
Record doc : Type := { doc_name : string; doc_stem : string }.

(** [re.match(r'^\d{6}$', basename)]: six digits and then the end of the
    string. *)
Definition get_document_number (d : doc) : option string :=
  match take_digits 6 (doc_stem d) with
  | Some _ => if at_end (drop 6 (doc_stem d)) then Some (doc_stem d) else None
  | None => None
  end.

Inductive log_entry : Type :=
  | WarnNoDocuments
  | InfoProcessing (name : string)
  | InfoSaved (name pattern : string)
  | ErrorSaving (name pattern : string)
  | DebugNotFound (name pattern : string).

Record state : Type := {
  processed_files : nat;
  successful_extractions : nat;
  log : list log_entry
}.

Section Processor.

Variable patterns : list string.
(** [extract_text_under_title]: the text under the title and the title,
    or [(None, None)]; its own handler turns every exception into the
    latter. *)
Variable extract_text_under_title : doc -> string -> option (string * string).
(** [save_extracted_text]: [True] with the file name, or [False] with a
    message; its own handler catches every exception. *)
Variable save_extracted_text : doc -> string -> bool.

(** [find_docx_files], applied to what the glob returns. *)
Definition find_docx_files (globbed : list doc) : list doc :=
  List.filter (fun d => truthy (get_document_number d)) globbed.

(** The body of [for pattern in self.patterns]. *)
Definition pattern_step (d : doc) (st : state) (pattern : string) : state :=
  match extract_text_under_title d pattern with
  | Some (extracted_text, found_title) =>
      if truthy (Some extracted_text) then
        if save_extracted_text d pattern then
          {| processed_files := processed_files st;
             successful_extractions := S (successful_extractions st);
             log := log st ++ [InfoSaved (doc_name d) pattern] |}
        else
          {| processed_files := processed_files st;
             successful_extractions := successful_extractions st;
             log := log st ++ [ErrorSaving (doc_name d) pattern] |}
      else
        {| processed_files := processed_files st;
           successful_extractions := successful_extractions st;
           log := log st ++ [DebugNotFound (doc_name d) pattern] |}
  | None =>
      {| processed_files := processed_files st;
         successful_extractions := successful_extractions st;
         log := log st ++ [DebugNotFound (doc_name d) pattern] |}
  end.

(** The body of [for doc_path in doc_files]. *)
Definition doc_step (st : state) (d : doc) : state :=
  let st :=
    {| processed_files := S (processed_files st);
       successful_extractions := successful_extractions st;
       log := log st ++ [InfoProcessing (doc_name d)] |} in
  fold_left (pattern_step d) patterns st.

Definition process_documents (globbed : list doc) : outcome * state :=
  match find_docx_files globbed with
  | [] =>
      (Returned false,
       {| processed_files := 0; successful_extractions := 0; log := [WarnNoDocuments] |})
  | doc_files =>
      (Returned true,
       fold_left doc_step doc_files
         {| processed_files := 0; successful_extractions := 0; log := [] |})
  end.

(** [main], from the construction of the processor on. *)
Definition main (globbed : list doc) : Z :=
  exit_code (fst (process_documents globbed)).

End Processor.

End SummaryExtractor.

(** ** [summaryEvaluation.py]: matching generated and reference summaries *)

Module SummaryEvaluation.
Import PyStr.

(** The regex [\d{6}\.txt$] matched at the very start of [s]; the result
    is the group of six digits. *)
Definition match_id_txt (s : string) : option string :=
  match take_digits 6 s with
  | Some digits =>
      let rest := drop 6 s in
      if starts_with ".txt" rest && at_end (drop 4 rest) then Some digits else None
  | None => None
  end.

(** [reference_pattern.search(ref_file)] with
    [reference_pattern = re.compile(r'(\d{6})\.txt$')], then [group(1)]. *)
Fixpoint reference_search (ref_file : string) : option string :=
  match match_id_txt ref_file with
  | Some identifier => Some identifier
  | None =>
      match ref_file with
      | EmptyString => None
      | String _ rest => reference_search rest
      end
  end.

(** [generated_pattern.match(file)] with
    [generated_pattern = re.compile(r'^(\d{6})\.txt$')], then [group(1)]. *)
Definition generated_match (file : string) : option string := match_id_txt file.

(** [os.path.join(a, b)] on a POSIX system. *)
Definition path_join (a b : string) : string :=
  if starts_with "/" b then b
  else if String.eqb a EmptyString || ends_with "/" a then a +:+ b
  else a +:+ "/" +:+ b.

Inductive message : Type :=
  | WarnDuplicateReference (identifier ref_file : string)
  | WarnReferenceSkipped (ref_file : string)
  | WarnUnexpectedStructure (gen_path : string)
  | WarnEmptyGenerated (gen_path : string)
  | WarnEmptyReference (ref_path : string)
  | ErrorReading (identifier : string)
  | WarnReferenceNotFound (identifier gen_path : string).

Record summary_pair : Type := {
  Generated_Summary : string;
  Reference_Summary : string;
  Learning_Mode : string;
  Model : string
}.

(** One triple [(root, dirs, files)] of [os.walk(generated_base_dir)]:
    [rel_dirs] are the components of [root] below the base directory, so
    that the path of a file relative to the base splits into
    [rel_dirs ++ [file]]. *)
Record walk_dir : Type := { rel_dirs : list string; dir_files : list string }.

Section ReadSummaries.

Variable reference_dir : string.
Variable generated_base_dir : string.
(** [os.path.exists] *)
Variable path_exists : string -> bool.
(** [open(path).read()]: the text, or [None] when opening or decoding
    raises. *)
Variable read_text : string -> option string.

(** The body of [for ref_file in os.listdir(reference_dir)]. *)
Definition scan_step (st : gmap string string * list message) (ref_file : string)
    : gmap string string * list message :=
  let '(reference_mapping, printed) := st in
  match reference_search ref_file with
  | Some identifier =>
      let printed :=
        match reference_mapping !! identifier with
        | Some _ => printed ++ [WarnDuplicateReference identifier ref_file]
        | None => printed
        end in
      (<[identifier := path_join reference_dir ref_file]> reference_mapping, printed)
  | None => (reference_mapping, printed ++ [WarnReferenceSkipped ref_file])
  end.

Definition scan_references (listing : list string) : gmap string string * list message :=
  fold_left scan_step listing (∅, []).

Definition root_of (d : walk_dir) : string :=
  fold_left path_join (rel_dirs d) generated_base_dir.

(** The body of [for file in files], for a file of the directory [d]. *)
Definition file_step (reference_mapping : gmap string string) (d : walk_dir)
    (st : list summary_pair * list message) (file : string)
    : list summary_pair * list message :=
  let '(summary_pairs, printed) := st in
  match generated_match file with
  | None => (summary_pairs, printed)
  | Some identifier =>
      let gen_path := path_join (root_of d) file in
      let path_parts := rel_dirs d ++ [file] in
      let '(learning_mode, model, printed) :=
        match path_parts with
        | mode :: model :: _ :: _ => (mode, model, printed)
        | _ => ("Unknown", "Unknown", printed ++ [WarnUnexpectedStructure gen_path])
        end in
      let ref_path := reference_mapping !! identifier in
      match ref_path with
      | Some ref =>
          if truthy ref_path && path_exists ref then
            match read_text gen_path with
            | None => (summary_pairs, printed ++ [ErrorReading identifier])
            | Some generated_text =>
                match read_text ref with
                | None => (summary_pairs, printed ++ [ErrorReading identifier])
                | Some reference_text =>
                    let generated_summary := strip generated_text in
                    let reference_summary := strip reference_text in
                    if String.eqb generated_summary EmptyString then
                      (summary_pairs, printed ++ [WarnEmptyGenerated gen_path])
                    else if String.eqb reference_summary EmptyString then
                      (summary_pairs, printed ++ [WarnEmptyReference ref])
                    else
                      (summary_pairs
                         ++ [ {| Generated_Summary := generated_summary;
                                 Reference_Summary := reference_summary;
                                 Learning_Mode := learning_mode;
                                 Model := model |} ],
                       printed)
                end
            end
          else (summary_pairs, printed ++ [WarnReferenceNotFound identifier gen_path])
      | None => (summary_pairs, printed ++ [WarnReferenceNotFound identifier gen_path])
      end
  end.

(** The body of [for root, dirs, files in os.walk(generated_base_dir)]. *)
Definition dir_step (reference_mapping : gmap string string)
    (st : list summary_pair * list message) (d : walk_dir)
    : list summary_pair * list message :=
  fold_left (file_step reference_mapping d) (dir_files d) st.

(** [read_summaries], given what [os.listdir] and [os.walk] enumerate;
    the second component is what was printed. *)
Definition read_summaries (listing : list string) (walk : list walk_dir)
    : list summary_pair * list message :=
  let '(reference_mapping, printed) := scan_references listing in
  fold_left (dir_step reference_mapping) walk ([], printed).

End ReadSummaries.

(** The messages about a reference that was not found. *)
Definition is_not_found (m : message) : bool :=
  match m with
  | WarnReferenceNotFound _ _ => true
  | _ => false
  end.

(** The last file of the listing whose name carries [identifier]. *)
Definition last_reference (listing : list string) (identifier : string) : option string :=
  last (List.filter (fun f => bool_decide (reference_search f = Some identifier)) listing).

End SummaryEvaluation.

(** ** [AutomaticMetric.py]: the ranking of the score records *)

Module AutomaticMetric.

(** One dictionary appended to [results].  The scores are the 64-bit
    floats the metric libraries produced; [sum] is the float stored under
    ['sum'], kept as the rational it stands for, which is what the sort
    compares (the metrics are finite numbers, and so are their sums);
    [rank] is the key the ranking loop adds. *)
Record result : Type := {
  learning_model : string;
  model : string;
  file_name : string;
  file_path : string;
  reference_file : string;
  scores : list float;
  sum : Q;
  rank : option nat
}.

(** [sum(score_data.values())]: the values are added from left to right,
    starting from 0, every addition rounding to 64 bits. *)
Definition py_sum (values : list float) : float :=
  fold_left PrimFloat.add values 0%float.

(** [results.append({..., 'scores': score_data, 'sum': sum(score_data.values())})] *)
Definition new_result (learning_model model file_name file_path reference_file : string)
    (score_data : list float) : result :=
  {| learning_model := learning_model; model := model; file_name := file_name;
     file_path := file_path; reference_file := reference_file;
     scores := score_data; sum := Binary64.value (py_sum score_data); rank := None |}.

(** [result['rank'] = idx] *)
Definition set_rank (idx : nat) (r : result) : result :=
  {| learning_model := learning_model r; model := model r; file_name := file_name r;
     file_path := file_path r; reference_file := reference_file r;
     scores := scores r; sum := sum r; rank := Some idx |}.

(** The list handed to [sorted]: every dictionary is an object of its own,
    named here by its position in [results], next to the key
    [x['sum']] computed for it. *)
Definition decorate (results : list result) : list (nat * Q) :=
  zip (seq 0 (length results)) (map sum results).

(** [sorted(..., key=..., reverse=True)] is a stable sort in descending
    order of the key: records with equal keys keep their original order.
    [x] is older than every element of [l]. *)
Fixpoint insert_desc (x : nat * Q) (l : list (nat * Q)) : list (nat * Q) :=
  match l with
  | [] => [x]
  | y :: rest =>
      if Qle_bool (snd y) (snd x) then x :: y :: rest else y :: insert_desc x rest
  end.

Definition sorted_desc (l : list (nat * Q)) : list (nat * Q) :=
  foldr insert_desc [] l.

(** [for idx, result in enumerate(order, start=idx): result['rank'] = idx],
    the assignment going to the object in the store. *)
Fixpoint assign_ranks (idx : nat) (order : list nat) (store : list result) : list result :=
  match order with
  | [] => store
  | ref :: rest => assign_ranks (S idx) rest (alter (set_rank idx) ref store)
  end.

Definition rank_order (results : list result) : list nat :=
  map fst (sorted_desc (decorate results)).

(** The ranking loop; the result is [results] as the CSV writer reads it
    afterwards. *)
Definition rank_results (results : list result) : list result :=
  assign_ranks 1 (rank_order results) results.

(** [x] is placed before [y]: a larger key, or the same key and an
    earlier position in [results]. *)
Definition placed_before (x y : nat * Q) : Prop :=
  (snd y < snd x)%Q \/ ((snd x == snd y)%Q /\ (fst x < fst y)%nat).

Definition placed_beforeb (x y : nat * Q) : bool :=
  negb (Qle_bool (snd x) (snd y)) || (Qeq_bool (snd x) (snd y) && (fst x <? fst y)%nat).

(** The rank the record at position [i], with sum [s], is expected to
    receive: one more than the number of records that have a larger sum,
    or the same sum and an earlier position. *)
Definition expected_rank (results : list result) (i : nat) (s : Q) : nat :=
  S (length (List.filter (fun y => placed_beforeb y (i, s)) (decorate results))).

End AutomaticMetric.

(** ** [countHallucination.py]: counting the annotation tags *)

Module CountHallucination.
Import PyStr.

(** [self.hallucination_types]: each type with the literal text its regex
    matches ([r'\[UCE\]'] matches "[UCE]"). *)
Definition hallucination_types : list (string * string) :=
  [ ("UCE", "[UCE]"); ("OGE", "[OGE]"); ("UGE", "[UGE]");
    ("NNE", "[NNE]"); ("DTE", "[DTE]"); ("MGE", "[MGE]") ].

Definition type_names : list string := map fst hallucination_types.

(** [len(re.findall(pattern, text))] for a literal, non-empty pattern: the
    matches are taken from left to right and do not overlap; [skip]
    characters of the last match are still to be passed. *)
Fixpoint count_matches_from (skip : nat) (tag text : string) : nat :=
  match text with
  | EmptyString => 0
  | String _ rest =>
      match skip with
      | S k => count_matches_from k tag rest
      | O =>
          if starts_with tag text
          then S (count_matches_from (String.length tag - 1) tag rest)
          else count_matches_from 0 tag rest
      end
  end.

Definition count_matches (tag text : string) : nat := count_matches_from 0 tag text.

(** [count_hallucinations]: the loop fills one key per type. *)
Definition count_hallucinations (text : string) : gmap string nat :=
  fold_left (fun counts '(hall_type, tag) => <[hall_type := count_matches tag text]> counts)
    hallucination_types ∅.

(** [analyze_file]: a file that cannot be read yields the empty
    [defaultdict]. *)
Definition analyze_file (content : option string) : gmap string nat :=
  match content with
  | Some text => count_hallucinations text
  | None => ∅
  end.

(** One dictionary of [results]: the four descriptive keys, updated with
    the counts. *)
Record row : Type := {
  learning_model : string;
  model : string;
  file_name : string;
  file_path : string;
  counts : gmap string nat
}.

(** A text file found under [input_dir/<learning_model>/<model>/]. *)
Record text_file : Type := {
  tf_learning_model : string;
  tf_model : string;
  tf_stem : string;
  tf_relative_path : string;
  tf_content : option string
}.

Definition result_of (f : text_file) : row :=
  {| learning_model := tf_learning_model f; model := tf_model f;
     file_name := tf_stem f; file_path := tf_relative_path f;
     counts := analyze_file (tf_content f) |}.

(** A cell of the data frame: [None] is the missing value (NaN) that
    [pd.DataFrame] puts where a dictionary lacks the key. *)
Definition cell (r : row) (column : string) : option nat := counts r !! column.

(** A column exists in the data frame when some dictionary has the key. *)
Definition has_column (rows : list row) (column : string) : bool :=
  existsb (fun r => bool_decide (is_Some (cell r column))) rows.

(** [df[types].sum(axis=1)] for one row: missing values are skipped. *)
Definition row_total (r : row) : nat :=
  sum_list_with (fun column => default 0%nat (cell r column)) type_names.

Record csv_row : Type := { source : row; total_hallucinations : nat }.

(** [df['total_hallucinations'] = df[[...]].sum(axis=1)]; selecting a
    column that no dictionary provides raises [KeyError] ([None]). *)
Definition with_totals (rows : list row) : option (list csv_row) :=
  if forallb (has_column rows) type_names
  then Some (map (fun r => {| source := r; total_hallucinations := row_total r |}) rows)
  else None.

Definition lex (c : comparison) (rest : bool) : bool :=
  match c with
  | Lt => true
  | Eq => rest
  | Gt => false
  end.

(** [a] sorts no later than [b] by (learning_model, model, file_name). *)
Definition row_leb (a b : row) : bool :=
  lex (String.compare (learning_model a) (learning_model b))
    (lex (String.compare (model a) (model b))
       (String.leb (file_name a) (file_name b))).

(** [df.sort_values(['learning_model', 'model', 'file_name'])]: stable,
    ascending; [x] is older than every element of [l]. *)
Fixpoint insert_row (x : csv_row) (l : list csv_row) : list csv_row :=
  match l with
  | [] => [x]
  | y :: rest =>
      if row_leb (source x) (source y) then x :: y :: rest else y :: insert_row x rest
  end.

Definition sort_values (l : list csv_row) : list csv_row := foldr insert_row [] l.

(** The rows written by [df.to_csv(self.output_file)]. *)
Definition per_file_csv (files : list text_file) : option (list csv_row) :=
  option_map sort_values (with_totals (map result_of files)).

Definition group_of (c : csv_row) : string * string :=
  (learning_model (source c), model (source c)).

Definition key_compare (a b : string * string) : comparison :=
  match String.compare (fst a) (fst b) with
  | Eq => String.compare (snd a) (snd b)
  | c => c
  end.

(** The keys of [df.groupby(['learning_model', 'model'])]: distinct and
    in ascending order. *)
Fixpoint insert_key (k : string * string) (l : list (string * string))
    : list (string * string) :=
  match l with
  | [] => [k]
  | y :: rest =>
      match key_compare k y with
      | Lt => k :: y :: rest
      | Eq => y :: rest
      | Gt => y :: insert_key k rest
      end
  end.

Definition group_keys (df : list csv_row) : list (string * string) :=
  foldr insert_key [] (map group_of df).

Definition key_eqb (a b : string * string) : bool :=
  String.eqb (fst a) (fst b) && String.eqb (snd a) (snd b).

Definition group_rows (df : list csv_row) (k : string * string) : list csv_row :=
  List.filter (fun c => key_eqb (group_of c) k) df.

(** The ['sum'] aggregation of one column: missing values are skipped. *)
Definition column_sum (rows : list csv_row) (column : string) : nat :=
  sum_list_with (fun c => default 0%nat (cell (source c) column)) rows.

Definition float_of_nat (n : nat) : float :=
  PrimFloat.of_uint63 (Uint63.of_Z (Z.of_nat n)).

(** [group_summary[sum] / group_summary['total_hallucinations_sum'] * 100]
    on 64-bit floating-point numbers. *)
Definition percentage (type_sum total_sum : nat) : float :=
  (float_of_nat type_sum / float_of_nat total_sum * float_of_nat 100)%float.

(** The same quotient in exact arithmetic. *)
Definition exact_percentage (type_sum total_sum : nat) : Q :=
  (inject_Z (Z.of_nat type_sum) / inject_Z (Z.of_nat total_sum) * 100)%Q.

Record summary_row : Type := {
  group : string * string;
  type_sums : list nat;
  type_means : list float;
  type_stds : list float;
  total_sum : nat;
  total_mean : float;
  total_std : float;
  total_files : nat;
  type_percentages : list float
}.

Section Summary.

(** The ['mean'] and ['std'] aggregations of pandas over one column of one
    group, missing values given as [None]. *)
Variable agg_mean : list (option nat) -> float.
Variable agg_std : list (option nat) -> float.

Definition summarize_group (df : list csv_row) (k : string * string) : summary_row :=
  let rows := group_rows df k in
  let column (name : string) := map (fun c => cell (source c) name) rows in
  let totals := map (fun c => Some (total_hallucinations c)) rows in
  let sums := map (column_sum rows) type_names in
  let total := sum_list_with total_hallucinations rows in
  {| group := k;
     type_sums := sums;
     type_means := map (fun name => agg_mean (column name)) type_names;
     type_stds := map (fun name => agg_std (column name)) type_names;
     total_sum := total;
     total_mean := agg_mean totals;
     total_std := agg_std totals;
     total_files := length rows;
     type_percentages := map (fun s => percentage s total) sums |}.

(** The rows of [group_summary] written by [create_summary]. *)
Definition create_summary (df : list csv_row) : list summary_row :=
  map (summarize_group df) (group_keys df).

End Summary.

(** The percentages of a group in exact arithmetic. *)
Definition exact_percentages (g : summary_row) : list Q :=
  map (fun s => exact_percentage s (total_sum g)) (type_sums g).

Definition float_sum (l : list float) : float :=
  fold_left PrimFloat.add l (float_of_nat 0).

Definition Qsum (l : list Q) : Q := fold_right Qplus 0%Q l.

End CountHallucination.

(** ** [rename_files.py]: the renamer *)

Module RenameFiles.
Import Cli.

(** What the renamer does to the file system. *)
Inductive fs_op : Type :=
  | Mkdir (dir : string)
  | Copy (old_path new_path : string).

Inductive log_entry : Type :=
  | WarnNoFiles
  | ErrorNamingConflict (new_name : string)
  | ErrorProcessing (filepath : string)
  | InfoWouldRename (old_path new_path : string)
  | InfoRenamed (old_path new_path : string)
  | ErrorRenaming (old_path : string).

(** [d[k] = v] on a dictionary kept in insertion order: an existing key
    keeps its place. *)
Fixpoint dict_set (k v : string) (d : list (string * string)) : list (string * string) :=
  match d with
  | [] => [(k, v)]
  | (k', v') :: rest =>
      if String.eqb k k' then (k, v) :: rest else (k', v') :: dict_set k v rest
  end.

(** [d.values()] *)
Definition values (d : list (string * string)) : list string := map snd d.

Record run : Type := {
  returned : outcome;
  effects : list fs_op;
  log : list log_entry
}.

Section Renamer.

Variable output_dir : string.
Variable dry_run : bool.
Variable preserve_extension : bool.
(** [filepath.stem], [filepath.suffix] and [filepath.name] *)
Variable stem : string -> string.
Variable suffix : string -> string.
Variable name : string -> string.
(** [re.sub(self.pattern, self.replacement, s)]; [None] when it raises. *)
Variable re_sub : string -> option string.
(** [self.output_dir / new_name] *)
Variable joinpath : string -> string -> string.
(** [self.output_dir.mkdir(parents=True, exist_ok=True)] completes or raises. *)
Variable mkdir_ok : bool.
(** [new_path.relative_to(self.output_dir)] completes or raises. *)
Variable relative_ok : string -> bool.
(** [shutil.copy2(old_path, new_path)] completes or raises. *)
Variable copy_ok : string -> string -> bool.

Definition generate_new_name (filepath : string) : option string :=
  if preserve_extension then
    match re_sub (stem filepath) with
    | Some new_stem => Some (new_stem +:+ suffix filepath)
    | None => None
    end
  else re_sub (name filepath).

(** The output path of a file, when its new name can be computed. *)
Definition new_path_of (filepath : string) : option string :=
  match generate_new_name filepath with
  | Some new_name => Some (joinpath output_dir new_name)
  | None => None
  end.

(** The first pass; [inl] is the [return False] taken inside the loop,
    with the message logged there. *)
Fixpoint first_pass (files : list string) (rename_map : list (string * string))
    : log_entry + list (string * string) :=
  match files with
  | [] => inr rename_map
  | filepath :: rest =>
      match generate_new_name filepath with
      | None => inl (ErrorProcessing filepath)
      | Some new_name =>
          let new_path := joinpath output_dir new_name in
          if bool_decide (new_path ∈ values rename_map)
          then inl (ErrorNamingConflict new_name)
          else first_pass rest (dict_set filepath new_path rename_map)
      end
  end.

(** The second pass over [rename_map.items()]; [successful] counts the
    renames so far. *)
Fixpoint second_pass (items : list (string * string)) (successful : nat)
    (done : list fs_op) (printed : list log_entry) : run :=
  match items with
  | [] => {| returned := Returned (0 <? successful)%nat; effects := done; log := printed |}
  | (old_path, new_path) :: rest =>
      if relative_ok new_path then
        if dry_run then
          second_pass rest (S successful) done (printed ++ [InfoWouldRename old_path new_path])
        else if copy_ok old_path new_path then
          second_pass rest (S successful) (done ++ [Copy old_path new_path])
            (printed ++ [InfoRenamed old_path new_path])
        else second_pass rest successful done (printed ++ [ErrorRenaming old_path])
      else {| returned := Raised; effects := done; log := printed |}
  end.

Definition rename_files (files : list string) : run :=
  match files with
  | [] => {| returned := Returned false; effects := []; log := [WarnNoFiles] |}
  | _ :: _ =>
      match first_pass files [] with
      | inl entry => {| returned := Returned false; effects := []; log := [entry] |}
      | inr rename_map =>
          if dry_run then second_pass rename_map 0 [] []
          else if mkdir_ok then second_pass rename_map 0 [Mkdir output_dir] []
          else {| returned := Raised; effects := []; log := [] |}
      end
  end.

(** Every entry of the map sends a file to its output path. *)
Definition consistent (rename_map : list (string * string)) : Prop :=
  forall k v, In (k, v) rename_map -> new_path_of k = Some v.

End Renamer.

End RenameFiles.

(** ** [organize_files.py]: what the summary adds up *)

Module OrganizeFilesSummary.
Import OrganizeFiles.

(** The sum of the per-category counters that [print_summary] and
    [create_report] list. *)
Definition stats_total (counters : gmap (string * string) nat) : nat :=
  map_fold (fun _ count total => (count + total)%nat) 0%nat counters.

(** What the loop keeps true of its counters after [n] files. *)
Definition organizer_balanced (dry_run : bool) (n : nat) (st : state) : Prop :=
  processed_files st = n
  /\ (successful_moves st + stats_unclassified st = n)%nat
  /\ length (unclassified_files st) = stats_unclassified st
  /\ stats_total (stats st) = successful_moves st
  /\ length (log st) = n
  /\ length (copies st) = (if dry_run then 0 else successful_moves st)%nat.

End OrganizeFilesSummary.

(** ** [summaryExtractor.py]: the text under a title and the output name *)

Module SummaryExtractorText.
Import PyStr.

(** [s[:n]] *)
Fixpoint take (n : nat) (s : string) : string :=
  match n, s with
  | O, _ => EmptyString
  | S _, EmptyString => EmptyString
  | S n', String c s' => String c (take n' s')
  end.

Definition is_letter (c : ascii) : bool :=
  is_upper c || ((97 <=? code c)%nat && (code c <=? 122)%nat).

Definition is_roman (c : ascii) : bool :=
  Ascii.eqb c "I" || Ascii.eqb c "V" || Ascii.eqb c "X".

Fixpoint skip_while (p : ascii -> bool) (s : string) : string :=
  match s with
  | EmptyString => EmptyString
  | String c rest => if p c then skip_while p rest else s
  end.

(** A regex of the shape [[class]+\.] matched at the start of [s]. *)
Definition run_then_dot (p : ascii -> bool) (s : string) : bool :=
  match s with
  | EmptyString => false
  | String c rest => p c && starts_with "." (skip_while p rest)
  end.

(** [\([a-zA-Z]\)] matched at the start of [s]. *)
Definition parenthesised_letter (s : string) : bool :=
  match s with
  | String a (String b (String c _)) => Ascii.eqb a "(" && is_letter b && Ascii.eqb c ")"
  | _ => false
  end.

(** [re.match(r'^[IVX]+\.|\d+\.|\([a-zA-Z]\)', s)] *)
Definition numbered (s : string) : bool :=
  run_then_dot is_roman s || run_then_dot is_digit s || parenthesised_letter s.

(** ['\n'.join(lines)] *)
Fixpoint join_lines (lines : list string) : string :=
  match lines with
  | [] => EmptyString
  | [line] => line
  | line :: rest => line +:+ newline +:+ join_lines rest
  end.

(** [[p.text.strip() for p in doc.paragraphs if p.text.strip()]] *)
Definition stripped_paragraphs (texts : list string) : list string :=
  List.filter (fun t => negb (String.eqb t EmptyString)) (map strip texts).

(** The characters that the [re.sub] of [save_extracted_text] removes from
    the title: the angle brackets, the colon, the double quote (character
    34), the slash, the backslash, the bar, the question mark and the
    star. *)
Definition is_reserved (c : ascii) : bool :=
  existsb (Ascii.eqb c)
    [ "<"%char; ">"%char; ":"%char; ascii_of_nat 34; "/"%char; "\"%char;
      "|"%char; "?"%char; "*"%char ].

Fixpoint remove_reserved (s : string) : string :=
  match s with
  | EmptyString => EmptyString
  | String c rest =>
      if is_reserved c then remove_reserved rest else String c (remove_reserved rest)
  end.

(** [clean_title = re.sub(...)] followed by [clean_title[:50]]. *)
Definition clean_title (title : string) : string := take 50 (remove_reserved title).

(** [f"{doc_number}_{clean_title}.txt"] *)
Definition output_filename (doc_number title : string) : string :=
  doc_number +:+ "_" +:+ clean_title title +:+ ".txt".

Section Extraction.

(** The second suffix of the tuple given to [endswith], three letters
    outside the ASCII range. *)
Variable second_suffix : string.
(** [re.search(title_pattern, text, re.IGNORECASE)] as a truth value;
    [None] when the pattern makes it raise. *)
Variable title_found : string -> option bool.

Definition looks_like_heading (next_text : string) : bool :=
  (String.length next_text <? 100)%nat
  && (ends_with ":" next_text || ends_with second_suffix next_text
      || ends_with "." next_text || numbered next_text).

(** The [for i, text in enumerate(paragraphs)] loop, [paragraphs] being
    what is left of the list; [None] when the search raises. *)
Fixpoint scan (capture_text : bool) (paragraphs : list string)
    (found_title : option string) (found_text : list string)
    : option (option string * list string) :=
  match paragraphs with
  | [] => Some (found_title, found_text)
  | text :: rest =>
      if capture_text then
        match rest with
        | next_text :: _ =>
            if looks_like_heading next_text then Some (found_title, found_text)
            else scan true rest found_title (found_text ++ [text])
        | [] => scan true rest found_title (found_text ++ [text])
        end
      else
        match title_found text with
        | None => None
        | Some true => scan true rest (Some text) found_text
        | Some false => scan false rest found_title found_text
        end
  end.

(** [extract_text_under_title], given the paragraph texts of the document
    ([None] when it cannot be opened): the pair it returns. *)
Definition extract_text_under_title (document : option (list string))
    : option string * option string :=
  match document with
  | None => (None, None)
  | Some texts =>
      match scan false (stripped_paragraphs texts) None [] with
      | Some (found_title, line :: lines) => (Some (join_lines (line :: lines)), found_title)
      | _ => (None, None)
      end
  end.

(** The paragraphs kept once the title has been found. *)
Fixpoint captured (paragraphs : list string) : list string :=
  match paragraphs with
  | [] => []
  | text :: rest =>
      match rest with
      | next_text :: _ => if looks_like_heading next_text then [] else text :: captured rest
      | [] => [text]
      end
  end.

End Extraction.

End SummaryExtractorText.

(** ** [summaryEvaluation.py]: what becomes of the generated files *)

Module SummaryEvaluationOutcomes.
Import PyStr SummaryEvaluation.

(** The messages that tell why a generated file gave no pair. *)
Definition is_outcome (m : message) : bool :=
  match m with
  | ErrorReading _ => true
  | WarnEmptyGenerated _ => true
  | WarnEmptyReference _ => true
  | WarnReferenceNotFound _ _ => true
  | _ => false
  end.

Definition is_generated (file : string) : bool :=
  match generated_match file with
  | Some _ => true
  | None => false
  end.

(** The files of the walk that [generated_pattern] accepts. *)
Definition generated_files (walk : list walk_dir) : list string :=
  flat_map (fun d => List.filter is_generated (dir_files d)) walk.

(** The learning mode and the model read off the directories of a file,
    with the warning printed when there are fewer than two of them. *)
Definition mode_and_model (gen_path : string) (dirs : list string)
    : string * string * list message :=
  match dirs with
  | mode :: model :: _ => (mode, model, [])
  | _ => ("Unknown", "Unknown", [WarnUnexpectedStructure gen_path])
  end.

End SummaryEvaluationOutcomes.

(** ** [AutomaticMetric.py]: finding the reference files and building the rows *)

Module AutomaticMetricFiles.
Import PyStr AutomaticMetric.


(** The position a slice bound denotes in a sequence of [n] items: a
    negative bound counts from the end, and both kinds are cut to the
    sequence. *)
Definition slice_bound (n : nat) (i : Z) : nat :=
  if (i <? 0)%Z then Z.to_nat (Z.max (Z.of_nat n + i) 0) else Nat.min (Z.to_nat i) n.

(** [s[start:stop]] *)
Definition slice (s : string) (start stop : Z) : string :=
  let n := String.length s in
  String.substring (slice_bound n start) (slice_bound n stop - slice_bound n start) s.

(** [ref_file.endswith('.txt') and ref_file[-10:-4] == target_prefix] *)
Definition matches_target (target_prefix ref_file : string) : bool :=
  ends_with ".txt" ref_file && String.eqb (slice ref_file (-10) (-4)) target_prefix.

(** [find_reference_file], [listing] being [os.listdir(reference_dir)]. *)
Definition find_reference_file (reference_dir : string) (listing : list string)
    (target_filename : string) : list string :=
  let target_prefix := slice target_filename (-10) (-4) in
  map (SummaryEvaluation.path_join reference_dir)
    (List.filter (matches_target target_prefix) listing).

(** [scores[reference_file] = {...}] on a dictionary kept in insertion
    order. *)
Fixpoint set_item {V : Type} (k : string) (v : V) (d : list (string * V))
    : list (string * V) :=
  match d with
  | [] => [(k, v)]
  | (k', v') :: rest =>
      if String.eqb k k' then (k, v) :: rest else (k', v') :: set_item k v rest
  end.

Section Scoring.

(** The directory of the reference files, the file system, and the six
    floats the metric libraries give for a target and a reference file
    ([None]: an exception, which ends the script). *)
Variable reference_dir : string.
Variable path_exists : string -> bool.
Variable listdir : string -> option (list string).
Variable metrics : string -> string -> option (list float).

Fixpoint compute_scores_loop (target_file : string) (reference_files : list string)
    (scores : list (string * list float)) : option (list (string * list float)) :=
  match reference_files with
  | [] => Some scores
  | reference_file :: rest =>
      match metrics target_file reference_file with
      | Some score_data =>
          compute_scores_loop target_file rest (set_item reference_file score_data scores)
      | None => None
      end
  end.

Definition compute_scores (target_file : string) (reference_files : list string)
    : option (list (string * list float)) :=
  compute_scores_loop target_file reference_files [].

(** The body of [for filename in os.listdir(dir_path)]. *)
Definition file_step (parent_dir sub_dir dir_path : string)
    (acc : option (list result)) (filename : string) : option (list result) :=
  match acc with
  | None => None
  | Some results =>
      if ends_with ".txt" filename then
        let target_file := SummaryEvaluation.path_join dir_path filename in
        match listdir reference_dir with
        | None => None
        | Some listing =>
            match find_reference_file reference_dir listing filename with
            | [] => Some results
            | reference_files =>
                match compute_scores target_file reference_files with
                | None => None
                | Some scores =>
                    Some (results ++
                          map (fun '(ref_file, score_data) =>
                                 new_result sub_dir parent_dir filename target_file
                                   ref_file score_data) scores)
                end
            end
        end
      else Some results
  end.

(** The body of the two outer loops, for one pair of directory names. *)
Definition dir_step (acc : option (list result)) (dirs : string * string)
    : option (list result) :=
  let '(parent_dir, sub_dir) := dirs in
  match acc with
  | None => None
  | Some results =>
      let dir_path := SummaryEvaluation.path_join parent_dir sub_dir in
      if path_exists dir_path then
        match listdir dir_path with
        | None => None
        | Some filenames =>
            fold_left (file_step parent_dir sub_dir dir_path) filenames (Some results)
        end
      else Some results
  end.



End Scoring.

End AutomaticMetricFiles.

(** ** [countHallucination.py]: from the directory tree to the exit status *)

Module CountHallucinationRun.
Import PyStr Cli CountHallucination.

(** A model directory with its entries (name, and content when the entry
    can be read as text); a learning-model directory with its model
    directories. *)
Record model_dir : Type := {
  model_name : string;
  entries : list (string * option string)
}.

Record learning_model_dir : Type := {
  learning_model_name : string;
  model_dirs : list model_dir
}.

(** [file_path.stem] for a name that ends in ".txt": the name without the
    extension, a name that is nothing but ".txt" having none. *)
Definition stem (name : string) : string :=
  if String.eqb name ".txt" then name
  else String.substring 0 (String.length name - 4) name.

(** [model_dir.glob('*.txt')] *)
Definition glob_txt (m : model_dir) : list (string * option string) :=
  List.filter (fun e => ends_with ".txt" (fst e)) (entries m).

Definition text_file_of (lm : learning_model_dir) (m : model_dir)
    (e : string * option string) : text_file :=
  {| tf_learning_model := learning_model_name lm;
     tf_model := model_name m;
     tf_stem := stem (fst e);
     tf_relative_path := learning_model_name lm +:+ "/" +:+ model_name m +:+ "/" +:+ fst e;
     tf_content := snd e |}.

(** The files the three nested loops of [analyze_directories] visit, in
    that order. *)
Definition files_of (tree : list learning_model_dir) : list text_file :=
  flat_map (fun lm =>
              flat_map (fun m => map (text_file_of lm m) (glob_txt m)) (model_dirs lm))
    tree.

(** [analyze_directories]; [summary_written] tells whether [to_csv] and
    [create_summary] wrote their files rather than raised. *)
Definition analyze_directories (summary_written : bool) (tree : list learning_model_dir)
    : outcome :=
  match tree with
  | [] => Returned false
  | _ =>
      match files_of tree with
      | [] => Returned false
      | files =>
          match per_file_csv files with
          | None => Raised
          | Some _ => if summary_written then Returned true else Raised
          end
      end
  end.

(** The order of the CSV rows. *)
Definition csv_le (a b : csv_row) : Prop := row_leb (source a) (source b) = true.

Definition key_lt (a b : string * string) : Prop := key_compare a b = Lt.

End CountHallucinationRun.

(** ** [rename_files.py]: what a run copies and reports *)

Module RenameFilesEffects.
Import Cli RenameFiles.

(** The copies among the effects of a run, as (source, destination). *)
Definition copies_of (ops : list fs_op) : list (string * string) :=
  flat_map (fun op => match op with
                      | Copy old_path new_path => [(old_path, new_path)]
                      | Mkdir _ => []
                      end) ops.

Definition is_renamed (e : log_entry) : bool :=
  match e with
  | InfoRenamed _ _ => true
  | _ => false
  end.

Definition copy_of (item : string * string) : fs_op := Copy (fst item) (snd item).

End RenameFilesEffects.

(** ** [CountError.py]: counting strings in the files of a tree *)

Module CountError.
Import PyStr.

(** [line.count(target)]: the occurrences that do not overlap, taken from
    left to right; the empty string is found once at every position, the
    end included. *)
Definition str_count (target line : string) : nat :=
  if String.eqb target EmptyString then S (String.length line)
  else CountHallucination.count_matches target line.

(** A [defaultdict(int)] in insertion order. *)
Definition counter : Type := list (string * nat).

(** [d.get(k, 0)] *)
Fixpoint get (d : counter) (k : string) : nat :=
  match d with
  | [] => 0
  | (k', v) :: rest => if String.eqb k k' then v else get rest k
  end.

(** [d[k] += n] *)
Fixpoint add_to (k : string) (n : nat) (d : counter) : counter :=
  match d with
  | [] => [(k, 0 + n)%nat]
  | (k', v) :: rest =>
      if String.eqb k k' then (k', (v + n)%nat) :: rest else (k', v) :: add_to k n rest
  end.

(** [find_matching_files]: the walk gives, directory by directory, the
    path of the directory and the names of its files. *)
Definition find_matching_files (walk : list (string * list string)) (file_pattern : string)
    : list string :=
  flat_map (fun '(dirpath, filenames) =>
              map (SummaryEvaluation.path_join dirpath)
                (List.filter (starts_with file_pattern) filenames))
    walk.

Section Counting.

(** The lines read from a file before its end or before the exception that
    ends the reading (none when it cannot be opened). *)
Variable lines_of : string -> list string.

(** [for target in target_strings: counts[target] += line.count(target)] *)
Definition count_line (target_strings : list string) (counts : counter) (line : string)
    : counter :=
  fold_left (fun c target => add_to target (str_count target line) c) target_strings counts.

Definition count_strings_in_file (file_path : string) (target_strings : list string)
    : counter :=
  fold_left (count_line target_strings) (lines_of file_path) [].

Definition aggregate_file (target_strings : list string) (aggregated : counter)
    (file_path : string) : counter :=
  let file_counts := count_strings_in_file file_path target_strings in
  fold_left (fun a target => add_to target (get file_counts target) a)
    target_strings aggregated.

Definition aggregate_counts (files target_strings : list string) : counter :=
  fold_left (aggregate_file target_strings) files [].

(** [main]: the rows handed to [save_to_csv], or nothing when no file
    matches. *)
Definition main (walk : list (string * list string)) (file_pattern : string)
    (strings : list string) : option counter :=
  match find_matching_files walk file_pattern with
  | [] => None
  | matching_files => Some (aggregate_counts matching_files strings)
  end.

(** The occurrences of a target in all the lines of the files. *)
Definition occurrences (files : list string) (target : string) : nat :=
  sum_list_with (fun file_path => sum_list_with (str_count target) (lines_of file_path))
    files.

End Counting.

(** How many times a target is listed. *)
Definition times_listed (target : string) (target_strings : list string) : nat :=
  length (List.filter (String.eqb target) target_strings).

(** The targets in the order of their first occurrence. *)
Definition first_seen (seen : list string) (target : string) : list string :=
  if existsb (String.eqb target) seen then seen else seen ++ [target].

Definition distinct (target_strings : list string) : list string :=
  fold_left first_seen target_strings [].

End CountError.

(** * Part II: their properties *)

(** ** 64-bit floating-point numbers: rounding *)

Module Binary64Facts.
Import Binary64.

Local Open Scope Z_scope.

Lemma digits2_pos_bounds (p : positive) :
  2 ^ (Z.pos (digits2_pos p) - 1) <= Z.pos p < 2 ^ Z.pos (digits2_pos p).
Proof.
  induction p as [p IH | p IH |]; cbn [digits2_pos].
  - rewrite Pos2Z.inj_succ, (Pos2Z.inj_xI p).
    replace (Z.succ (Z.pos (digits2_pos p)) - 1) with (Z.succ (Z.pos (digits2_pos p) - 1)) by lia.
    rewrite !Z.pow_succ_r by lia. lia.
  - rewrite Pos2Z.inj_succ, (Pos2Z.inj_xO p).
    replace (Z.succ (Z.pos (digits2_pos p)) - 1) with (Z.succ (Z.pos (digits2_pos p) - 1)) by lia.
    rewrite !Z.pow_succ_r by lia. lia.
  - simpl. lia.
Qed.

Lemma digits2_pos_unique (p : positive) (k : Z) :
  2 ^ (k - 1) <= Z.pos p < 2 ^ k -> Z.pos (digits2_pos p) = k.
Proof.
  intros [Hlo Hhi]. pose proof (digits2_pos_bounds p) as [Hlo' Hhi'].
  assert (Hk : 0 < k).
  { destruct (Z_lt_le_dec 0 k) as [H | H]; [exact H |].
    exfalso. destruct (Z.eq_dec k 0) as [-> | Hne].
    - simpl in Hhi. lia.
    - rewrite (Z.pow_neg_r 2 k) in Hhi by lia. lia. }
  destruct (Z.lt_trichotomy (Z.pos (digits2_pos p)) k) as [H | [H | H]]; [| exact H |].
  - exfalso. assert (2 ^ Z.pos (digits2_pos p) <= 2 ^ (k - 1)) by (apply Z.pow_le_mono_r; lia).
    lia.
  - exfalso. assert (2 ^ k <= 2 ^ (Z.pos (digits2_pos p) - 1)) by (apply Z.pow_le_mono_r; lia).
    lia.
Qed.

Lemma shr_1_m (r : shr_record) : 0 <= shr_m r -> shr_m (shr_1 r) = shr_m r / 2.
Proof.
  destruct r as [m b s]. cbn [shr_m]. intros Hm. unfold shr_1.
  destruct m as [|[p|p|]|p]; cbn [shr_m].
  - reflexivity.
  - rewrite (Pos2Z.inj_xI p). apply (Z.div_unique _ _ _ 1); lia.
  - rewrite (Pos2Z.inj_xO p). apply (Z.div_unique _ _ _ 0); lia.
  - reflexivity.
  - lia.
Qed.

Lemma iter_shr_1_m (n : positive) (r : shr_record) :
  0 <= shr_m r -> shr_m (SpecFloat.iter_pos shr_1 n r) = shr_m r / 2 ^ Z.pos n.
Proof.
  revert r; induction n as [n IH | n IH |]; intros r Hr; cbn [SpecFloat.iter_pos].
  - assert (H1 : 0 <= shr_m (shr_1 r)) by (rewrite shr_1_m by exact Hr; apply Z.div_pos; lia).
    assert (H2 : 0 <= shr_m (SpecFloat.iter_pos shr_1 n (shr_1 r)))
      by (rewrite IH by exact H1; apply Z.div_pos; [exact H1 | apply Z.pow_pos_nonneg; lia]).
    rewrite IH by exact H2. rewrite IH by exact H1. rewrite shr_1_m by exact Hr.
    rewrite !Z.div_div by (try apply Z.pow_pos_nonneg; lia).
    f_equal. rewrite (Pos2Z.inj_xI n).
    replace (2 * Z.pos n + 1) with (1 + Z.pos n + Z.pos n) by lia.
    rewrite !Z.pow_add_r by lia. lia.
  - assert (H2 : 0 <= shr_m (SpecFloat.iter_pos shr_1 n r))
      by (rewrite IH by exact Hr; apply Z.div_pos; [exact Hr | apply Z.pow_pos_nonneg; lia]).
    rewrite IH by exact H2. rewrite IH by exact Hr.
    rewrite Z.div_div by (try apply Z.pow_pos_nonneg; try lia;
                          apply Z.neq_sym, Z.lt_neq, Z.pow_pos_nonneg; lia).
    f_equal. rewrite (Pos2Z.inj_xO n).
    replace (2 * Z.pos n) with (Z.pos n + Z.pos n) by lia.
    now rewrite Z.pow_add_r by lia.
  - rewrite shr_1_m by exact Hr. reflexivity.
Qed.

Lemma shr_record_of_loc_m (m : Z) (l : location) : shr_m (shr_record_of_loc m l) = m.
Proof. destruct l as [|[]]; reflexivity. Qed.

Lemma shr_spec (r : shr_record) (e n : Z) :
  0 <= shr_m r -> 0 <= n ->
  shr_m (fst (shr r e n)) = shr_m r / 2 ^ n /\ snd (shr r e n) = e + n.
Proof.
  intros Hr Hn. unfold shr. destruct n as [|p|p]; cbn [fst snd].
  - rewrite Z.pow_0_r, Z.div_1_r. split; [reflexivity | lia].
  - split; [now apply iter_shr_1_m | reflexivity].
  - lia.
Qed.

Lemma round_nearest_even_cases (m : Z) (l : location) :
  round_nearest_even m l = m \/ round_nearest_even m l = m + 1.
Proof.
  unfold round_nearest_even. destruct l as [|[]]; try (now left); try (now right).
  destruct (IntDef.Z.even m); [now left | now right].
Qed.

Lemma fexp_normal (d e : Z) : -1074 <= d + e - 53 -> fexp 53 1024 (d + e) - e = d - 53.
Proof. unfold fexp, SpecFloat.emin. intros H. change IntDef.Z.max with Z.max. lia. Qed.

Lemma pow2_pos (e : Z) : (0 < 2 ^ e)%Q.
Proof. now apply Qpower_0_lt. Qed.

Lemma pow2_add (a b : Z) : (2 ^ (a + b) == 2 ^ a * 2 ^ b)%Q.
Proof. now apply Qpower_plus. Qed.

Lemma pow2_inject (n : Z) : 0 <= n -> (inject_Z (2 ^ n) == 2 ^ n)%Q.
Proof. intros H. now rewrite Zpower_Qpower. Qed.

(** Rounding a positive number known between two neighbours of at least 53
    digits: the result is a normal number within one unit in the last place. *)
Lemma round_aux_bound (s : bool) (M : positive) (E : Z) (lx : location) (x : Q) :
  53 <= Z.pos (digits2_pos M) ->
  -1074 <= Z.pos (digits2_pos M) + E - 53 ->
  Z.pos (digits2_pos M) + E - 52 <= 971 ->
  (inject_Z (Z.pos M) * 2 ^ E <= x)%Q ->
  (x <= inject_Z (Z.pos M + 1) * 2 ^ E)%Q ->
  exists m e,
    binary_round_aux 53 1024 s (Z.pos M) E lx = S754_finite s m e
    /\ Z.pos (digits2_pos m) = 53
    /\ (e = Z.pos (digits2_pos M) + E - 53 \/ e = Z.pos (digits2_pos M) + E - 52)
    /\ (x * (1 - eps) <= inject_Z (Z.pos m) * 2 ^ e <= x * (1 + eps))%Q.
Proof.
  set (d := Z.pos (digits2_pos M)). intros Hd Hmin Hmax Hlo Hhi.
  pose proof (digits2_pos_bounds M) as [HMlo HMhi]. fold d in HMlo, HMhi.
  set (n := d - 53).
  assert (Hpow : 2 ^ (d - 1) = 2 ^ n * 2 ^ 52)
    by (rewrite <- Z.pow_add_r by lia; f_equal; lia).
  assert (Hpow' : 2 ^ d = 2 ^ n * 2 ^ 53)
    by (rewrite <- Z.pow_add_r by lia; f_equal; lia).
  assert (Hn : 0 < 2 ^ n) by (apply Z.pow_pos_nonneg; lia).
  set (m1 := Z.pos M / 2 ^ n).
  assert (Hm1 : 2 ^ 52 <= m1 < 2 ^ 53).
  { split.
    - apply Z.div_le_lower_bound; lia.
    - apply Z.div_lt_upper_bound; lia. }
  assert (Hfloor : m1 * 2 ^ n <= Z.pos M < (m1 + 1) * 2 ^ n).
  { pose proof (Z.mul_div_le (Z.pos M) (2 ^ n) Hn).
    pose proof (Z.mul_succ_div_gt (Z.pos M) (2 ^ n) Hn). fold m1 in H, H0. lia. }
  unfold binary_round_aux, shr_fexp. cbn [Zdigits2]. fold d.
  rewrite (fexp_normal d E Hmin). fold n.
  destruct (shr_spec (shr_record_of_loc (Z.pos M) lx) E n) as [Hs1 He1];
    [rewrite shr_record_of_loc_m; lia | lia |].
  rewrite shr_record_of_loc_m in Hs1. fold m1 in Hs1.
  destruct (shr (shr_record_of_loc (Z.pos M) lx) E n) as [mrs1 e1].
  cbn [fst snd] in Hs1, He1. subst e1. rewrite Hs1.
  set (m2 := round_nearest_even m1 (loc_of_shr_record mrs1)).
  assert (Hm2 : m2 = m1 \/ m2 = m1 + 1) by apply round_nearest_even_cases.
  (* the bracket at the precision of the result *)
  set (R := (2 ^ (E + n))%Q).
  assert (HR : (0 < R)%Q) by apply pow2_pos.
  assert (Hbr : (inject_Z m1 * R <= x /\ x <= (inject_Z m1 + 1) * R)%Q).
  { unfold R. rewrite pow2_add, <- (pow2_inject n) by lia.
    pose proof (pow2_pos E) as HP.
    assert (H1 : (inject_Z m1 * inject_Z (2 ^ n) <= inject_Z (Z.pos M))%Q)
      by (rewrite <- inject_Z_mult, <- Zle_Qle; lia).
    assert (H2 : (inject_Z (Z.pos M + 1) <= (inject_Z m1 + 1) * inject_Z (2 ^ n))%Q).
    { change 1%Q with (inject_Z 1). rewrite <- inject_Z_plus, <- inject_Z_mult, <- Zle_Qle.
      lia. }
    split.
    - apply Qle_trans with (inject_Z (Z.pos M) * 2 ^ E)%Q; [| exact Hlo].
      rewrite (Qmult_comm (2 ^ E)), Qmult_assoc. apply Qmult_le_compat_r; [exact H1 |].
      now apply Qlt_le_weak.
    - apply Qle_trans with (inject_Z (Z.pos M + 1) * 2 ^ E)%Q; [exact Hhi |].
      rewrite (Qmult_comm (2 ^ E)), Qmult_assoc. apply Qmult_le_compat_r; [exact H2 |].
      now apply Qlt_le_weak. }
  destruct Hbr as [Hbr1 Hbr2].
  assert (Hunit : (R <= x * eps)%Q).
  { assert (H52 : (inject_Z (2 ^ 52) <= inject_Z m1)%Q) by (rewrite <- Zle_Qle; lia).
    assert (H : (inject_Z (2 ^ 52) * R <= inject_Z m1 * R)%Q)
      by (apply Qmult_le_compat_r; [exact H52 | now apply Qlt_le_weak]).
    change (inject_Z (2 ^ 52)) with (4503599627370496 # 1)%Q in H.
    unfold eps. lra. }
  assert (Hval : (x * (1 - eps) <= inject_Z m2 * R <= x * (1 + eps))%Q).
  { destruct Hm2 as [-> | ->].
    - lra.
    - rewrite inject_Z_plus. change (inject_Z 1) with 1%Q. lra. }
  clear Hbr1 Hbr2 Hunit HR. unfold R in Hval. clear R. clearbody m2.
  destruct (Z_lt_le_dec m2 (2 ^ 53)) as [Hsmall | Hbig].
  - (* no carry *)
    destruct m2 as [|q|q]; try lia.
    assert (Hq : Z.pos (digits2_pos q) = 53) by (apply digits2_pos_unique; lia).
    cbn [Zdigits2]. rewrite Hq.
    replace (fexp 53 1024 (53 + (E + n)) - (E + n)) with 0
      by (rewrite fexp_normal; lia).
    cbn [shr shr_record_of_loc shr_m]. 
    replace (E + n <=? 1024 - 53) with true by (symmetry; apply Z.leb_le; lia).
    exists q, (E + n).
    split; [reflexivity |]. split; [exact Hq |].
    split; [left; unfold n; lia | exact Hval].
  - (* the mantissa was rounded up to 2^53 *)
    assert (Hm2' : m2 = 2 ^ 53) by lia. subst m2.
    change (2 ^ 53) with (Z.pos 9007199254740992) in *.
    cbn [Zdigits2]. change (Z.pos (digits2_pos 9007199254740992)) with 54.
    replace (fexp 53 1024 (54 + (E + n)) - (E + n)) with 1
      by (rewrite fexp_normal; lia).
    cbn.
    replace (E + n + 1 <=? 1024 - 53) with true by (symmetry; apply Z.leb_le; lia).
    exists 4503599627370496%positive, (E + n + 1).
    split; [reflexivity |]. split; [reflexivity |].
    split; [right; unfold n; lia |]. split.
    + rewrite pow2_add. change (2 ^ 1)%Q with 2%Q.
      change (inject_Z (Z.pos 4503599627370496)) with (4503599627370496 # 1)%Q.
      change (inject_Z (Z.pos 9007199254740992)) with (9007199254740992 # 1)%Q in Hval.
      destruct Hval as [Hv _]. unfold eps in *. lra.
    + rewrite pow2_add. change (2 ^ 1)%Q with 2%Q.
      change (inject_Z (Z.pos 4503599627370496)) with (4503599627370496 # 1)%Q.
      change (inject_Z (Z.pos 9007199254740992)) with (9007199254740992 # 1)%Q in Hval.
      destruct Hval as [_ Hv]. unfold eps in *. lra.
Qed.

Lemma round_aux_exact (s : bool) (M : positive) (E : Z) :
  Z.pos (digits2_pos M) = 53 -> -1074 <= E <= 971 ->
  binary_round_aux 53 1024 s (Z.pos M) E loc_Exact = S754_finite s M E.
Proof.
  intros Hd HE. unfold binary_round_aux, shr_fexp. cbn [Zdigits2]. rewrite Hd.
  replace (fexp 53 1024 (53 + E) - E) with 0 by (rewrite fexp_normal; lia).
  cbn [shr shr_record_of_loc shr_m loc_of_shr_record round_nearest_even Zdigits2].
  rewrite Hd.
  replace (fexp 53 1024 (53 + E) - E) with 0 by (rewrite fexp_normal; lia).
  cbn [shr shr_record_of_loc shr_m].
  replace (E <=? 1024 - 53) with true by (symmetry; apply Z.leb_le; lia).
  reflexivity.
Qed.

Lemma digits2_pos_range (p : positive) (a b : Z) :
  0 <= a -> 2 ^ a <= Z.pos p < 2 ^ b -> a + 1 <= Z.pos (digits2_pos p) <= b.
Proof.
  intros Ha [Hlo Hhi]. pose proof (digits2_pos_bounds p) as [Hlo' Hhi']. split.
  - destruct (Z_lt_le_dec (Z.pos (digits2_pos p)) (a + 1)) as [H | H]; [| exact H].
    exfalso. assert (2 ^ Z.pos (digits2_pos p) <= 2 ^ a) by (apply Z.pow_le_mono_r; lia).
    lia.
  - destruct (Z_lt_le_dec b (Z.pos (digits2_pos p))) as [H | H]; [| exact H].
    exfalso. assert (0 <= b).
    { destruct (Z_lt_le_dec b 0) as [Hb | Hb]; [| exact Hb].
      rewrite (Z.pow_neg_r 2 b) in Hhi by lia. lia. }
    assert (2 ^ b <= 2 ^ (Z.pos (digits2_pos p) - 1)) by (apply Z.pow_le_mono_r; lia).
    lia.
Qed.

Lemma pos_iter_xO (p k : positive) : Z.pos (Pos.iter xO p k) = Z.pos p * 2 ^ Z.pos k.
Proof.
  induction k as [|k IH] using Pos.peano_ind.
  - simpl. lia.
  - rewrite Pos.iter_succ, (Pos2Z.inj_xO (Pos.iter xO p k)), IH, Pos2Z.inj_succ,
      Z.pow_succ_r by lia. lia.
Qed.

(** The conversion of an integer below 2^53 is exact. *)
Lemma normalize_exact (z : Z) :
  0 < z < 2 ^ 53 -> normal (binary_normalize 53 1024 z 0 false) (-52) 0 (inject_Z z).
Proof.
  intros [Hpos Hlt]. destruct z as [|p|p]; try lia.
  unfold binary_normalize, binary_round.
  pose proof (digits2_pos_bounds p) as [Hlo Hhi].
  assert (Hdp : 1 <= Z.pos (digits2_pos p) <= 53).
  { split; [lia |]. apply (digits2_pos_range p 0 53); lia. }
  replace (fexp 53 1024 (Z.pos (digits2_pos p) + 0))
    with (Z.pos (digits2_pos p) - 53)
    by (rewrite <- (Z.sub_0_r (fexp _ _ _)), fexp_normal; lia).
  unfold shl_align.
  destruct (Z.pos (digits2_pos p) - 53 - 0) as [|k|k] eqn:Hk; try lia.
  - assert (Hd : Z.pos (digits2_pos p) = 53) by lia.
    rewrite round_aux_exact by (rewrite ?Hd; lia).
    exists p, 0. repeat split; try lia. change (2 ^ 0)%Q with 1%Q. ring.
  - assert (Hk' : Z.pos k = 53 - Z.pos (digits2_pos p)) by lia.
    assert (Hm : Z.pos (Pos.iter xO p k) = Z.pos p * 2 ^ Z.pos k) by apply pos_iter_xO.
    assert (H2k : 0 < 2 ^ Z.pos k) by (apply Z.pow_pos_nonneg; lia).
    assert (Hd : Z.pos (digits2_pos (Pos.iter xO p k)) = 53).
    { apply digits2_pos_unique. rewrite Hm.
      assert (H1 : 2 ^ (53 - 1) = 2 ^ (Z.pos (digits2_pos p) - 1) * 2 ^ Z.pos k)
        by (rewrite <- Z.pow_add_r by lia; f_equal; lia).
      assert (H2 : 2 ^ 53 = 2 ^ Z.pos (digits2_pos p) * 2 ^ Z.pos k)
        by (rewrite <- Z.pow_add_r by lia; f_equal; lia).
      rewrite H1, H2. split.
      - apply Z.mul_le_mono_nonneg_r; lia.
      - apply Z.mul_lt_mono_pos_r; lia. }
    rewrite round_aux_exact by (try exact Hd; lia).
    exists (Pos.iter xO p k), (Z.pos (digits2_pos p) - 53).
    repeat split; try lia; try exact Hd.
    rewrite Hm, inject_Z_mult, pow2_inject by lia.
    rewrite <- Qmult_assoc, <- pow2_add.
    replace (Z.pos k + (Z.pos (digits2_pos p) - 53)) with 0 by lia.
    change (2 ^ 0)%Q with 1%Q. ring.
Qed.

(** The product of two normal numbers, correctly rounded. *)
Lemma mul_normal (x y : spec_float) (lx hx ly hy : Z) (vx vy : Q) :
  normal x lx hx vx -> normal y ly hy vy ->
  -1100 <= lx + ly -> hx + hy <= 900 ->
  exists v, normal (SFmul 53 1024 x y) (lx + ly + 52) (hx + hy + 54) v
            /\ (vx * vy * (1 - eps) <= v <= vx * vy * (1 + eps))%Q.
Proof.
  intros (mx & ex & -> & Hdx & Hex & Hvx) (my & ey & -> & Hdy & Hey & Hvy) Hlo Hhi.
  cbn [SFmul xorb].
  pose proof (digits2_pos_bounds mx) as Hbx. rewrite Hdx in Hbx.
  pose proof (digits2_pos_bounds my) as Hby. rewrite Hdy in Hby.
  change (2 ^ (53 - 1)) with 4503599627370496 in Hbx, Hby.
  change (2 ^ 53) with 9007199254740992 in Hbx, Hby.
  assert (Hd : 105 <= Z.pos (digits2_pos (mx * my)) <= 106).
  { apply (digits2_pos_range (mx * my) 104 106); [lia |].
    rewrite Pos2Z.inj_mul.
    change (2 ^ 104) with (4503599627370496 * 4503599627370496).
    change (2 ^ 106) with (9007199254740992 * 9007199254740992). nia. }
  assert (Hexact : (inject_Z (Z.pos (mx * my)) * 2 ^ (ex + ey) == vx * vy)%Q).
  { rewrite <- Hvx, <- Hvy, Pos2Z.inj_mul, inject_Z_mult, pow2_add. ring. }
  destruct (round_aux_bound false (mx * my) (ex + ey) loc_Exact (vx * vy))
    as (m & e & Heq & Hdm & He & Hv); try lia.
  - rewrite Hexact. apply Qle_refl.
  - rewrite <- Hexact, inject_Z_plus.
    pose proof (pow2_pos (ex + ey)). change (inject_Z 1) with 1%Q. lra.
  - exists (inject_Z (Z.pos m) * 2 ^ e)%Q. split; [| exact Hv].
    exists m, e. repeat split; try assumption; try lia; try reflexivity.
Qed.

(** The quotient of two normal numbers, correctly rounded. *)
Lemma div_normal (x y : spec_float) (lx hx ly hy : Z) (vx vy : Q) :
  normal x lx hx vx -> normal y ly hy vy ->
  -1000 <= lx - hy -> hx - ly <= 1000 ->
  exists v, normal (SFdiv 53 1024 x y) (lx - hy - 53) (hx - ly - 51) v
            /\ (vx / vy * (1 - eps) <= v <= vx / vy * (1 + eps))%Q.
Proof.
  intros (mx & ex & -> & Hdx & Hex & Hvx) (my & ey & -> & Hdy & Hey & Hvy) Hlo Hhi.
  cbn [SFdiv xorb]. unfold SFdiv_core_binary. cbn [Zdigits2]. rewrite Hdx, Hdy.
  change IntDef.Z.min with Z.min. change IntDef.Z.shiftl with Z.shiftl.
  change IntDef.Z.div_eucl with Z.div_eucl.
  replace (53 + ex - (53 + ey)) with (53 + (ex - ey - 53)) by lia.
  assert (Hf : fexp 53 1024 (53 + (ex - ey - 53)) = ex - ey - 53).
  { pose proof (fexp_normal 53 (ex - ey - 53)). lia. }
  rewrite Hf. replace (Z.min (ex - ey - 53) (ex - ey)) with (ex - ey - 53) by lia.
  replace (ex - ey - (ex - ey - 53)) with 53 by lia.
  rewrite Z.shiftl_mul_pow2 by lia.
  pose proof (digits2_pos_bounds mx) as Hbx. rewrite Hdx in Hbx.
  pose proof (digits2_pos_bounds my) as Hby. rewrite Hdy in Hby.
  change (2 ^ (53 - 1)) with 4503599627370496 in Hbx, Hby.
  change (2 ^ 53) with 9007199254740992 in *.
  pose proof (Z.div_eucl_eq (Z.pos mx * 9007199254740992) (Z.pos my) ltac:(lia)) as Hdiv.
  pose proof (Z.mod_pos_bound (Z.pos mx * 9007199254740992) (Z.pos my) ltac:(lia)) as Hmod.
  unfold Z.modulo in Hmod.
  destruct (Z.div_eucl (Z.pos mx * 9007199254740992) (Z.pos my)) as [q r].
  assert (Hq : 4503599627370496 <= q < 18014398509481984) by nia.
  destruct q as [|q|q]; try lia.
  assert (Hd : 53 <= Z.pos (digits2_pos q) <= 54).
  { apply (digits2_pos_range q 52 54); [lia |].
    change (2 ^ 52) with 4503599627370496. change (2 ^ 54) with 18014398509481984. lia. }
  assert (Hvy_pos : (0 < vy)%Q).
  { rewrite <- Hvy. apply Qmult_lt_0_compat; [| apply pow2_pos].
    change 0%Q with (inject_Z 0). rewrite <- Zlt_Qlt. lia. }
  assert (Hbracket : (inject_Z (Z.pos q) * 2 ^ (ex - ey - 53) <= vx / vy
                      /\ vx / vy <= inject_Z (Z.pos q + 1) * 2 ^ (ex - ey - 53))%Q).
  { assert (Hpow : (2 ^ ex == 2 ^ (ex - ey - 53) * (9007199254740992 # 1) * 2 ^ ey)%Q).
    { change (9007199254740992 # 1)%Q with (2 ^ 53)%Q. rewrite <- !pow2_add.
      now replace (ex - ey - 53 + 53 + ey) with ex by lia. }
    pose proof (pow2_pos (ex - ey - 53)) as HS. pose proof (pow2_pos ey) as HP.
    assert (H1 : (inject_Z (Z.pos q) * inject_Z (Z.pos my)
                  <= inject_Z (Z.pos mx) * (9007199254740992 # 1))%Q).
    { change (9007199254740992 # 1)%Q with (inject_Z 9007199254740992).
      rewrite <- !inject_Z_mult, <- Zle_Qle. lia. }
    assert (H2 : (inject_Z (Z.pos mx) * (9007199254740992 # 1)
                  <= inject_Z (Z.pos q + 1) * inject_Z (Z.pos my))%Q).
    { change (9007199254740992 # 1)%Q with (inject_Z 9007199254740992).
      rewrite <- !inject_Z_mult, <- Zle_Qle. lia. }
    assert (HSP : (0 <= 2 ^ (ex - ey - 53) * 2 ^ ey)%Q)
      by (apply Qlt_le_weak, Qmult_lt_0_compat; assumption).
    split.
    - apply Qle_shift_div_l; [exact Hvy_pos |]. rewrite <- Hvx, <- Hvy, Hpow.
      setoid_replace (inject_Z (Z.pos q) * 2 ^ (ex - ey - 53)
                      * (inject_Z (Z.pos my) * 2 ^ ey))%Q
        with (inject_Z (Z.pos q) * inject_Z (Z.pos my)
              * (2 ^ (ex - ey - 53) * 2 ^ ey))%Q using relation Qeq by ring.
      setoid_replace (inject_Z (Z.pos mx)
                      * (2 ^ (ex - ey - 53) * (9007199254740992 # 1) * 2 ^ ey))%Q
        with (inject_Z (Z.pos mx) * (9007199254740992 # 1)
              * (2 ^ (ex - ey - 53) * 2 ^ ey))%Q using relation Qeq by ring.
      now apply Qmult_le_compat_r.
    - apply Qle_shift_div_r; [exact Hvy_pos |]. rewrite <- Hvx, <- Hvy, Hpow.
      setoid_replace (inject_Z (Z.pos q + 1) * 2 ^ (ex - ey - 53)
                      * (inject_Z (Z.pos my) * 2 ^ ey))%Q
        with (inject_Z (Z.pos q + 1) * inject_Z (Z.pos my)
              * (2 ^ (ex - ey - 53) * 2 ^ ey))%Q using relation Qeq by ring.
      setoid_replace (inject_Z (Z.pos mx)
                      * (2 ^ (ex - ey - 53) * (9007199254740992 # 1) * 2 ^ ey))%Q
        with (inject_Z (Z.pos mx) * (9007199254740992 # 1)
              * (2 ^ (ex - ey - 53) * 2 ^ ey))%Q using relation Qeq by ring.
      now apply Qmult_le_compat_r. }
  destruct Hbracket as [Hb1 Hb2].
  destruct (round_aux_bound false q (ex - ey - 53) (new_location (Z.pos my) r) (vx / vy))
    as (m & e & Heq & Hdm & He & Hv); try lia; try assumption.
  rewrite Heq. exists (inject_Z (Z.pos m) * 2 ^ e)%Q. split; [| exact Hv].
  exists m, e. repeat split; try assumption; try lia; try reflexivity.
Qed.

(** The sum of two normal numbers, correctly rounded. *)
Lemma add_normal (x y : spec_float) (lo hi : Z) (vx vy : Q) :
  normal x lo hi vx -> normal y lo hi vy ->
  -1000 <= lo -> hi <= 900 ->
  exists v, normal (SFadd 53 1024 x y) lo (hi + 2) v
            /\ ((vx + vy) * (1 - eps) <= v <= (vx + vy) * (1 + eps))%Q.
Proof.
  intros (mx & ex & -> & Hdx & Hex & Hvx) (my & ey & -> & Hdy & Hey & Hvy) Hlo Hhi.
  cbn [SFadd cond_Zopp]. change IntDef.Z.min with Z.min.
  set (ez := Z.min ex ey).
  assert (Hshift : forall (m : positive) (e : Z), ez <= e ->
             Z.pos (fst (shl_align m e ez)) = Z.pos m * 2 ^ (e - ez)).
  { intros m e He. unfold shl_align. destruct (ez - e) as [|k|k] eqn:Hk; try lia.
    - replace (e - ez) with 0 by lia. cbn [fst]. lia.
    - cbn [fst]. rewrite pos_iter_xO. f_equal. f_equal. lia. }
  pose proof (Hshift mx ex ltac:(lia)) as Hsx.
  pose proof (Hshift my ey ltac:(lia)) as Hsy.
  set (ax := fst (shl_align mx ex ez)) in *. set (ay := fst (shl_align my ey ez)) in *.
  change (Z.pos ax + Z.pos ay) with (Z.pos (ax + ay)).
  cbn [binary_normalize]. unfold binary_round.
  pose proof (digits2_pos_bounds mx) as Hbx. rewrite Hdx in Hbx.
  pose proof (digits2_pos_bounds my) as Hby. rewrite Hdy in Hby.
  change (2 ^ (53 - 1)) with 4503599627370496 in Hbx, Hby.
  change (2 ^ 53) with 9007199254740992 in Hbx, Hby.
  set (hm := Z.max ex ey).
  assert (Hpx : 0 < 2 ^ (ex - ez)) by (apply Z.pow_pos_nonneg; lia).
  assert (Hpy : 0 < 2 ^ (ey - ez)) by (apply Z.pow_pos_nonneg; lia).
  assert (Hsum : 2 ^ (52 + (hm - ez)) <= Z.pos (ax + ay) < 2 ^ (54 + (hm - ez))).
  { rewrite Pos2Z.inj_add, Hsx, Hsy, !Z.pow_add_r by lia.
    change (2 ^ 52) with 4503599627370496. change (2 ^ 54) with (2 * 9007199254740992).
    assert (Hmono1 : 2 ^ (ex - ez) <= 2 ^ (hm - ez)) by (apply Z.pow_le_mono_r; lia).
    assert (Hmono2 : 2 ^ (ey - ez) <= 2 ^ (hm - ez)) by (apply Z.pow_le_mono_r; lia).
    assert (Hone : 2 ^ (hm - ez) = 2 ^ (ex - ez) \/ 2 ^ (hm - ez) = 2 ^ (ey - ez)).
    { unfold hm. destruct (Z.max_spec ex ey) as [[_ ->] | [_ ->]]; [now right | now left]. }
    nia. }
  assert (Hd : 53 + (hm - ez) <= Z.pos (digits2_pos (ax + ay)) <= 54 + (hm - ez)).
  { pose proof (digits2_pos_range (ax + ay) (52 + (hm - ez)) (54 + (hm - ez))
                  ltac:(lia) Hsum). lia. }
  assert (Hf : fexp 53 1024 (Z.pos (digits2_pos (ax + ay)) + ez)
               = Z.pos (digits2_pos (ax + ay)) + ez - 53).
  { pose proof (fexp_normal (Z.pos (digits2_pos (ax + ay))) ez). lia. }
  assert (Hexact : (inject_Z (Z.pos (ax + ay)) * 2 ^ ez == vx + vy)%Q).
  { rewrite <- Hvx, <- Hvy, Pos2Z.inj_add, inject_Z_plus, Hsx, Hsy, !inject_Z_mult.
    rewrite !pow2_inject by lia.
    setoid_replace (2 ^ ex)%Q with (2 ^ (ex - ez) * 2 ^ ez)%Q using relation Qeq
      by (rewrite <- pow2_add; now replace (ex - ez + ez) with ex by lia).
    setoid_replace (2 ^ ey)%Q with (2 ^ (ey - ez) * 2 ^ ez)%Q using relation Qeq
      by (rewrite <- pow2_add; now replace (ey - ez + ez) with ey by lia).
    ring. }
  assert (Hround : exists v, normal (binary_round_aux 53 1024 false (Z.pos (ax + ay)) ez
                                       loc_Exact) lo (hi + 2) v
                             /\ ((vx + vy) * (1 - eps) <= v <= (vx + vy) * (1 + eps))%Q).
  { destruct (round_aux_bound false (ax + ay) ez loc_Exact (vx + vy))
      as (m & e & Heq & Hdm & He & Hv); try lia.
    - rewrite Hexact. apply Qle_refl.
    - rewrite <- Hexact, inject_Z_plus.
      pose proof (pow2_pos ez). change (inject_Z 1) with 1%Q. lra.
    - rewrite Heq. exists (inject_Z (Z.pos m) * 2 ^ e)%Q. split; [| exact Hv].
      exists m, e. repeat split; try assumption; try lia; try reflexivity. }
  rewrite Hf. unfold shl_align.
  destruct (Z.pos (digits2_pos (ax + ay)) + ez - 53 - ez) as [|k|k] eqn:Hk; try lia;
    exact Hround.
Qed.

Lemma normal_weaken (x : spec_float) (lo hi lo2 hi2 : Z) (v : Q) :
  normal x lo hi v -> lo2 <= lo -> hi <= hi2 -> normal x lo2 hi2 v.
Proof.
  intros (m & e & Hx & Hd & He & Hv) Hlo Hhi. exists m, e. repeat split; try assumption; lia.
Qed.

Lemma normal_pos (x : spec_float) (lo hi : Z) (v : Q) : normal x lo hi v -> (0 < v)%Q.
Proof.
  intros (m & e & _ & _ & _ & Hv). rewrite <- Hv.
  apply Qmult_lt_0_compat; [| apply pow2_pos].
  change 0%Q with (inject_Z 0). rewrite <- Zlt_Qlt. lia.
Qed.

Lemma normal_value (x : spec_float) (lo hi : Z) (v : Q) :
  normal x lo hi v -> (SF_value x == v)%Q.
Proof. intros (m & e & -> & _ & _ & Hv). exact Hv. Qed.

Lemma nonneg_weaken (x : spec_float) (lo hi lo2 hi2 : Z) (v : Q) :
  nonneg x lo hi v -> lo2 <= lo -> hi <= hi2 -> nonneg x lo2 hi2 v.
Proof.
  intros [H | H] Hlo Hhi; [now left | right; now apply (normal_weaken x lo hi)].
Qed.

Lemma nonneg_value (x : spec_float) (lo hi : Z) (v : Q) :
  nonneg x lo hi v -> (SF_value x == v /\ 0 <= v)%Q.
Proof.
  intros [[-> Hv] | H].
  - rewrite Hv. split; [reflexivity | apply Qle_refl].
  - split; [now apply (normal_value x lo hi) |].
    apply Qlt_le_weak. now apply (normal_pos x lo hi).
Qed.

Lemma add_nonneg (x y : spec_float) (lo hi : Z) (vx vy : Q) :
  nonneg x lo hi vx -> nonneg y lo hi vy ->
  -1000 <= lo -> hi <= 900 ->
  exists v, nonneg (SFadd 53 1024 x y) lo (hi + 2) v
            /\ ((vx + vy) * (1 - eps) <= v <= (vx + vy) * (1 + eps))%Q.
Proof.
  intros [[-> Hx] | Hx] [[-> Hy] | Hy] Hlo Hhi.
  - exists 0%Q. split; [left; now split |]. rewrite Hx, Hy. unfold eps. lra.
  - exists vy. pose proof (normal_pos _ _ _ _ Hy) as Hpos. split.
    + right. destruct Hy as (m & e & -> & Hrest). cbn [SFadd].
      exists m, e. split; [reflexivity |]. destruct Hrest as (Hd & He & Hv).
      repeat split; try assumption; lia.
    + rewrite Hx. unfold eps. lra.
  - exists vx. pose proof (normal_pos _ _ _ _ Hx) as Hpos. split.
    + right. destruct Hx as (m & e & -> & Hrest). cbn [SFadd].
      exists m, e. split; [reflexivity |]. destruct Hrest as (Hd & He & Hv).
      repeat split; try assumption; lia.
    + rewrite Hy. unfold eps. lra.
  - destruct (add_normal x y lo hi vx vy Hx Hy Hlo Hhi) as (v & Hn & Hv).
    exists v. split; [now right | exact Hv].
Qed.

End Binary64Facts.


(** ** Facts about the string primitives *)

Module PyStrFacts.
Import PyStr.

Lemma append_nil_r (s : string) : s +:+ "" = s.
Proof. induction s as [|c s IH]; simpl; [reflexivity | now rewrite IH]. Qed.

Lemma append_assoc (a b c : string) : (a +:+ b) +:+ c = a +:+ (b +:+ c).
Proof. induction a as [|x a IH]; simpl; [reflexivity | now rewrite IH]. Qed.

Lemma length_append (a b : string) :
  String.length (a +:+ b) = (String.length a + String.length b)%nat.
Proof. induction a as [|x a IH]; simpl; [reflexivity | now rewrite IH]. Qed.

Lemma starts_with_spec (p s : string) :
  starts_with p s = true <-> exists b, s = p +:+ b.
Proof.
  revert s; induction p as [|a p IH]; intros s; simpl.
  - split; [intros _; now exists s | reflexivity].
  - destruct s as [|b s].
    + split; [discriminate | intros [t Ht]; discriminate].
    + destruct (Ascii.eqb_spec a b) as [->|Hne].
      * rewrite IH. split; intros [t Ht]; exists t; [now rewrite Ht | now injection Ht].
      * split; [discriminate | intros [t Ht]; injection Ht; intros; congruence].
Qed.

Lemma contains_spec (p s : string) :
  contains p s = true <-> substring p s.
Proof.
  induction s as [|c s IH].
  - simpl. rewrite orb_false_r, starts_with_spec. split.
    + intros [b Hb]. exists "", b. exact Hb.
    + intros [a [b Hab]]. destruct a; simpl in Hab; [now exists b | discriminate].
  - simpl. rewrite orb_true_iff, starts_with_spec, IH. split.
    + intros [[b Hb] | [a [b Hab]]].
      * exists "", b. exact Hb.
      * exists (String c a), b. simpl. now rewrite Hab.
    + intros [a [b Hab]]. destruct a as [|x a]; simpl in Hab.
      * left. now exists b.
      * right. exists a, b. now injection Hab.
Qed.

Lemma contains_false (p s : string) :
  contains p s = false <-> ~ substring p s.
Proof.
  rewrite <- contains_spec. destruct (contains p s); split; congruence.
Qed.

End PyStrFacts.

(** ** Facts about the classifier and the organizer *)

Module OrganizeFilesFacts.
Import PyStr PyStrFacts Cli OrganizeFiles.

(** *** Facts about the classifier *)

Lemma any_pattern_in_spec (filename category : string) (patterns : list string) :
  any_pattern_in patterns (lower filename) = true
  <-> category_matches filename (category, patterns).
Proof.
  unfold any_pattern_in, category_matches, substring_nocase; simpl.
  rewrite existsb_exists. split.
  - intros [p [Hin Hc]]. exists p. split; [exact Hin | now apply contains_spec].
  - intros [p [Hin Hc]]. exists p. split; [exact Hin | now apply contains_spec].
Qed.

Lemma first_category_first_declared (table : pattern_table) (filename : string) :
  first_declared table filename (first_category table (lower filename)).
Proof.
  induction table as [|[category patterns] rest IH]; simpl.
  - constructor.
  - destruct (any_pattern_in patterns (lower filename)) eqn:Hany.
    + exists [], patterns, rest. split; [reflexivity | split; [| constructor]].
      now apply any_pattern_in_spec.
    + assert (Hno : ~ category_matches filename (category, patterns)).
      { intros Hm. apply (any_pattern_in_spec filename category) in Hm. congruence. }
      destruct (first_category rest (lower filename)) as [c|]; simpl in *.
      * destruct IH as [before [ps [after [Heq [Hm Hbefore]]]]].
        exists ((category, patterns) :: before), ps, after.
        split; [now rewrite Heq | split; [exact Hm | now constructor]].
      * now constructor.
Qed.

Lemma first_category_head (category : string) (patterns : list string)
    (rest : pattern_table) (pattern filename : string) :
  In pattern patterns ->
  substring_nocase pattern filename ->
  first_category ((category, patterns) :: rest) (lower filename) = Some category.
Proof.
  intros Hin Hsub. simpl.
  assert (H : any_pattern_in patterns (lower filename) = true).
  { apply (any_pattern_in_spec filename category). now exists pattern. }
  now rewrite H.
Qed.

Lemma first_category_in_table (table : pattern_table) (s category : string) :
  first_category table s = Some category -> In category (map fst table).
Proof.
  induction table as [|[c ps] rest IH]; simpl; [discriminate |].
  destruct (any_pattern_in ps s).
  - intros [= ->]. now left.
  - intros H. right. now apply IH.
Qed.

Lemma category_truthy (table : pattern_table) (s category : string) :
  Forall (fun c => c <> EmptyString) (map fst table) ->
  first_category table s = Some category -> truthy (Some category) = true.
Proof.
  intros Hall H. apply first_category_in_table in H.
  rewrite List.Forall_forall in Hall. specialize (Hall _ H).
  destruct category; [congruence | reflexivity].
Qed.

Lemma shot_names_nonempty : Forall (fun c => c <> EmptyString) (map fst shot_patterns).
Proof. repeat constructor; discriminate. Qed.

Lemma model_names_nonempty : Forall (fun c => c <> EmptyString) (map fst model_patterns).
Proof. repeat constructor; discriminate. Qed.

(** *** Facts about the six-digit search *)

Lemma take_digits_spec (n : nat) (s d : string) :
  take_digits n s = Some d
  <-> exists b, s = d +:+ b /\ String.length d = n /\ all_digits d = true.
Proof.
  revert s d; induction n as [|n IH]; intros s d; simpl.
  - split.
    + intros [= <-]. exists s. repeat split.
    + intros [b [_ [Hlen _]]]. destruct d; [reflexivity | discriminate].
  - destruct s as [|c s].
    + split; [discriminate |].
      intros [b [Hs [Hlen _]]]. destruct d; discriminate.
    + destruct (is_digit c) eqn:Hc.
      * split.
        -- destruct (take_digits n s) as [d0|] eqn:Hd; [| discriminate].
           intros [= <-]. apply IH in Hd. destruct Hd as [b [-> [Hlen Hall]]].
           exists b. simpl. rewrite Hc, Hall, Hlen. repeat split.
        -- intros [b [Hs [Hlen Hall]]]. destruct d as [|x d]; [discriminate |].
           simpl in Hs, Hlen, Hall. injection Hs as -> ->.
           apply andb_true_iff in Hall. destruct Hall as [_ Hall].
           assert (Hd : take_digits n (d +:+ b) = Some d).
           { apply IH. exists b. repeat split; [lia | exact Hall]. }
           now rewrite Hd.
      * split; [discriminate |].
        intros [b [Hs [Hlen Hall]]]. destruct d as [|x d]; [discriminate |].
        simpl in Hs, Hall. injection Hs as -> ->. rewrite Hc in Hall. discriminate.
Qed.

Lemma get_six_digit_number_leftmost (filename d : string) :
  get_six_digit_number filename = Some d -> leftmost_six_digits filename d.
Proof.
  revert d; induction filename as [|c rest IH]; intros d.
  - simpl. discriminate.
  - cbn [get_six_digit_number].
    destruct (take_digits 6 (String c rest)) as [d0|] eqn:Htake.
    + intros [= <-]. apply take_digits_spec in Htake.
      destruct Htake as [b [Hs [Hlen Hall]]].
      exists EmptyString, b. repeat split; try assumption. simpl. lia.
    + intros Hrest. destruct (IH _ Hrest) as [a [b [Hs [Hlen [Hall Hmin]]]]].
      exists (String c a), b. repeat split; try assumption.
      * simpl. now rewrite Hs.
      * intros a' d' b' Hs' Hlen' Hall'. destruct a' as [|x a'].
        -- simpl in Hs'.
           assert (Hsome : take_digits 6 (String c rest) = Some d').
           { apply take_digits_spec. exists b'. repeat split; assumption. }
           congruence.
        -- simpl in Hs'. injection Hs' as -> Hr. simpl.
           specialize (Hmin a' d' b' Hr Hlen' Hall'). lia.
Qed.

Lemma get_six_digit_number_none (filename : string) :
  get_six_digit_number filename = None -> ~ has_six_digits filename.
Proof.
  induction filename as [|c rest IH]; cbn [get_six_digit_number].
  - intros _ [a [d [b [Hs [Hlen _]]]]].
    destruct a; [destruct d; discriminate | discriminate].
  - destruct (take_digits 6 (String c rest)) as [d0|] eqn:Htake; [discriminate |].
    intros Hrest [a [d [b [Hs [Hlen Hall]]]]]. destruct a as [|x a].
    + simpl in Hs.
      assert (Hsome : take_digits 6 (String c rest) = Some d).
      { apply take_digits_spec. exists b. repeat split; assumption. }
      congruence.
    + simpl in Hs. injection Hs as -> Hr.
      apply (IH Hrest). exists a, d, b. repeat split; assumption.
Qed.

Lemma six_digits_truthy (filename d : string) :
  get_six_digit_number filename = Some d -> truthy (Some d) = true.
Proof.
  intros H. apply get_six_digit_number_leftmost in H.
  destruct H as [_ [_ [_ [Hlen _]]]]. destruct d; [discriminate | reflexivity].
Qed.

(** *** Facts about the organizer's loop *)

Lemma organize_step_lacking (output_dir : string) (dry_run : bool)
    (copy_ok : file -> string -> bool) (st : state) (f : file) :
  fst (determine_categories (file_name f)) = None
  \/ snd (determine_categories (file_name f)) = None
  \/ get_six_digit_number (file_name f) = None ->
  organize_step output_dir dry_run copy_ok st f
  = mark_unclassified (WarnCouldNotClassify (file_name f)) f (count_file st).
Proof.
  intros H. unfold organize_step.
  destruct (determine_categories (file_name f)) as [shot_cat model_cat]; simpl in H.
  assert (Hfalse : truthy shot_cat && truthy model_cat
                   && truthy (get_six_digit_number (file_name f)) = false).
  { destruct H as [-> | [-> | ->]]; simpl;
      rewrite ?andb_false_r; reflexivity. }
  now rewrite Hfalse.
Qed.

Lemma organize_step_classified (output_dir : string) (dry_run : bool)
    (copy_ok : file -> string -> bool) (st : state) (f : file)
    (shot model six : string) :
  determine_categories (file_name f) = (Some shot, Some model) ->
  get_six_digit_number (file_name f) = Some six ->
  organize_step output_dir dry_run copy_ok st f
  = if dry_run then
      mark_moved (InfoWouldMove (file_name f) shot model (six +:+ ".txt")) shot model []
        (count_file st)
    else if copy_ok f (target_of output_dir shot model six) then
      mark_moved (InfoMoved (file_name f) shot model (six +:+ ".txt")) shot model
        [(file_path f, target_of output_dir shot model six)] (count_file st)
    else mark_unclassified (ErrorProcessing (file_name f)) f (count_file st).
Proof.
  intros Hcat Hsix. unfold organize_step. rewrite Hcat, Hsix.
  unfold determine_categories in Hcat. injection Hcat as Hshot Hmodel.
  rewrite (category_truthy _ _ _ shot_names_nonempty Hshot).
  rewrite (category_truthy _ _ _ model_names_nonempty Hmodel).
  rewrite (six_digits_truthy _ _ Hsix). reflexivity.
Qed.

Lemma successful_moves_step_mono (output_dir : string) (dry_run : bool)
    (copy_ok : file -> string -> bool) (st : state) (f : file) :
  (successful_moves st
   <= successful_moves (organize_step output_dir dry_run copy_ok st f))%nat.
Proof.
  unfold organize_step.
  destruct (determine_categories (file_name f)) as [[shot|] [model|]];
    destruct (get_six_digit_number (file_name f)) as [six|];
    repeat match goal with |- context [if ?b then _ else _] => destruct b end;
    simpl; lia.
Qed.

End OrganizeFilesFacts.

(** ** Facts about the document processor *)

Module SummaryExtractorFacts.
Import PyStr Cli SummaryExtractor.

Lemma process_documents_returns_true (patterns : list string)
    (extract : doc -> string -> option (string * string))
    (save : doc -> string -> bool) (globbed : list doc) :
  find_docx_files globbed <> [] ->
  fst (process_documents patterns extract save globbed) = Returned true.
Proof.
  intros H. unfold process_documents.
  destruct (find_docx_files globbed); [congruence | reflexivity].
Qed.

End SummaryExtractorFacts.

(** ** Facts about the pair matcher *)

Module SummaryEvaluationFacts.
Import PyStr PyStrFacts SummaryEvaluation.

(** *** Facts about the scan of the reference directory *)

Lemma scan_step_lookup (reference_dir : string)
    (st : gmap string string * list message) (ref_file identifier : string) :
  fst (scan_step reference_dir st ref_file) !! identifier
  = if bool_decide (reference_search ref_file = Some identifier)
    then Some (path_join reference_dir ref_file)
    else fst st !! identifier.
Proof.
  destruct st as [m printed]. unfold scan_step.
  destruct (reference_search ref_file) as [i|] eqn:Hsearch; cbn [fst].
  - destruct (decide (i = identifier)) as [->|Hne].
    + rewrite bool_decide_eq_true_2 by reflexivity. apply lookup_insert_eq.
    + rewrite bool_decide_eq_false_2 by congruence. now apply lookup_insert_ne.
  - rewrite bool_decide_eq_false_2 by discriminate. reflexivity.
Qed.

Lemma scan_fold_lookup (reference_dir : string) (listing : list string)
    (st : gmap string string * list message) (identifier : string) :
  fst (fold_left (scan_step reference_dir) listing st) !! identifier
  = match last_reference listing identifier with
    | Some f => Some (path_join reference_dir f)
    | None => fst st !! identifier
    end.
Proof.
  revert st; induction listing as [|f rest IH]; intros st; [reflexivity |].
  cbn [fold_left]. rewrite IH. unfold last_reference. cbn [List.filter].
  pose proof (scan_step_lookup reference_dir st f identifier) as Hstep.
  case_bool_decide as Hf.
  - rewrite last_cons.
    destruct (last (List.filter _ rest)); [reflexivity | exact Hstep].
  - destruct (last (List.filter _ rest)); [reflexivity | exact Hstep].
Qed.

Lemma scan_step_printed_mono (reference_dir : string)
    (st : gmap string string * list message) (ref_file : string) (m : message) :
  In m (snd st) -> In m (snd (scan_step reference_dir st ref_file)).
Proof.
  destruct st as [mp printed]. unfold scan_step. simpl. intros Hin.
  destruct (reference_search ref_file); simpl.
  - destruct (mp !! s); [apply in_or_app; now left | exact Hin].
  - apply in_or_app; now left.
Qed.

Lemma scan_fold_printed_mono (reference_dir : string) (listing : list string)
    (st : gmap string string * list message) (m : message) :
  In m (snd st) -> In m (snd (fold_left (scan_step reference_dir) listing st)).
Proof.
  revert st; induction listing as [|f rest IH]; intros st Hin; [exact Hin |].
  cbn [fold_left]. apply IH. now apply scan_step_printed_mono.
Qed.

Lemma scan_step_warns (reference_dir : string)
    (st : gmap string string * list message) (ref_file identifier : string) :
  reference_search ref_file = Some identifier ->
  is_Some (fst st !! identifier) ->
  In (WarnDuplicateReference identifier ref_file)
     (snd (scan_step reference_dir st ref_file)).
Proof.
  destruct st as [mp printed]. unfold scan_step. simpl.
  intros -> [p ->]. simpl. apply in_or_app. right. now left.
Qed.

Lemma last_reference_app_hit (before after : list string) (f identifier : string) :
  reference_search f = Some identifier ->
  Forall (fun g => reference_search g <> Some identifier) after ->
  last_reference (before ++ f :: after) identifier = Some f.
Proof.
  intros Hf Hafter. unfold last_reference.
  rewrite List.filter_app. cbn [List.filter].
  rewrite bool_decide_eq_true_2 by exact Hf.
  assert (Hnil : List.filter
                   (fun g => bool_decide (reference_search g = Some identifier)) after = []).
  { induction Hafter as [|g rest Hg _ IH]; [reflexivity |].
    cbn [List.filter]. now rewrite bool_decide_eq_false_2. }
  rewrite Hnil. now rewrite last_snoc.
Qed.

(** *** Facts about the walk over the generated summaries *)

Lemma append_nonempty_r (a b : string) : b <> EmptyString -> a +:+ b <> EmptyString.
Proof. destruct a; simpl; [tauto | discriminate]. Qed.

Lemma path_join_nonempty (a b : string) :
  b <> EmptyString -> path_join a b <> EmptyString.
Proof.
  intros Hb. unfold path_join.
  destruct (starts_with "/" b); [exact Hb |].
  destruct (String.eqb a "" || ends_with "/" a).
  - now apply append_nonempty_r.
  - apply append_nonempty_r. simpl. discriminate.
Qed.

Lemma reference_search_nonempty (f identifier : string) :
  reference_search f = Some identifier -> f <> EmptyString.
Proof. intros H ->. discriminate. Qed.

Lemma truthy_nonempty (s : string) : s <> EmptyString -> truthy (Some s) = true.
Proof. destruct s; [congruence | reflexivity]. Qed.

Lemma file_step_unmatched (generated_base_dir : string)
    (path_exists : string -> bool) (read_text : string -> option string)
    (reference_mapping : gmap string string) (d : walk_dir)
    (st : list summary_pair * list message) (file identifier : string) :
  generated_match file = Some identifier ->
  reference_mapping !! identifier = None ->
  let st' := file_step generated_base_dir path_exists read_text reference_mapping d st file in
  fst st' = fst st
  /\ List.filter is_not_found (snd st')
     = List.filter is_not_found (snd st)
       ++ [WarnReferenceNotFound identifier (path_join (root_of generated_base_dir d) file)].
Proof.
  intros Hmatch Hnone. destruct st as [pairs printed]. unfold file_step.
  rewrite Hmatch, Hnone.
  destruct (rel_dirs d ++ [file]) as [|a [|b [|c l]]]; simpl;
    rewrite ?List.filter_app; simpl; rewrite ?app_nil_r; split; reflexivity.
Qed.

Lemma file_step_matched (generated_base_dir : string)
    (path_exists : string -> bool) (read_text : string -> option string)
    (reference_mapping : gmap string string) (d : walk_dir)
    (st : list summary_pair * list message) (file identifier ref tg tr : string) :
  generated_match file = Some identifier ->
  reference_mapping !! identifier = Some ref ->
  ref <> EmptyString ->
  path_exists ref = true ->
  read_text (path_join (root_of generated_base_dir d) file) = Some tg ->
  read_text ref = Some tr ->
  strip tg <> EmptyString ->
  strip tr <> EmptyString ->
  let st' := file_step generated_base_dir path_exists read_text reference_mapping d st file in
  (exists mode model,
      fst st' = fst st ++ [ {| Generated_Summary := strip tg; Reference_Summary := strip tr;
                               Learning_Mode := mode; Model := model |} ])
  /\ List.filter is_not_found (snd st') = List.filter is_not_found (snd st).
Proof.
  intros Hmatch Href Hne Hex Hrg Hrr Hsg Hsr. destruct st as [pairs printed].
  apply String.eqb_neq in Hsg. apply String.eqb_neq in Hsr.
  unfold file_step. rewrite Hmatch, Href, Hrg, Hrr, (truthy_nonempty _ Hne), Hex, Hsg, Hsr.
  destruct (rel_dirs d ++ [file]) as [|a [|b [|c l]]]; simpl;
    rewrite ?List.filter_app; simpl; rewrite ?app_nil_r;
    (split; [do 2 eexists; reflexivity | reflexivity]).
Qed.

Lemma file_step_nonempty (generated_base_dir : string)
    (path_exists : string -> bool) (read_text : string -> option string)
    (reference_mapping : gmap string string) (d : walk_dir)
    (st : list summary_pair * list message) (file : string) :
  Forall (fun p => Generated_Summary p <> EmptyString /\ Reference_Summary p <> EmptyString)
    (fst st) ->
  Forall (fun p => Generated_Summary p <> EmptyString /\ Reference_Summary p <> EmptyString)
    (fst (file_step generated_base_dir path_exists read_text reference_mapping d st file)).
Proof.
  destruct st as [pairs printed]. simpl. intros Hall. unfold file_step.
  destruct (generated_match file) as [identifier|]; [| exact Hall].
  destruct (match rel_dirs d ++ [file] with
            | mode :: model :: _ :: _ => (mode, model, printed)
            | _ => ("Unknown", "Unknown",
                    printed ++ [WarnUnexpectedStructure
                                  (path_join (root_of generated_base_dir d) file)])
            end) as [[mode model] printed'].
  destruct (reference_mapping !! identifier) as [ref|]; [| exact Hall].
  destruct (truthy (Some ref) && path_exists ref); [| exact Hall].
  destruct (read_text _) as [tg|]; [| exact Hall].
  destruct (read_text ref) as [tr|]; [| exact Hall].
  destruct (String.eqb_spec (strip tg) "") as [|Hg]; [exact Hall |].
  destruct (String.eqb_spec (strip tr) "") as [|Hr]; [exact Hall |].
  simpl. apply Forall_app. split; [exact Hall |].
  constructor; [split; assumption | constructor].
Qed.

Lemma read_summaries_nonempty (reference_dir generated_base_dir : string)
    (path_exists : string -> bool) (read_text : string -> option string)
    (listing : list string) (walk : list walk_dir) :
  Forall (fun p => Generated_Summary p <> EmptyString /\ Reference_Summary p <> EmptyString)
    (fst (read_summaries reference_dir generated_base_dir path_exists read_text listing walk)).
Proof.
  unfold read_summaries.
  destruct (scan_references reference_dir listing) as [mp printed].
  assert (Hinit : Forall (fun p => Generated_Summary p <> EmptyString
                                   /\ Reference_Summary p <> EmptyString)
                    (fst (@nil summary_pair, printed))) by constructor.
  revert Hinit. generalize (@nil summary_pair, printed).
  induction walk as [|d rest IH]; intros st Hst; [exact Hst |].
  cbn [fold_left]. apply IH. unfold dir_step.
  revert st Hst. induction (dir_files d) as [|f files IHf]; intros st Hst; [exact Hst |].
  cbn [fold_left]. apply IHf. now apply file_step_nonempty.
Qed.

End SummaryEvaluationFacts.

(** ** Facts about the ranking *)

Module AutomaticMetricFacts.
Import AutomaticMetric.

(** *** The sort is a stable permutation *)

Lemma insert_desc_perm (x : nat * Q) (l : list (nat * Q)) :
  Permutation (insert_desc x l) (x :: l).
Proof.
  induction l as [|y rest IH]; simpl; [reflexivity |].
  destruct (Qle_bool (snd y) (snd x)); [reflexivity |].
  rewrite IH. apply perm_swap.
Qed.

Lemma sorted_desc_perm (l : list (nat * Q)) : Permutation (sorted_desc l) l.
Proof.
  induction l as [|x l IH]; simpl; [reflexivity |].
  rewrite insert_desc_perm. now constructor.
Qed.

Lemma decorate_fst (results : list result) :
  map fst (decorate results) = seq 0 (length results).
Proof.
  unfold decorate. apply fst_zip. rewrite length_seq, length_map. lia.
Qed.

Lemma decorate_lookup (results : list result) (i j : nat) (s : Q) :
  decorate results !! i = Some (j, s) <-> j = i /\ sum <$> results !! i = Some s.
Proof.
  unfold decorate. rewrite lookup_zip_with_Some. split.
  - intros [a [b [Heq [Ha Hb]]]]. injection Heq as -> ->.
    apply lookup_seq in Ha. destruct Ha as [Ha _]. simpl in Ha.
    split; [now subst |]. now rewrite <- list_lookup_fmap.
  - intros [-> Hs]. exists i, s. split; [reflexivity |]. split.
    + apply lookup_seq. split; [reflexivity |].
      destruct (results !! i) eqn:Hr; [| discriminate].
      now apply lookup_lt_Some in Hr.
    + now rewrite list_lookup_fmap.
Qed.

Lemma rank_order_perm (results : list result) :
  Permutation (rank_order results) (seq 0 (length results)).
Proof.
  unfold rank_order. rewrite sorted_desc_perm. now rewrite decorate_fst.
Qed.

Lemma rank_order_NoDup (results : list result) : NoDup (rank_order results).
Proof. rewrite rank_order_perm. apply NoDup_seq. Qed.

Lemma rank_order_length (results : list result) :
  length (rank_order results) = length results.
Proof. rewrite rank_order_perm. apply length_seq. Qed.

(** *** The assignment loop *)

Lemma assign_ranks_length (order : list nat) (idx : nat) (store : list result) :
  length (assign_ranks idx order store) = length store.
Proof.
  revert idx store; induction order as [|ref rest IH]; intros idx store; simpl;
    [reflexivity |].
  now rewrite IH, length_alter.
Qed.

Lemma assign_ranks_untouched (order : list nat) (idx : nat) (store : list result) (i : nat) :
  i ∉ order -> assign_ranks idx order store !! i = store !! i.
Proof.
  revert idx store; induction order as [|ref rest IH]; intros idx store Hnot; simpl;
    [reflexivity |].
  apply not_elem_of_cons in Hnot. destruct Hnot as [Hne Hnot].
  rewrite IH by exact Hnot. now apply list_lookup_alter_ne.
Qed.

Lemma assign_ranks_lookup (order : list nat) (idx : nat) (store : list result) (p i : nat) :
  NoDup order ->
  order !! p = Some i ->
  assign_ranks idx order store !! i = set_rank (idx + p) <$> store !! i.
Proof.
  revert idx store p; induction order as [|ref rest IH]; intros idx store p Hnd Hp;
    [discriminate |].
  apply NoDup_cons in Hnd. destruct Hnd as [Hnot Hnd]. destruct p as [|p]; simpl in *.
  - injection Hp as ->. rewrite assign_ranks_untouched by exact Hnot.
    rewrite list_lookup_alter_eq. now rewrite Nat.add_0_r.
  - rewrite (IH _ _ p Hnd Hp).
    assert (Hne : ref <> i).
    { intros ->. apply Hnot. eapply list_elem_of_lookup_2. exact Hp. }
    rewrite list_lookup_alter_ne by exact Hne.
    now replace (S idx + p)%nat with (idx + S p)%nat by lia.
Qed.

(** *** The sorted order *)

Lemma placed_beforeb_spec (x y : nat * Q) :
  placed_beforeb x y = true <-> placed_before x y.
Proof.
  unfold placed_beforeb, placed_before.
  rewrite orb_true_iff, andb_true_iff, negb_true_iff, Qeq_bool_iff, Nat.ltb_lt.
  split.
  - intros [Hle | H]; [left | now right].
    apply Qnot_le_lt. intros Hc. apply Qle_bool_iff in Hc. congruence.
  - intros [Hlt | H]; [left | now right].
    destruct (Qle_bool (snd x) (snd y)) eqn:Hle; [| reflexivity].
    apply Qle_bool_iff in Hle. lra.
Qed.

Lemma placed_beforeb_false (x y : nat * Q) :
  ~ placed_before x y -> placed_beforeb x y = false.
Proof.
  intros H. destruct (placed_beforeb x y) eqn:Hb; [| reflexivity].
  apply placed_beforeb_spec in Hb. contradiction.
Qed.

Lemma placed_before_irrefl (x : nat * Q) : ~ placed_before x x.
Proof. intros [H | [_ H]]; [lra | lia]. Qed.

Lemma placed_before_asym (x y : nat * Q) :
  placed_before x y -> ~ placed_before y x.
Proof. intros [H | [H1 H2]] [H' | [H1' H2']]; try lra; lia. Qed.

Lemma insert_desc_sorted (x : nat * Q) (l : list (nat * Q)) :
  StronglySorted placed_before l ->
  List.Forall (fun z => (fst x < fst z)%nat) l ->
  StronglySorted placed_before (insert_desc x l).
Proof.
  induction l as [|y rest IH]; intros Hs Hidx; simpl.
  - constructor; constructor.
  - apply StronglySorted_inv in Hs. destruct Hs as [Hrest Hy].
    apply List.Forall_cons_iff in Hidx. destruct Hidx as [Hxy Hidx].
    destruct (Qle_bool (snd y) (snd x)) eqn:Hle.
    + apply Qle_bool_iff in Hle. constructor; [now constructor |].
      constructor.
      * unfold placed_before. destruct (Qlt_le_dec (snd y) (snd x)); [now left |].
        right. split; [lra | exact Hxy].
      * rewrite List.Forall_forall in *. intros z Hz.
        specialize (Hy z Hz). specialize (Hidx z Hz). unfold placed_before in *.
        destruct (Qlt_le_dec (snd z) (snd x)); [now left |].
        right. split; [| exact Hidx]. destruct Hy as [Hy | [Hy _]]; lra.
    + assert (Hlt : (snd x < snd y)%Q).
      { apply Qnot_le_lt. intros Hc. apply Qle_bool_iff in Hc. congruence. }
      constructor; [now apply IH |].
      rewrite List.Forall_forall in *. intros z Hz.
      apply (Permutation_in _ (insert_desc_perm x rest)) in Hz.
      destruct Hz as [<- | Hz]; [now left | now apply Hy].
Qed.

Lemma sorted_desc_zip_sorted (keys : list Q) (start : nat) :
  StronglySorted placed_before (sorted_desc (zip (seq start (length keys)) keys))
  /\ List.Forall (fun z => (start <= fst z)%nat)
       (sorted_desc (zip (seq start (length keys)) keys)).
Proof.
  revert start; induction keys as [|k keys IH]; intros start; simpl.
  - split; constructor.
  - destruct (IH (S start)) as [Hs Hidx]. split.
    + apply insert_desc_sorted; [exact Hs |].
      rewrite List.Forall_forall in *. intros z Hz. specialize (Hidx z Hz).
      simpl. lia.
    + rewrite List.Forall_forall in *. intros z Hz.
      apply (Permutation_in _ (insert_desc_perm _ _)) in Hz.
      destruct Hz as [<- | Hz]; [simpl; lia |].
      specialize (Hidx z Hz). lia.
Qed.

Lemma sorted_desc_decorate_sorted (results : list result) :
  StronglySorted placed_before (sorted_desc (decorate results)).
Proof.
  unfold decorate. rewrite <- (length_map sum results).
  apply sorted_desc_zip_sorted.
Qed.

Lemma sorted_lookup_lt (l : list (nat * Q)) (p q : nat) (x y : nat * Q) :
  StronglySorted placed_before l ->
  l !! p = Some x -> l !! q = Some y -> (p < q)%nat -> placed_before x y.
Proof.
  intros Hs. revert p q. induction Hs as [|z l Hs IH Hz]; intros p q Hp Hq Hlt;
    [discriminate |].
  destruct q as [|q]; [lia |]. simpl in Hq. destruct p as [|p]; simpl in Hp.
  - injection Hp as ->. rewrite List.Forall_forall in Hz. apply Hz.
    apply list_elem_of_In. eapply list_elem_of_lookup_2. exact Hq.
  - apply (IH p q Hp Hq). lia.
Qed.

Lemma filter_all_false {A : Type} (f : A -> bool) (l : list A) :
  List.Forall (fun z => f z = false) l -> List.filter f l = [].
Proof.
  induction 1 as [|z l Hz _ IH]; simpl; [reflexivity |]. now rewrite Hz.
Qed.

Lemma sorted_position (l : list (nat * Q)) (p : nat) (x : nat * Q) :
  StronglySorted placed_before l ->
  l !! p = Some x ->
  length (List.filter (fun y => placed_beforeb y x) l) = p.
Proof.
  intros Hs. revert p. induction Hs as [|z l Hs IH Hz]; intros p Hp; [discriminate |].
  destruct p as [|p]; simpl in Hp.
  - injection Hp as ->. simpl.
    rewrite (placed_beforeb_false _ _ (placed_before_irrefl x)).
    rewrite filter_all_false; [reflexivity |].
    rewrite List.Forall_forall in *. intros y Hy.
    apply placed_beforeb_false, placed_before_asym. now apply Hz.
  - simpl.
    assert (Hzx : placed_beforeb z x = true).
    { apply placed_beforeb_spec. rewrite List.Forall_forall in Hz. apply Hz.
      apply list_elem_of_In. eapply list_elem_of_lookup_2. exact Hp. }
    rewrite Hzx. simpl. f_equal. now apply IH.
Qed.

Lemma filter_length_perm {A : Type} (f : A -> bool) (l k : list A) :
  Permutation l k -> length (List.filter f l) = length (List.filter f k).
Proof.
  induction 1 as [| x l k _ IH | x y l | l k m _ IH1 _ IH2]; simpl.
  - reflexivity.
  - destruct (f x); simpl; now rewrite IH.
  - destruct (f x), (f y); reflexivity.
  - now rewrite IH1.
Qed.

(** *** The rank of every record *)

Lemma sorted_position_of (results : list result) (i : nat) (r : result) :
  results !! i = Some r ->
  exists p, sorted_desc (decorate results) !! p = Some (i, sum r)
            /\ rank_order results !! p = Some i.
Proof.
  intros Hr.
  assert (Hin : i ∈ rank_order results).
  { rewrite rank_order_perm. apply elem_of_seq. apply lookup_lt_Some in Hr. lia. }
  apply list_elem_of_lookup_1 in Hin. destruct Hin as [p Hp].
  exists p. split; [| exact Hp].
  unfold rank_order in Hp. rewrite list_lookup_fmap in Hp.
  destruct (sorted_desc (decorate results) !! p) as [[j k]|] eqn:Hsl; [| discriminate].
  simpl in Hp. injection Hp as ->.
  assert (Hdec : (i, k) ∈ decorate results).
  { rewrite <- (sorted_desc_perm (decorate results)).
    eapply list_elem_of_lookup_2. exact Hsl. }
  apply list_elem_of_lookup_1 in Hdec. destruct Hdec as [i' Hi'].
  apply decorate_lookup in Hi'. destruct Hi' as [-> Hsum].
  rewrite Hr in Hsum. simpl in Hsum. now injection Hsum as <-.
Qed.

Lemma rank_results_lookup (results : list result) (i : nat) (r : result) :
  results !! i = Some r ->
  rank_results results !! i = Some (set_rank (expected_rank results i (sum r)) r).
Proof.
  intros Hr. destruct (sorted_position_of results i r Hr) as [p [Hsl Hp]].
  unfold rank_results.
  rewrite (assign_ranks_lookup _ _ _ p i (rank_order_NoDup results) Hp), Hr. simpl.
  unfold expected_rank.
  rewrite <- (filter_length_perm _ _ _ (sorted_desc_perm (decorate results))).
  now rewrite (sorted_position _ p _ (sorted_desc_decorate_sorted results) Hsl).
Qed.

Lemma rank_results_length (results : list result) :
  length (rank_results results) = length results.
Proof. apply assign_ranks_length. Qed.

Lemma rank_results_sums (results : list result) :
  map sum (rank_results results) = map sum results.
Proof.
  apply list_eq. intros i. rewrite !list_lookup_fmap.
  destruct (results !! i) as [r|] eqn:Hr.
  - now rewrite (rank_results_lookup _ _ _ Hr).
  - apply lookup_ge_None in Hr.
    rewrite (proj2 (lookup_ge_None (rank_results results) i)); [reflexivity |].
    now rewrite rank_results_length.
Qed.

Lemma decorate_sums (results results' : list result) :
  map sum results = map sum results' -> decorate results = decorate results'.
Proof.
  intros H. unfold decorate. rewrite H.
  now rewrite <- (length_map sum results), H, length_map.
Qed.

End AutomaticMetricFacts.

(** ** Facts about the hallucination report *)

Module CountHallucinationFacts.
Import PyStr CountHallucination.

(** *** Facts about the totals *)

Lemma sum_list_with_add {A : Type} (f g : A -> nat) (l : list A) :
  sum_list_with (fun x => (f x + g x)%nat) l
  = (sum_list_with f l + sum_list_with g l)%nat.
Proof. induction l as [|x l IH]; simpl; [reflexivity | rewrite IH; lia]. Qed.

Lemma sum_list_map {A : Type} (f : A -> nat) (l : list A) :
  sum_list (map f l) = sum_list_with f l.
Proof. induction l as [|x l IH]; simpl; [reflexivity | now rewrite IH]. Qed.

Lemma column_sums_add_up (names : list string) (rows : list csv_row) :
  List.Forall
    (fun c => total_hallucinations c
              = sum_list_with (fun column => default 0%nat (cell (source c) column)) names)
    rows ->
  sum_list (map (column_sum rows) names) = sum_list_with total_hallucinations rows.
Proof.
  rewrite sum_list_map. induction 1 as [|c rows Hc _ IH]; simpl.
  - unfold column_sum. simpl. induction names; simpl; [reflexivity | assumption].
  - rewrite <- IH, Hc. unfold column_sum. simpl.
    now rewrite sum_list_with_add.
Qed.

Lemma with_totals_rows (rows : list row) (df : list csv_row) :
  with_totals rows = Some df ->
  List.Forall (fun c => total_hallucinations c = row_total (source c)) df.
Proof.
  unfold with_totals. destruct (forallb (has_column rows) type_names); [| discriminate].
  intros [= <-]. apply List.Forall_forall. intros c Hc.
  apply in_map_iff in Hc. destruct Hc as [r [<- _]]. reflexivity.
Qed.

Lemma insert_row_perm (x : csv_row) (l : list csv_row) :
  Permutation (insert_row x l) (x :: l).
Proof.
  induction l as [|y rest IH]; simpl; [reflexivity |].
  destruct (row_leb (source x) (source y)); [reflexivity |].
  rewrite IH. apply perm_swap.
Qed.

Lemma sort_values_perm (l : list csv_row) : Permutation (sort_values l) l.
Proof.
  induction l as [|x l IH]; simpl; [reflexivity |].
  rewrite insert_row_perm. now constructor.
Qed.

Lemma per_file_csv_rows (files : list text_file) (csv : list csv_row) :
  per_file_csv files = Some csv ->
  List.Forall (fun c => total_hallucinations c = row_total (source c)) csv.
Proof.
  unfold per_file_csv.
  destruct (with_totals (map result_of files)) as [df|] eqn:Hdf; [| discriminate].
  intros [= <-]. apply with_totals_rows in Hdf.
  rewrite List.Forall_forall in *. intros c Hc. apply Hdf.
  eapply Permutation_in; [apply sort_values_perm | exact Hc].
Qed.

Lemma group_rows_totals (df : list csv_row) (k : string * string) :
  List.Forall (fun c => total_hallucinations c = row_total (source c)) df ->
  List.Forall (fun c => total_hallucinations c = row_total (source c)) (group_rows df k).
Proof.
  rewrite !List.Forall_forall. intros H c Hc. apply H.
  unfold group_rows in Hc. now apply filter_In in Hc.
Qed.

(** *** Facts about the percentages *)

Lemma inject_nat_nonzero (n : nat) :
  n <> 0%nat -> ~ (inject_Z (Z.of_nat n) == 0)%Q.
Proof. intros Hn. unfold Qeq. simpl. lia. Qed.

Lemma exact_percentages_sum (sums : list nat) (total : nat) :
  total <> 0%nat ->
  (Qsum (map (fun s => exact_percentage s total) sums)
   == inject_Z (Z.of_nat (sum_list sums)) / inject_Z (Z.of_nat total) * 100)%Q.
Proof.
  intros Htotal. pose proof (inject_nat_nonzero _ Htotal) as Hnz.
  induction sums as [|s sums IH]; simpl.
  - field. exact Hnz.
  - rewrite IH. unfold exact_percentage.
    rewrite Nat2Z.inj_add, inject_Z_plus. field. exact Hnz.
Qed.

End CountHallucinationFacts.

(** ** Facts about the renamer *)

Module RenameFilesFacts.
Import Cli RenameFiles.

Lemma dict_set_entries (k v : string) (d : list (string * string)) (e : string * string) :
  In e (dict_set k v d) -> e = (k, v) \/ In e d.
Proof.
  induction d as [|[k' v'] rest IH]; simpl.
  - intros [<- | []]. now left.
  - destruct (String.eqb k k').
    + intros [<- | H]; [now left | right; now right].
    + intros [<- | H]; [right; now left |].
      destruct (IH H) as [-> | H']; [now left | right; now right].
Qed.

Lemma dict_set_has_value (k v : string) (d : list (string * string)) :
  In v (values (dict_set k v d)).
Proof.
  induction d as [|[k' v'] rest IH]; simpl; [now left |].
  destruct (String.eqb k k'); simpl; [now left | now right].
Qed.

Section FirstPass.

Variable output_dir : string.
Variable preserve_extension : bool.
Variable stem : string -> string.
Variable suffix : string -> string.
Variable name : string -> string.
Variable re_sub : string -> option string.
Variable joinpath : string -> string -> string.

Local Abbreviation generate_new_name :=
  (RenameFiles.generate_new_name preserve_extension stem suffix name re_sub).
Local Abbreviation new_path_of :=
  (RenameFiles.new_path_of output_dir preserve_extension stem suffix name re_sub joinpath).
Local Abbreviation first_pass :=
  (RenameFiles.first_pass output_dir preserve_extension stem suffix name re_sub joinpath).
Local Abbreviation consistent :=
  (RenameFiles.consistent output_dir preserve_extension stem suffix name re_sub joinpath).

Lemma dict_set_consistent (k v : string) (d : list (string * string)) :
  consistent d -> new_path_of k = Some v -> consistent (dict_set k v d).
Proof.
  intros Hd Hk k' v' Hin. apply dict_set_entries in Hin.
  destruct Hin as [[= -> ->] | Hin]; [exact Hk | now apply Hd].
Qed.

Lemma dict_set_keeps_values (k v p : string) (d : list (string * string)) :
  consistent d -> new_path_of k = Some v ->
  In p (values d) -> In p (values (dict_set k v d)).
Proof.
  intros Hd Hk. induction d as [|[k' v'] rest IH]; simpl; [intros [] |].
  assert (Hrest : consistent rest).
  { intros a b Hab. apply Hd. now right. }
  destruct (String.eqb_spec k k') as [<- | Hne]; simpl.
  - intros [<- | Hp]; [| now right].
    left. specialize (Hd k v' (or_introl eq_refl)). congruence.
  - intros [<- | Hp]; [now left | right; now apply IH].
Qed.

Lemma first_pass_value_taken (files : list string) (rename_map : list (string * string))
    (g p : string) :
  consistent rename_map ->
  In g files -> new_path_of g = Some p -> In p (values rename_map) ->
  exists entry, first_pass files rename_map = inl entry.
Proof.
  revert rename_map; induction files as [|h rest IH]; intros m Hm Hg Hp Hin; [destruct Hg |].
  simpl. destruct (generate_new_name h) as [new_name|] eqn:Hname; [| eauto].
  case_bool_decide as Hconflict; [eauto |].
  assert (Hh : new_path_of h = Some (joinpath output_dir new_name)).
  { unfold new_path_of. now rewrite Hname. }
  destruct Hg as [-> | Hg].
  - exfalso. apply Hconflict. apply list_elem_of_In. congruence.
  - apply IH; try assumption.
    + now apply dict_set_consistent.
    + now apply dict_set_keeps_values.
Qed.

Lemma first_pass_conflict (files : list string) (rename_map : list (string * string))
    (i j : nat) (f g p : string) :
  consistent rename_map ->
  (i < j)%nat -> files !! i = Some f -> files !! j = Some g ->
  new_path_of f = Some p -> new_path_of g = Some p ->
  exists entry, first_pass files rename_map = inl entry.
Proof.
  revert rename_map i j; induction files as [|h rest IH]; intros m i j Hm Hij Hi Hj Hf Hg;
    [discriminate |].
  destruct j as [|j]; [lia |]. simpl in Hj.
  simpl. destruct (generate_new_name h) as [new_name|] eqn:Hname; [| eauto].
  case_bool_decide as Hconflict; [eauto |].
  assert (Hh : new_path_of h = Some (joinpath output_dir new_name)).
  { unfold new_path_of. now rewrite Hname. }
  destruct i as [|i]; simpl in Hi.
  - injection Hi as ->.
    apply (first_pass_value_taken rest _ g p).
    + now apply dict_set_consistent.
    + apply list_elem_of_In. eapply list_elem_of_lookup_2. exact Hj.
    + exact Hg.
    + replace p with (joinpath output_dir new_name) by congruence.
      apply dict_set_has_value.
  - apply (IH _ i j); try assumption; [now apply dict_set_consistent | lia].
Qed.

End FirstPass.

End RenameFilesFacts.

(** ** Properties of the classifier and of the exit status *)

Section ClassifierClaims.
Import PyStr PyStrFacts Cli OrganizeFiles OrganizeFilesFacts.

(** C1.  For every filename, the shot category and the model category
    returned by [determine_categories] are each the first category of
    their table, in the order in which the table declares them, one of
    whose patterns occurs in the filename with letter case ignored ([None]
    when no category has such a pattern).  In particular a filename in
    which both "oneshot" and "zeroshot" occur is classified "oneshot". *)
Theorem classifier_first_declared_category_wins :
  (forall filename : string,
     first_declared shot_patterns filename (fst (determine_categories filename))
     /\ first_declared model_patterns filename (snd (determine_categories filename)))
  /\ (forall filename : string,
        substring_nocase "oneshot" filename ->
        substring_nocase "zeroshot" filename ->
        fst (determine_categories filename) = Some "oneshot").
Proof.
  split.
  - intros filename. unfold determine_categories; cbn [fst snd].
    split; apply first_category_first_declared.
  - intros filename Hone _. unfold determine_categories; cbn [fst].
    unfold shot_patterns.
    apply (first_category_head _ _ _ "oneshot"); [| exact Hone].
    right; left; reflexivity.
Qed.

Lemma classifier_first_declared_category_wins_witness :
  fst (determine_categories "201301_ZeroShot_vs_OneShot_llama.txt") = Some "oneshot".
Proof.
  apply (proj2 classifier_first_declared_category_wins
           "201301_ZeroShot_vs_OneShot_llama.txt");
    apply contains_spec; reflexivity.
Defined.

(** C2, as the specification words it, fails: in
    "1234567_llama_oneshot.txt" no maximal run of digits has length six, so
    the specification's document id is absent, yet the search returns
    "123456" and the organizer moves the file instead of setting it aside. *)
Lemma document_id_is_not_a_maximal_run :
  let name := "1234567_llama_oneshot.txt" in
  let st :=
    organize_step "out" true (fun _ _ => true) init_state
      {| file_path := name; file_name := name |} in
  spec_document_id name = None
  /\ get_six_digit_number name = Some "123456"
  /\ successful_moves st = 1%nat
  /\ unclassified_files st = []
  /\ log st = [InfoWouldMove name "oneshot" "llama" "123456.txt"].
Proof. repeat split. Qed.

(** C2, amended.  The document id is the leftmost block of six consecutive
    digits of the filename, whether or not more digits follow it, and it is
    absent exactly when the filename has no six consecutive digits.  A file
    whose name lacks the shot category, the model category or the six
    digits is logged as not classifiable, added to the unclassified files
    and counted there, and nothing else happens to it: no move is counted
    and no copy is made.  A file whose name has all three goes on to the
    copy to [shot/model/<id>.txt]. *)
Theorem document_id_leftmost_and_routing :
  (forall filename : string,
     match get_six_digit_number filename with
     | Some d => leftmost_six_digits filename d
     | None => ~ has_six_digits filename
     end)
  /\ (forall output_dir dry_run copy_ok st f,
        fst (determine_categories (file_name f)) = None
        \/ snd (determine_categories (file_name f)) = None
        \/ get_six_digit_number (file_name f) = None ->
        let st' := organize_step output_dir dry_run copy_ok st f in
        st' = mark_unclassified (WarnCouldNotClassify (file_name f)) f (count_file st)
        /\ unclassified_files st' = unclassified_files st ++ [f]
        /\ log st' = log st ++ [WarnCouldNotClassify (file_name f)]
        /\ successful_moves st' = successful_moves st
        /\ copies st' = copies st
        /\ stats st' = stats st)
  /\ (forall output_dir dry_run copy_ok st f shot model six,
        determine_categories (file_name f) = (Some shot, Some model) ->
        get_six_digit_number (file_name f) = Some six ->
        organize_step output_dir dry_run copy_ok st f
        = if dry_run then
            mark_moved (InfoWouldMove (file_name f) shot model (six +:+ ".txt"))
              shot model [] (count_file st)
          else if copy_ok f (target_of output_dir shot model six) then
            mark_moved (InfoMoved (file_name f) shot model (six +:+ ".txt"))
              shot model [(file_path f, target_of output_dir shot model six)]
              (count_file st)
          else mark_unclassified (ErrorProcessing (file_name f)) f (count_file st)).
Proof.
  split; [| split].
  - intros filename.
    destruct (get_six_digit_number filename) as [d|] eqn:H.
    + now apply get_six_digit_number_leftmost.
    + now apply get_six_digit_number_none.
  - intros output_dir dry_run copy_ok st f H st'. subst st'.
    rewrite (organize_step_lacking _ _ _ _ _ H). repeat split.
  - intros. now apply organize_step_classified.
Qed.

Lemma document_id_leftmost_and_routing_witness :
  (let f := {| file_path := "in/notes_llama_oneshot.txt";
               file_name := "notes_llama_oneshot.txt" |} in
   unclassified_files (organize_step "out" false (fun _ _ => true) init_state f) = [f])
  /\ (let f := {| file_path := "in/201301_llama_oneshot_summary.txt";
                  file_name := "201301_llama_oneshot_summary.txt" |} in
      copies (organize_step "out" false (fun _ _ => true) init_state f)
      = [("in/201301_llama_oneshot_summary.txt", "out/oneshot/llama/201301.txt")]).
Proof.
  split.
  - intros f.
    apply (proj1 (proj2 document_id_leftmost_and_routing)
             "out" false (fun _ _ => true) init_state f).
    right; right; reflexivity.
  - intros f.
    rewrite (proj2 (proj2 document_id_leftmost_and_routing)
               "out" false (fun _ _ => true) init_state f "oneshot" "llama" "201301");
      reflexivity.
Defined.

(** C3, as stated, fails for the organizer: with one file classified and
    copied, an exception raised while the report is written escapes
    [organize_files], and [main] exits with status 1 although one file was
    processed. *)
Lemma exit_status_one_after_a_successful_move :
  let f := {| file_path := "in/201301_llama_oneshot.txt";
              file_name := "201301_llama_oneshot.txt" |} in
  successful_moves (organize_loop "out" false (fun _ _ => true) [f]) = 1%nat
  /\ OrganizeFiles.main "out" false (fun _ _ => true) false [f] = 1%Z.
Proof. split; reflexivity. Qed.

(** C3, amended.  For a run that finds at least one input file: the
    organizer exits with status 0 when at least one file was moved and no
    exception escapes the writing of the report (none can in a dry run),
    and it exits with a non-zero status only if no file was moved or that
    exception was raised; the document processor exits with status 0.  A
    partial success therefore exits 0 under the same proviso. *)
Theorem exit_status_zero_on_success :
  (forall output_dir dry_run copy_ok report_ok (text_files : list file),
     text_files <> [] ->
     let moved := successful_moves (organize_loop output_dir dry_run copy_ok text_files) in
     let status := OrganizeFiles.main output_dir dry_run copy_ok report_ok text_files in
     ((0 < moved)%nat -> dry_run = true \/ report_ok = true -> status = 0%Z)
     /\ (status <> 0%Z -> moved = 0%nat \/ (dry_run = false /\ report_ok = false)))
  /\ (forall patterns extract save (globbed : list SummaryExtractor.doc),
        SummaryExtractor.find_docx_files globbed <> [] ->
        SummaryExtractor.main patterns extract save globbed = 0%Z).
Proof.
  split.
  - intros output_dir dry_run copy_ok report_ok text_files Hne moved status.
    subst moved status. unfold OrganizeFiles.main, organize_files.
    destruct text_files as [|f rest]; [congruence |].
    set (st := organize_loop output_dir dry_run copy_ok (f :: rest)).
    destruct dry_run, report_ok; simpl;
      destruct (Nat.ltb_spec 0 (successful_moves st)); simpl; split; intros;
      try reflexivity; try lia; try congruence; try (left; lia);
      try (right; split; reflexivity);
      match goal with H : _ \/ _ |- _ => destruct H; congruence end.
  - intros patterns extract save globbed Hne. unfold SummaryExtractor.main.
    now rewrite SummaryExtractorFacts.process_documents_returns_true.
Qed.

Lemma exit_status_zero_on_success_witness :
  let f := {| file_path := "in/201301_llama_oneshot.txt";
              file_name := "201301_llama_oneshot.txt" |} in
  let g := {| file_path := "in/readme.txt"; file_name := "readme.txt" |} in
  let d := {| SummaryExtractor.doc_name := "201301.docx";
              SummaryExtractor.doc_stem := "201301" |} in
  OrganizeFiles.main "out" false (fun _ _ => true) true [g; f] = 0%Z
  /\ SummaryExtractor.main ["Summary"] (fun _ _ => None) (fun _ _ => true) [d] = 0%Z.
Proof.
  intros f g d. split.
  - apply (proj1 exit_status_zero_on_success "out" false (fun _ _ => true) true [g; f]).
    + discriminate.
    + vm_compute. lia.
    + right; reflexivity.
  - apply (proj2 exit_status_zero_on_success ["Summary"] (fun _ _ => None)
             (fun _ _ => true) [d]).
    discriminate.
Defined.

End ClassifierClaims.

(** ** Properties of the pair matcher *)

Section PairMatcherClaims.
Import PyStr SummaryEvaluation SummaryEvaluationFacts.

(** C4.  When the listing of the reference directory holds two or more
    files with the same six-digit identifier, the mapping built by the scan
    sends that identifier to the path of the last of them in scanning
    order, a duplicate warning is printed for it, and the mapping has no
    two entries for one identifier; more generally every identifier is
    mapped to the last file of the listing that carries it. *)
Theorem duplicate_reference_last_wins
    (reference_dir : string) (before between after : list string)
    (f1 f2 identifier : string) :
  reference_search f1 = Some identifier ->
  reference_search f2 = Some identifier ->
  Forall (fun g => reference_search g <> Some identifier) after ->
  let listing := before ++ f1 :: between ++ f2 :: after in
  let scanned := scan_references reference_dir listing in
  fst scanned !! identifier = Some (path_join reference_dir f2)
  /\ In (WarnDuplicateReference identifier f2) (snd scanned)
  /\ NoDup (map fst (map_to_list (fst scanned)))
  /\ (forall id : string,
        fst scanned !! id
        = option_map (path_join reference_dir) (last_reference listing id)).
Proof.
  intros Hf1 Hf2 Hafter listing scanned. subst listing scanned.
  assert (Hsplit : before ++ f1 :: between ++ f2 :: after
                   = (before ++ f1 :: between) ++ f2 :: after).
  { now rewrite <- app_assoc. }
  split; [| split; [| split]].
  - unfold scan_references. rewrite scan_fold_lookup, Hsplit.
    now rewrite (last_reference_app_hit _ _ _ _ Hf2 Hafter).
  - unfold scan_references. rewrite Hsplit, fold_left_app. cbn [fold_left].
    apply scan_fold_printed_mono. apply scan_step_warns; [exact Hf2 |].
    rewrite scan_fold_lookup.
    destruct (last_reference (before ++ f1 :: between) identifier) eqn:Hlast;
      [eexists; reflexivity |].
    unfold last_reference in Hlast. apply last_None in Hlast.
    rewrite List.filter_app in Hlast. cbn [List.filter] in Hlast.
    rewrite bool_decide_eq_true_2 in Hlast by exact Hf1.
    apply app_eq_nil in Hlast. destruct Hlast as [_ Hlast]. discriminate.
  - apply NoDup_fst_map_to_list.
  - intros id. unfold scan_references. rewrite scan_fold_lookup.
    destruct (last_reference _ id); [reflexivity | apply lookup_empty].
Qed.

Lemma duplicate_reference_last_wins_witness :
  let scanned :=
    scan_references "refs" ["a_201301.txt"; "notes.md"; "b_201301.txt"; "c_201302.txt"] in
  fst scanned !! "201301" = Some "refs/b_201301.txt"
  /\ In (WarnDuplicateReference "201301" "b_201301.txt") (snd scanned).
Proof.
  intros scanned.
  destruct (duplicate_reference_last_wins "refs" [] ["notes.md"] ["c_201302.txt"]
              "a_201301.txt" "b_201301.txt" "201301") as [Hlookup [Hwarn _]].
  - reflexivity.
  - reflexivity.
  - constructor; [discriminate | constructor].
  - split; [exact Hlookup | exact Hwarn].
Defined.

(** C5.  A generated file whose identifier has no entry in the reference
    mapping adds no pair: one warning that its reference was not found is
    printed and the walk goes on with the files that follow.  In
    particular, with references carrying the identifiers 100001 and
    100002 and generated files carrying 100001 and 999999, the texts of
    the 100001 files being readable and not blank, exactly one pair is
    returned, that of 100001, and exactly one generated file, that of
    999999, is reported without reference. *)
Theorem unmatched_generated_file_is_skipped :
  (forall generated_base_dir path_exists read_text
          (reference_mapping : gmap string string) (d : walk_dir)
          (st : list summary_pair * list message) (file identifier : string)
          (rest : list string),
     generated_match file = Some identifier ->
     reference_mapping !! identifier = None ->
     let step := file_step generated_base_dir path_exists read_text reference_mapping d in
     fst (step st file) = fst st
     /\ List.filter is_not_found (snd (step st file))
        = List.filter is_not_found (snd st)
          ++ [WarnReferenceNotFound identifier
                (path_join (root_of generated_base_dir d) file)]
     /\ fold_left step (file :: rest) st = fold_left step rest (step st file))
  /\ (forall reference_dir generated_base_dir path_exists read_text
             (r1 r2 g1 g2 : string) (dirs : list string) (tg tr : string),
        reference_search r1 = Some "100001" ->
        reference_search r2 = Some "100002" ->
        generated_match g1 = Some "100001" ->
        generated_match g2 = Some "999999" ->
        let d := {| rel_dirs := dirs; dir_files := [g1; g2] |} in
        let root := root_of generated_base_dir d in
        path_exists (path_join reference_dir r1) = true ->
        read_text (path_join root g1) = Some tg ->
        read_text (path_join reference_dir r1) = Some tr ->
        strip tg <> EmptyString ->
        strip tr <> EmptyString ->
        let result :=
          read_summaries reference_dir generated_base_dir path_exists read_text
            [r1; r2] [d] in
        (exists mode model,
            fst result = [ {| Generated_Summary := strip tg;
                              Reference_Summary := strip tr;
                              Learning_Mode := mode; Model := model |} ])
        /\ List.filter is_not_found (snd result)
           = [WarnReferenceNotFound "999999" (path_join root g2)]).
Proof.
  split.
  - intros generated_base_dir path_exists read_text reference_mapping d st file
      identifier rest Hmatch Hnone step. subst step.
    destruct (file_step_unmatched generated_base_dir path_exists read_text
                reference_mapping d st file identifier Hmatch Hnone) as [Hp Hl].
    split; [exact Hp | split; [exact Hl | reflexivity]].
  - intros reference_dir generated_base_dir path_exists read_text r1 r2 g1 g2 dirs tg tr
      Hr1 Hr2 Hg1 Hg2 d root Hex Hrg Hrr Hsg Hsr result.
    subst result.
    set (mp := <["100002" := path_join reference_dir r2]>
                 (<["100001" := path_join reference_dir r1]> ∅) : gmap string string).
    assert (Hscan : scan_references reference_dir [r1; r2] = (mp, [])).
    { unfold scan_references. cbn [fold_left]. unfold scan_step.
      rewrite Hr1, Hr2, lookup_empty. cbv beta iota.
      rewrite lookup_insert_ne by discriminate. now rewrite lookup_empty. }
    assert (Hm1 : mp !! "100001" = Some (path_join reference_dir r1)).
    { subst mp. rewrite lookup_insert_ne by discriminate. apply lookup_insert_eq. }
    assert (Hm9 : mp !! "999999" = None).
    { subst mp. do 2 rewrite lookup_insert_ne by discriminate. apply lookup_empty. }
    clearbody mp.
    assert (Hne : path_join reference_dir r1 <> EmptyString).
    { apply path_join_nonempty. now apply (reference_search_nonempty _ "100001"). }
    unfold read_summaries. rewrite Hscan. cbv beta iota. cbn [fold_left].
    unfold dir_step. change (dir_files d) with [g1; g2]. cbn [fold_left].
    set (st0 := (@nil summary_pair, @nil message)).
    destruct (file_step_matched generated_base_dir path_exists read_text mp d st0
                g1 "100001" _ tg tr Hg1 Hm1 Hne Hex Hrg Hrr Hsg Hsr)
      as [[mode [model Hp1]] Hl1].
    set (st1 := file_step generated_base_dir path_exists read_text mp d st0 g1) in *.
    destruct (file_step_unmatched generated_base_dir path_exists read_text mp d st1
                g2 "999999" Hg2 Hm9) as [Hp2 Hl2].
    split.
    + exists mode, model. now rewrite Hp2, Hp1.
    + now rewrite Hl2, Hl1.
Qed.

Lemma unmatched_generated_file_is_skipped_witness :
  let exists_ := fun _ : string => true in
  let read := fun p : string =>
    if String.eqb p "gen/oneshot/llama/100001.txt" then Some " generated text "
    else if String.eqb p "refs/ref_100001.txt" then Some "reference text"
    else None in
  let result :=
    read_summaries "refs" "gen" exists_ read ["ref_100001.txt"; "ref_100002.txt"]
      [ {| rel_dirs := ["oneshot"; "llama"]; dir_files := ["100001.txt"; "999999.txt"] |} ] in
  length (fst result) = 1%nat
  /\ List.filter is_not_found (snd result)
     = [WarnReferenceNotFound "999999" "gen/oneshot/llama/999999.txt"].
Proof.
  intros exists_ read result.
  destruct (proj2 unmatched_generated_file_is_skipped "refs" "gen" exists_ read
              "ref_100001.txt" "ref_100002.txt" "100001.txt" "999999.txt"
              ["oneshot"; "llama"] " generated text " "reference text")
    as [[mode [model Hpairs]] Hlog];
    try reflexivity; try (vm_compute; discriminate).
  split; [subst result; rewrite Hpairs; reflexivity | exact Hlog].
Defined.

(** C9.  For a matched identifier, when the generated text or the
    reference text is empty once stripped, the file adds no pair;
    consequently both summaries of every pair returned by [read_summaries]
    are non-empty. *)
Theorem returned_pairs_are_nonempty :
  (forall generated_base_dir path_exists read_text
          (reference_mapping : gmap string string) (d : walk_dir)
          (st : list summary_pair * list message) (file identifier ref tg tr : string),
     generated_match file = Some identifier ->
     reference_mapping !! identifier = Some ref ->
     read_text (path_join (root_of generated_base_dir d) file) = Some tg ->
     read_text ref = Some tr ->
     strip tg = EmptyString \/ strip tr = EmptyString ->
     fst (file_step generated_base_dir path_exists read_text reference_mapping d st file)
     = fst st)
  /\ (forall reference_dir generated_base_dir path_exists read_text
             (listing : list string) (walk : list walk_dir) (p : summary_pair),
        In p (fst (read_summaries reference_dir generated_base_dir path_exists read_text
                     listing walk)) ->
        Generated_Summary p <> EmptyString /\ Reference_Summary p <> EmptyString).
Proof.
  split.
  - intros generated_base_dir path_exists read_text reference_mapping d st file
      identifier ref tg tr Hmatch Href Hrg Hrr Hempty.
    destruct st as [pairs printed]. unfold file_step.
    rewrite Hmatch, Href, Hrg, Hrr.
    destruct (match rel_dirs d ++ [file] with
              | mode :: model :: _ :: _ => (mode, model, printed)
              | _ => ("Unknown", "Unknown",
                      printed ++ [WarnUnexpectedStructure
                                    (path_join (root_of generated_base_dir d) file)])
              end) as [[mode model] printed'].
    destruct (truthy (Some ref) && path_exists ref); [| reflexivity].
    destruct (String.eqb_spec (strip tg) "") as [|Hg]; [reflexivity |].
    destruct (String.eqb_spec (strip tr) "") as [|Hr]; [reflexivity |].
    destruct Hempty; contradiction.
  - intros reference_dir generated_base_dir path_exists read_text listing walk p Hin.
    pose proof (read_summaries_nonempty reference_dir generated_base_dir path_exists
                  read_text listing walk) as Hall.
    rewrite List.Forall_forall in Hall. now apply Hall.
Qed.

Lemma returned_pairs_are_nonempty_witness :
  let exists_ := fun _ : string => true in
  let read := fun p : string =>
    if String.eqb p "gen/oneshot/llama/100001.txt" then Some " generated text "
    else if String.eqb p "gen/oneshot/llama/100002.txt" then Some "  "
    else if String.eqb p "refs/ref_100001.txt" then Some "reference text"
    else if String.eqb p "refs/ref_100002.txt" then Some "another reference"
    else None in
  let listing := ["ref_100001.txt"; "ref_100002.txt"] in
  let d := {| rel_dirs := ["oneshot"; "llama"];
              dir_files := ["100001.txt"; "100002.txt"] |} in
  let p := {| Generated_Summary := "generated text"; Reference_Summary := "reference text";
              Learning_Mode := "oneshot"; Model := "llama" |} in
  (In p (fst (read_summaries "refs" "gen" exists_ read listing [d]))
   /\ Generated_Summary p <> EmptyString /\ Reference_Summary p <> EmptyString)
  /\ fst (file_step "gen" exists_ read {["100002" := "refs/ref_100002.txt"]} d
            ([p], []) "100002.txt") = [p].
Proof.
  intros exists_ read listing d p. split.
  - assert (Hin : In p (fst (read_summaries "refs" "gen" exists_ read listing [d]))).
    { vm_compute. left. reflexivity. }
    split; [exact Hin |].
    exact (proj2 returned_pairs_are_nonempty "refs" "gen" exists_ read listing [d] p Hin).
  - apply (proj1 returned_pairs_are_nonempty "gen" exists_ read
             {["100002" := "refs/ref_100002.txt"]} d ([p], []) "100002.txt" "100002"
             "refs/ref_100002.txt" "  " "another reference");
      try reflexivity.
    left. reflexivity.
Defined.

End PairMatcherClaims.

(** ** Properties of the ranking *)

Section RankingClaims.
Import AutomaticMetric AutomaticMetricFacts.

Lemma expected_rank_position (results : list result) (p i : nat) (r : result) :
  results !! i = Some r ->
  rank_order results !! p = Some i ->
  expected_rank results i (sum r) = S p.
Proof.
  intros Hr Hp. destruct (sorted_position_of results i r Hr) as [p' [Hsl Hp']].
  assert (p' = p) as ->.
  { eapply NoDup_lookup; [apply rank_order_NoDup | exact Hp' | exact Hp]. }
  unfold expected_rank.
  rewrite <- (filter_length_perm _ _ _ (sorted_desc_perm (decorate results))).
  now rewrite (sorted_position _ p _ (sorted_desc_decorate_sorted results) Hsl).
Qed.

Lemma rank_results_inv (results : list result) (i : nat) (a : result) :
  rank_results results !! i = Some a ->
  exists r p, results !! i = Some r
              /\ sorted_desc (decorate results) !! p = Some (i, sum r)
              /\ a = set_rank (S p) r.
Proof.
  intros Ha.
  destruct (results !! i) as [r|] eqn:Hr.
  - destruct (sorted_position_of results i r Hr) as [p [Hsl Hp]].
    exists r, p. split; [reflexivity | split; [exact Hsl |]].
    rewrite (rank_results_lookup _ _ _ Hr) in Ha.
    rewrite (expected_rank_position _ _ _ _ Hr Hp) in Ha. congruence.
  - apply lookup_ge_None in Hr. apply lookup_lt_Some in Ha.
    rewrite rank_results_length in Ha. lia.
Qed.

(** C6.  After the ranking loop over [n] records, the rank values are a
    permutation of 1..n, the sums are those the records came with, and of
    two records the one with the strictly greater sum has the strictly
    smaller rank. *)
Theorem ranks_are_a_descending_permutation (results : list result) :
  Permutation (map rank (rank_results results)) (map Some (seq 1 (length results)))
  /\ map sum (rank_results results) = map sum results
  /\ (forall (i j : nat) (a b : result),
        rank_results results !! i = Some a ->
        rank_results results !! j = Some b ->
        (sum b < sum a)%Q ->
        exists ra rb, rank a = Some ra /\ rank b = Some rb /\ (ra < rb)%nat).
Proof.
  split; [| split].
  - set (g := fun i : nat =>
                match results !! i with
                | Some r => Some (expected_rank results i (sum r))
                | None => None
                end).
    assert (H1 : map rank (rank_results results) = map g (seq 0 (length results))).
    { apply list_eq. intros i. rewrite !list_lookup_fmap.
      destruct (results !! i) as [r|] eqn:Hr.
      - rewrite (rank_results_lookup _ _ _ Hr). simpl.
        pose proof (lookup_lt_Some _ _ _ Hr) as Hlt.
        rewrite lookup_seq_lt by exact Hlt. simpl. unfold g. now rewrite Hr.
      - pose proof (proj1 (lookup_ge_None _ _) Hr) as Hge.
        rewrite (proj2 (lookup_ge_None (rank_results results) i))
          by (rewrite rank_results_length; exact Hge).
        rewrite lookup_seq_ge by exact Hge. reflexivity. }
    assert (H2 : map g (rank_order results) = map Some (seq 1 (length results))).
    { apply list_eq. intros p. rewrite !list_lookup_fmap.
      destruct (rank_order results !! p) as [i|] eqn:Hp.
      - pose proof (lookup_lt_Some _ _ _ Hp) as Hlt.
        rewrite rank_order_length in Hlt.
        rewrite lookup_seq_lt by exact Hlt. simpl.
        assert (Hin : i ∈ seq 0 (length results)).
        { rewrite <- rank_order_perm. eapply list_elem_of_lookup_2. exact Hp. }
        apply elem_of_seq in Hin.
        destruct (lookup_lt_is_Some_2 results i) as [r Hr]; [lia |].
        unfold g. rewrite Hr. now rewrite (expected_rank_position _ _ _ _ Hr Hp).
      - pose proof (proj1 (lookup_ge_None _ _) Hp) as Hge.
        rewrite rank_order_length in Hge.
        rewrite lookup_seq_ge by exact Hge. reflexivity. }
    rewrite H1, <- H2. apply Permutation_map. symmetry. apply rank_order_perm.
  - apply rank_results_sums.
  - intros i j a b Ha Hb Hlt.
    destruct (rank_results_inv _ _ _ Ha) as [ri [p [Hri [Hp ->]]]].
    destruct (rank_results_inv _ _ _ Hb) as [rj [q [Hrj [Hq ->]]]].
    simpl in Hlt. exists (S p), (S q). repeat split.
    pose proof (sorted_desc_decorate_sorted results) as Hs.
    destruct (lt_eq_lt_dec p q) as [[Hpq | Hpq] | Hpq]; [lia | |].
    + subst q. rewrite Hp in Hq. injection Hq as _ Hq. rewrite Hq in Hlt. lra.
    + pose proof (sorted_lookup_lt _ _ _ _ _ Hs Hq Hp Hpq) as [H | [H _]];
        simpl in H; lra.
Qed.

Lemma ranks_are_a_descending_permutation_witness :
  let a := new_result "llama" "oneshot" "201301.txt" "oneshot/llama/201301.txt"
             "refs/201301.txt" [0.5; 0.25]%float in
  let b := new_result "qwen" "oneshot" "201302.txt" "oneshot/qwen/201302.txt"
             "refs/201302.txt" [0.875; 0.5]%float in
  exists ra rb,
    rank (set_rank 2 a) = Some ra /\ rank (set_rank 1 b) = Some rb /\ (rb < ra)%nat.
Proof.
  intros a b.
  destruct (proj2 (proj2 (ranks_are_a_descending_permutation [a; b]))
              1%nat 0%nat (set_rank 1 b) (set_rank 2 a))
    as [rb [ra [Hb [Ha Hlt]]]].
  - reflexivity.
  - reflexivity.
  - vm_compute. reflexivity.
  - exists ra, rb. repeat split; assumption.
Defined.

End RankingClaims.

(** ** Properties of the aggregation *)

Section AggregationClaims.
Import AutomaticMetric AutomaticMetricFacts CountHallucination CountHallucinationFacts.

(** C7.  The ranking is a function of the sequence of sums alone: the
    record at position [i] receives one more than the number of records
    with a larger sum, or with the same sum and an earlier position, so
    that ties are resolved by the order of the input; two sequences of
    records with the same sums receive the same ranks, and running the
    ranking loop again over its own result changes nothing.  The summary
    rows are likewise a function of the data frame they are computed
    from. *)
Theorem aggregation_is_deterministic :
  (forall (results : list result) (i : nat) (r : result),
     results !! i = Some r ->
     rank_results results !! i = Some (set_rank (expected_rank results i (sum r)) r))
  /\ (forall results1 results2 : list result,
        map sum results1 = map sum results2 ->
        map rank (rank_results results1) = map rank (rank_results results2))
  /\ (forall results : list result,
        rank_results (rank_results results) = rank_results results)
  /\ (forall agg_mean agg_std (df1 df2 : list csv_row),
        df1 = df2 ->
        create_summary agg_mean agg_std df1 = create_summary agg_mean agg_std df2).
Proof.
  split; [| split; [| split]].
  - apply rank_results_lookup.
  - intros results1 results2 Hsums.
    assert (Hlen : length results1 = length results2).
    { rewrite <- (length_map sum results1), Hsums. apply length_map. }
    apply list_eq. intros i. rewrite !list_lookup_fmap.
    destruct (results1 !! i) as [r1|] eqn:H1; destruct (results2 !! i) as [r2|] eqn:H2.
    + rewrite (rank_results_lookup _ _ _ H1), (rank_results_lookup _ _ _ H2). simpl.
      assert (Hs : sum r1 = sum r2).
      { pose proof (f_equal (fun l => l !! i) Hsums) as Hi. simpl in Hi.
        rewrite !list_lookup_fmap, H1, H2 in Hi. simpl in Hi. congruence. }
      unfold expected_rank. now rewrite Hs, (decorate_sums _ _ Hsums).
    + apply lookup_lt_Some in H1. apply lookup_ge_None in H2. lia.
    + apply lookup_lt_Some in H2. apply lookup_ge_None in H1. lia.
    + rewrite !(proj2 (lookup_ge_None _ i)); [reflexivity | |];
        rewrite rank_results_length; now apply lookup_ge_None.
  - intros results. apply list_eq. intros i.
    destruct (results !! i) as [r|] eqn:Hr.
    + pose proof (rank_results_lookup _ _ _ Hr) as Hout.
      rewrite (rank_results_lookup _ _ _ Hout), Hout. simpl.
      unfold expected_rank. now rewrite (decorate_sums _ _ (rank_results_sums results)).
    + apply lookup_ge_None in Hr.
      rewrite !(proj2 (lookup_ge_None _ i)); [reflexivity | |];
        rewrite !rank_results_length; exact Hr.
  - intros agg_mean agg_std df1 df2 ->. reflexivity.
Qed.

Lemma aggregation_is_deterministic_witness :
  let a := new_result "llama" "oneshot" "201301.txt" "oneshot/llama/201301.txt"
             "refs/201301.txt" [0.5; 0.25]%float in
  let b := new_result "qwen" "oneshot" "201302.txt" "oneshot/qwen/201302.txt"
             "refs/201302.txt" [0.25; 0.5]%float in
  let c := new_result "chatgpt" "oneshot" "201303.txt" "oneshot/chatgpt/201303.txt"
             "refs/201303.txt" [0.875; 0.5]%float in
  rank_results [a; b; c] !! 1%nat = Some (set_rank 3 b)
  /\ map rank (rank_results [set_rank 7 a; b; c]) = map rank (rank_results [a; b; c]).
Proof.
  intros a b c. split.
  - rewrite (proj1 aggregation_is_deterministic [a; b; c] 1%nat b); reflexivity.
  - apply (proj1 (proj2 aggregation_is_deterministic)). reflexivity.
Defined.

End AggregationClaims.

(** ** Properties of the hallucination report *)

(** ** The percentages of the summary, in floating point *)

Module PercentageFacts.
Import Binary64 Binary64Facts CountHallucination CountHallucinationFacts.

Lemma float_of_nat_zero : Prim2SF (float_of_nat 0) = S754_zero false.
Proof. vm_compute. reflexivity. Qed.

Lemma float_of_nat_normal (n : nat) :
  (0 < n)%nat -> (Z.of_nat n < 2 ^ 53)%Z ->
  normal (Prim2SF (float_of_nat n)) (-52) 0 (inject_Z (Z.of_nat n)).
Proof.
  intros Hpos Hlt. unfold float_of_nat. rewrite of_uint63_spec, Uint63.of_Z_spec.
  rewrite Z.mod_small by (change Uint63Axioms.wB with (2 ^ 63)%Z; lia).
  change prec with 53%Z. change emax with 1024%Z.
  apply normalize_exact. lia.
Qed.

Lemma percentage_bound (s t : nat) :
  (0 < t)%nat -> (Z.of_nat s < 2 ^ 53)%Z -> (Z.of_nat t < 2 ^ 53)%Z ->
  exists v, nonneg (Prim2SF (percentage s t)) (-105) 55 v
            /\ (exact_percentage s t * ((1 - eps) * (1 - eps)) <= v
                <= exact_percentage s t * ((1 + eps) * (1 + eps)))%Q.
Proof.
  intros Ht Hs Ht2. unfold percentage, exact_percentage.
  rewrite mul_spec, div_spec. unfold SF64mul, SF64div.
  change prec with 53%Z. change emax with 1024%Z.
  pose proof (float_of_nat_normal t Ht Ht2) as Hnt.
  pose proof (float_of_nat_normal 100 ltac:(lia) ltac:(reflexivity)) as Hn100.
  destruct s as [|s].
  - rewrite float_of_nat_zero. exists 0%Q. split.
    + left. destruct Hnt as (m & e & -> & _). destruct Hn100 as (m2 & e2 & -> & _).
      split; reflexivity.
    + change (inject_Z (Z.of_nat 0)) with 0%Q. split.
      * setoid_replace (0 / inject_Z (Z.of_nat t) * 100 * ((1 - eps) * (1 - eps)))%Q
          with 0%Q using relation Qeq by (unfold Qdiv; ring). apply Qle_refl.
      * setoid_replace (0 / inject_Z (Z.of_nat t) * 100 * ((1 + eps) * (1 + eps)))%Q
          with 0%Q using relation Qeq by (unfold Qdiv; ring). apply Qle_refl.
  - pose proof (float_of_nat_normal (S s) ltac:(lia) Hs) as Hns.
    destruct (div_normal _ _ _ _ _ _ _ _ Hns Hnt ltac:(lia) ltac:(lia)) as (q & Hq & Hqv).
    destruct (mul_normal _ _ _ _ _ _ _ _ Hq Hn100 ltac:(lia) ltac:(lia)) as (p & Hp & Hpv).
    exists p. split.
    + right. apply (normal_weaken _ _ _ _ _ _ Hp); lia.
    + change (inject_Z (Z.of_nat 100)) with 100%Q in Hpv.
      set (x := (inject_Z (Z.of_nat (S s)) / inject_Z (Z.of_nat t))%Q) in *.
      pose proof (normal_pos _ _ _ _ Hq) as Hqpos.
      unfold eps in *. split.
      * apply Qle_trans with (q * 100 * (1 - (1 # 4503599627370496)))%Q; [| apply Hpv].
        setoid_replace (x * 100 * ((1 - (1 # 4503599627370496)) * (1 - (1 # 4503599627370496))))%Q
          with (x * (1 - (1 # 4503599627370496)) * (100 * (1 - (1 # 4503599627370496))))%Q
          using relation Qeq by ring.
        setoid_replace (q * 100 * (1 - (1 # 4503599627370496)))%Q
          with (q * (100 * (1 - (1 # 4503599627370496))))%Q using relation Qeq by ring.
        apply Qmult_le_compat_r; [apply Hqv | lra].
      * apply Qle_trans with (q * 100 * (1 + (1 # 4503599627370496)))%Q; [apply Hpv |].
        setoid_replace (x * 100 * ((1 + (1 # 4503599627370496)) * (1 + (1 # 4503599627370496))))%Q
          with (x * (1 + (1 # 4503599627370496)) * (100 * (1 + (1 # 4503599627370496))))%Q
          using relation Qeq by ring.
        setoid_replace (q * 100 * (1 + (1 # 4503599627370496)))%Q
          with (q * (100 * (1 + (1 # 4503599627370496))))%Q using relation Qeq by ring.
        apply Qmult_le_compat_r; [apply Hqv | lra].
Qed.

Lemma qpow_nonneg (q : Q) (n : nat) : (0 <= q)%Q -> (0 <= qpow q n)%Q.
Proof.
  intros Hq. induction n as [|n IH]; simpl; [discriminate |].
  now apply Qmult_le_0_compat.
Qed.

Lemma value_percentage (s t : nat) :
  (0 < t)%nat -> (Z.of_nat s < 2 ^ 53)%Z -> (Z.of_nat t < 2 ^ 53)%Z ->
  (exact_percentage s t * ((1 - eps) * (1 - eps)) <= value (percentage s t)
   <= exact_percentage s t * ((1 + eps) * (1 + eps)))%Q
  /\ (0 <= value (percentage s t))%Q.
Proof.
  intros Ht Hs Ht2. destruct (percentage_bound s t Ht Hs Ht2) as (v & Hn & Hv).
  destruct (nonneg_value _ _ _ _ Hn) as [Heq Hpos]. unfold value. rewrite Heq.
  split; assumption.
Qed.

Lemma values_sum_bound (sums : list nat) (t : nat) :
  (0 < t)%nat -> (Z.of_nat t < 2 ^ 53)%Z ->
  List.Forall (fun s => (Z.of_nat s < 2 ^ 53)%Z) sums ->
  (Qsum (map (fun s => exact_percentage s t) sums) * ((1 - eps) * (1 - eps))
   <= Qsum (map (fun s => value (percentage s t)) sums)
   <= Qsum (map (fun s => exact_percentage s t) sums) * ((1 + eps) * (1 + eps)))%Q.
Proof.
  intros Ht Ht2. induction 1 as [|s sums Hs _ IH]; simpl.
  - unfold eps. lra.
  - destruct (value_percentage s t Ht Hs Ht2) as [Hv _]. unfold eps in *. lra.
Qed.

Lemma values_nonneg (l : list float) :
  List.Forall (fun p => exists v, nonneg (Prim2SF p) (-105) 55 v) l ->
  (0 <= Qsum (map value l))%Q.
Proof.
  induction 1 as [|q l (v & Hq) _ IH]; [discriminate |].
  cbn [map Qsum fold_right]. unfold Qsum in IH.
  destruct (nonneg_value _ _ _ _ Hq) as [Hqv Hq0].
  assert (Hq1 : (0 <= value q)%Q) by (unfold value; now rewrite Hqv).
  lra.
Qed.

(** Adding normal numbers from left to right: every addition costs one
    rounding. *)
Lemma float_sum_bound (l : list float) :
  forall (acc : float) (k : nat) (va : Q),
    List.Forall (fun p => exists v, nonneg (Prim2SF p) (-105) 55 v) l ->
    nonneg (Prim2SF acc) (-105) (55 + 2 * Z.of_nat k) va ->
    (k + length l <= 400)%nat ->
    exists r,
      nonneg (Prim2SF (fold_left PrimFloat.add l acc)) (-105)
        (55 + 2 * Z.of_nat (k + length l)) r
      /\ ((va + Qsum (map value l)) * qpow (1 - eps) (length l) <= r
          <= (va + Qsum (map value l)) * qpow (1 + eps) (length l))%Q.
Proof.
  induction l as [|p l IH]; intros acc k va Hall Hacc Hk.
  - exists va. split.
    + simpl. now rewrite Nat.add_0_r.
    + simpl. lra.
  - apply List.Forall_cons_iff in Hall. destruct Hall as [(vp & Hp) Hall].
    cbn [fold_left length map Qsum fold_right]. simpl in Hk.
    destruct (add_nonneg (Prim2SF acc) (Prim2SF p) (-105) (55 + 2 * Z.of_nat k) va vp)
      as (v1 & Hn1 & Hv1); try lia; try assumption.
    { apply (nonneg_weaken _ _ _ _ _ _ Hp); lia. }
    change (SFadd 53 1024 (Prim2SF acc) (Prim2SF p))
      with (SF64add (Prim2SF acc) (Prim2SF p)) in Hn1.
    rewrite <- (add_spec acc p) in Hn1.
    destruct (IH (acc + p)%float (S k) v1 Hall) as (r & Hr & Hrv).
    { apply (nonneg_weaken _ _ _ _ _ _ Hn1); lia. }
    { lia. }
    exists r. split.
    + replace (k + S (length l))%nat with (S k + length l)%nat by lia. exact Hr.
    + destruct (nonneg_value _ _ _ _ Hp) as [Hvp Hvp0].
      destruct (nonneg_value _ _ _ _ Hacc) as [_ Hva0].
      change (fold_right Qplus 0%Q (map value l)) with (Qsum (map value l)) in *.
      pose proof (values_nonneg l Hall) as Hrest.
      unfold value at 1 3. rewrite Hvp.
      set (rest := Qsum (map value l)) in *.
      pose proof (qpow_nonneg (1 - eps) (length l) ltac:(unfold eps; lra)) as Hlow.
      pose proof (qpow_nonneg (1 + eps) (length l) ltac:(unfold eps; lra)) as Hup.
      split.
      * apply Qle_trans with ((v1 + rest) * qpow (1 - eps) (length l))%Q; [| apply Hrv].
        setoid_replace ((va + (vp + rest)) * ((1 - eps) * qpow (1 - eps) (length l)))%Q
          with ((va + (vp + rest)) * (1 - eps) * qpow (1 - eps) (length l))%Q
          using relation Qeq by ring.
        apply Qmult_le_compat_r; [| exact Hlow]. unfold eps in *. lra.
      * apply Qle_trans with ((v1 + rest) * qpow (1 + eps) (length l))%Q; [apply Hrv |].
        setoid_replace ((va + (vp + rest)) * ((1 + eps) * qpow (1 + eps) (length l)))%Q
          with ((va + (vp + rest)) * (1 + eps) * qpow (1 + eps) (length l))%Q
          using relation Qeq by ring.
        apply Qmult_le_compat_r; [| exact Hup]. unfold eps in *. lra.
Qed.

(** The six percentages of a group the sums of which add up to its total. *)
Lemma percentages_of_a_group (sums : list nat) (t : nat) :
  length sums = 6%nat -> (0 < t)%nat -> (Z.of_nat t < 2 ^ 53)%Z ->
  List.Forall (fun s => (Z.of_nat s < 2 ^ 53)%Z) sums ->
  (Qsum (map (fun s => exact_percentage s t) sums) == 100)%Q ->
  let stored := map (fun s => percentage s t) sums in
  (100 - (1 # 10000000000000) <= Qsum (map value stored) <= 100 + (1 # 10000000000000))%Q
  /\ (100 - (1 # 1000000000000) <= value (float_sum stored)
      <= 100 + (1 # 1000000000000))%Q.
Proof.
  intros Hlen Ht Ht2 Hall Hexact stored.
  pose proof (values_sum_bound sums t Ht Ht2 Hall) as Hsum. rewrite Hexact in Hsum.
  assert (Hmap : map value stored = map (fun s => value (percentage s t)) sums)
    by (unfold stored; now rewrite map_map).
  rewrite Hmap. split; [unfold eps in Hsum; lra |].
  assert (Hstored : List.Forall (fun p => exists v, nonneg (Prim2SF p) (-105) 55 v) stored).
  { unfold stored. apply List.Forall_forall. intros p Hp. apply in_map_iff in Hp.
    destruct Hp as (s & <- & Hs). rewrite List.Forall_forall in Hall.
    destruct (percentage_bound s t Ht (Hall s Hs) Ht2) as (v & Hv & _). now exists v. }
  destruct (float_sum_bound stored (float_of_nat 0) 0 0 Hstored) as (r & Hr & Hrv).
  { left. split; [apply float_of_nat_zero | reflexivity]. }
  { unfold stored. rewrite length_map, Hlen. lia. }
  destruct (nonneg_value _ _ _ _ Hr) as [Hval _].
  assert (Hval2 : (value (float_sum stored) == r)%Q) by exact Hval.
  rewrite Hval2.
  assert (Hl : length stored = 6%nat) by (unfold stored; now rewrite length_map).
  rewrite Hl, Hmap in Hrv. unfold eps in *.
  set (S6 := Qsum (map (fun s => value (percentage s t)) sums)) in *.
  assert (Hlow : (1 - (1 # 500000000000000) <= qpow (1 - (1 # 4503599627370496)) 6)%Q)
    by (vm_compute; discriminate).
  assert (Hup : (qpow (1 + (1 # 4503599627370496)) 6 <= 1 + (1 # 500000000000000))%Q)
    by (vm_compute; discriminate).
  assert (HS6 : (0 <= S6)%Q) by lra.
  rewrite Qplus_0_l in Hrv. destruct Hrv as [Hr1 Hr2]. split.
  - apply Qle_trans with (S6 * qpow (1 - (1 # 4503599627370496)) 6)%Q; [| exact Hr1].
    apply Qle_trans with (S6 * (1 - (1 # 500000000000000)))%Q; [lra |].
    rewrite !(Qmult_comm S6). now apply Qmult_le_compat_r.
  - apply Qle_trans with (S6 * qpow (1 + (1 # 4503599627370496)) 6)%Q; [exact Hr2 |].
    apply Qle_trans with (S6 * (1 + (1 # 500000000000000)))%Q; [| lra].
    rewrite !(Qmult_comm S6). now apply Qmult_le_compat_r.
Qed.

Lemma exact_percentage_nonneg (s t : nat) : (0 < t)%nat -> (0 <= exact_percentage s t)%Q.
Proof.
  intros Ht. unfold exact_percentage.
  assert (H : (0 <= inject_Z (Z.of_nat s) / inject_Z (Z.of_nat t))%Q).
  { apply Qle_shift_div_l.
    - change 0%Q with (inject_Z 0). rewrite <- Zlt_Qlt. lia.
    - rewrite Qmult_0_l. change 0%Q with (inject_Z 0). rewrite <- Zle_Qle. lia. }
  lra.
Qed.

(** Every percentage column against its exact quotient. *)
Lemma columns_bound (sums : list nat) (t : nat) :
  (0 < t)%nat -> (Z.of_nat t < 2 ^ 53)%Z ->
  List.Forall (fun s => (Z.of_nat s < 2 ^ 53)%Z) sums ->
  Forall2 (fun p e => (e * (1 - (1 # 1000000000000000)) <= value p
                       <= e * (1 + (1 # 1000000000000000)))%Q)
    (map (fun s => percentage s t) sums) (map (fun s => exact_percentage s t) sums).
Proof.
  intros Ht Ht2. induction 1 as [|s sums Hs _ IH]; simpl; constructor; [| exact IH].
  destruct (value_percentage s t Ht Hs Ht2) as [Hv _].
  pose proof (exact_percentage_nonneg s t Ht) as He. unfold eps in Hv. lra.
Qed.

Lemma summands_below (l : list nat) (bound : Z) :
  (Z.of_nat (sum_list l) < bound)%Z -> List.Forall (fun s => (Z.of_nat s < bound)%Z) l.
Proof.
  induction l as [|s l IH]; simpl; intros H; constructor; [lia | apply IH; lia].
Qed.

End PercentageFacts.



Section HallucinationClaims.
Import Binary64 CountHallucination CountHallucinationFacts PercentageFacts.

(** C10, as stated, fails on the floating-point columns: for one file with
    one [UCE], one [OGE] and one [UGE] tag the total is 3, the three
    non-zero percentages are each the 64-bit quotient 1/3 times 100, and
    their sum, in whatever order it is taken, is strictly below 100. *)
Lemma percentages_sum_below_100 :
  let files :=
    [ {| tf_learning_model := "oneshot"; tf_model := "llama"; tf_stem := "201301";
         tf_relative_path := "oneshot/llama/201301.txt";
         tf_content := Some "a [UCE] b [OGE] c [UGE]" |} ] in
  let csv := default [] (per_file_csv files) in
  let summary := create_summary (fun _ => 0%float) (fun _ => 0%float) csv in
  map total_hallucinations csv = [3%nat]
  /\ map total_sum summary = [3%nat]
  /\ map (fun g => PrimFloat.ltb (float_sum (type_percentages g)) (float_of_nat 100))
       summary = [true].
Proof. vm_compute. repeat split. Qed.

(** C10, amended.  In every row of the per-file CSV the total equals the
    sum of the six per-type counts, a missing count being read as zero.
    Consequently, in every group of the summary the six per-type sums add
    up to the sum of the totals, and when that sum is not zero the six
    quotients [sum / total * 100], taken in exact arithmetic, add up to
    100.  The six percentage columns hold these quotients as the 64-bit
    floating-point division and multiplication give them: for a total
    below 2^53 every column is within a relative 10^-15 of its exact
    quotient, the values of the six columns add up to 100 within 10^-13,
    and added from left to right in floating point they give 100 within
    10^-12. *)
Theorem totals_and_percentages :
  (forall (files : list text_file) (csv : list csv_row) (c : csv_row),
     per_file_csv files = Some csv ->
     In c csv ->
     let count := fun column => default 0%nat (cell (source c) column) in
     total_hallucinations c
     = (count "UCE" + count "OGE" + count "UGE"
        + count "NNE" + count "DTE" + count "MGE")%nat)
  /\ (forall agg_mean agg_std (files : list text_file) (csv : list csv_row)
             (g : summary_row),
        per_file_csv files = Some csv ->
        In g (create_summary agg_mean agg_std csv) ->
        sum_list (type_sums g) = total_sum g
        /\ (total_sum g <> 0%nat -> (Qsum (exact_percentages g) == 100)%Q)
        /\ (total_sum g <> 0%nat ->
            (Z.of_nat (total_sum g) < 2 ^ 53)%Z ->
            Forall2 (fun p e => (e * (1 - (1 # 1000000000000000)) <= value p
                                 <= e * (1 + (1 # 1000000000000000)))%Q)
              (type_percentages g) (exact_percentages g)
            /\ (100 - (1 # 10000000000000) <= Qsum (map value (type_percentages g))
                <= 100 + (1 # 10000000000000))%Q
            /\ (100 - (1 # 1000000000000) <= value (float_sum (type_percentages g))
                <= 100 + (1 # 1000000000000))%Q)).
Proof.
  split.
  - intros files csv c Hcsv Hc count.
    pose proof (per_file_csv_rows _ _ Hcsv) as Hall.
    rewrite List.Forall_forall in Hall. rewrite (Hall c Hc).
    unfold row_total, type_names, hallucination_types.
    cbn [map fst sum_list_with]. subst count. cbv beta.
    repeat match goal with
           | |- context [default 0%nat (cell (source c) ?column)] =>
               generalize (default 0%nat (cell (source c) column)); intro
           end.
    lia.
  - intros agg_mean agg_std files csv g Hcsv Hg.
    apply in_map_iff in Hg. destruct Hg as [k [<- _]].
    pose proof (group_rows_totals csv k (per_file_csv_rows _ _ Hcsv)) as Hrows.
    assert (Hsum : sum_list (type_sums (summarize_group agg_mean agg_std csv k))
                   = total_sum (summarize_group agg_mean agg_std csv k)).
    { cbn [summarize_group type_sums total_sum]. now apply column_sums_add_up. }
    assert (Hexact : total_sum (summarize_group agg_mean agg_std csv k) <> 0%nat ->
                     (Qsum (exact_percentages (summarize_group agg_mean agg_std csv k))
                      == 100)%Q).
    { intros Hnz. unfold exact_percentages.
      rewrite (exact_percentages_sum _ _ Hnz), Hsum.
      field. now apply inject_nat_nonzero. }
    split; [exact Hsum |]. split; [exact Hexact |].
    intros Hnz Hlt. specialize (Hexact Hnz). unfold exact_percentages in *.
    cbn [summarize_group type_percentages type_sums total_sum] in *.
    set (sums := map (column_sum (group_rows csv k)) type_names) in *.
    set (t := sum_list_with total_hallucinations (group_rows csv k)) in *.
    assert (Hall : List.Forall (fun s => (Z.of_nat s < 2 ^ 53)%Z) sums)
      by (apply summands_below; now rewrite Hsum).
    split; [apply columns_bound; [lia | exact Hlt | exact Hall] |].
    apply percentages_of_a_group; [reflexivity | lia | exact Hlt | exact Hall | exact Hexact].
Qed.

Lemma totals_and_percentages_witness :
  let files :=
    [ {| tf_learning_model := "oneshot"; tf_model := "llama"; tf_stem := "201301";
         tf_relative_path := "oneshot/llama/201301.txt";
         tf_content := Some "a [UCE] b [OGE] c [UGE]" |};
      {| tf_learning_model := "oneshot"; tf_model := "llama"; tf_stem := "201302";
         tf_relative_path := "oneshot/llama/201302.txt";
         tf_content := None |} ] in
  let csv := default [] (per_file_csv files) in
  Forall (fun c => total_hallucinations c
                   = (default 0 (cell (source c) "UCE") + default 0 (cell (source c) "OGE")
                      + default 0 (cell (source c) "UGE") + default 0 (cell (source c) "NNE")
                      + default 0 (cell (source c) "DTE") + default 0 (cell (source c) "MGE"))%nat)
    csv
  /\ Forall (fun g => sum_list (type_sums g) = total_sum g
                      /\ (Qsum (exact_percentages g) == 100)%Q
                      /\ (100 - (1 # 1000000000000) <= value (float_sum (type_percentages g))
                          <= 100 + (1 # 1000000000000))%Q)
       (create_summary (fun _ => 0%float) (fun _ => 0%float) csv).
Proof.
  intros files csv.
  assert (Hcsv : per_file_csv files = Some csv) by (vm_compute; reflexivity).
  split.
  - apply Forall_forall. intros c Hc. apply list_elem_of_In in Hc.
    exact (proj1 totals_and_percentages files csv c Hcsv Hc).
  - apply Forall_forall. intros g Hg. apply list_elem_of_In in Hg.
    destruct (proj2 totals_and_percentages (fun _ => 0%float) (fun _ => 0%float)
                files csv g Hcsv Hg) as (Hsum & Hpct & Hfloat).
    assert (Hnz : total_sum g <> 0%nat)
      by (vm_compute in Hg; destruct Hg as [<- | []]; vm_compute; discriminate).
    assert (Hlt : (Z.of_nat (total_sum g) < 2 ^ 53)%Z)
      by (vm_compute in Hg; destruct Hg as [<- | []]; vm_compute; reflexivity).
    split; [exact Hsum |]. split; [exact (Hpct Hnz) |].
    exact (proj2 (proj2 (Hfloat Hnz Hlt))).
Defined.

End HallucinationClaims.

(** ** Properties of the renamer *)

Section RenamerClaims.
Import Cli RenameFiles RenameFilesFacts.

(** C8.  When two of the input files map to the same output path,
    [rename_files] returns [False] from the first pass: nothing is copied
    and the output directory is not created, whatever the file system
    would have answered. *)
Theorem naming_conflict_changes_nothing
    (output_dir : string) (dry_run preserve_extension : bool)
    (stem suffix name : string -> string) (re_sub : string -> option string)
    (joinpath : string -> string -> string) (mkdir_ok : bool)
    (relative_ok : string -> bool) (copy_ok : string -> string -> bool)
    (files : list string) (i j : nat) (f g p : string) :
  (i < j)%nat ->
  files !! i = Some f ->
  files !! j = Some g ->
  new_path_of output_dir preserve_extension stem suffix name re_sub joinpath f = Some p ->
  new_path_of output_dir preserve_extension stem suffix name re_sub joinpath g = Some p ->
  let r := rename_files output_dir dry_run preserve_extension stem suffix name re_sub
             joinpath mkdir_ok relative_ok copy_ok files in
  returned r = Returned false /\ effects r = [] /\ exit_code (returned r) = 1%Z.
Proof.
  intros Hij Hi Hj Hf Hg r. subst r. unfold rename_files.
  destruct files as [|h rest] eqn:Hfiles; [discriminate |]. rewrite <- Hfiles in *.
  destruct (first_pass_conflict output_dir preserve_extension stem suffix name re_sub
              joinpath files [] i j f g p) as [entry Hentry]; try assumption.
  - intros k v [].
  - rewrite Hentry. repeat split.
Qed.

Lemma naming_conflict_changes_nothing_witness :
  let drop_digits := fun s : string =>
    Some (string_of_list_ascii
            (List.filter (fun c => negb (PyStr.is_digit c)) (list_ascii_of_string s))) in
  let r := rename_files "out" false false (fun s => s) (fun _ => "") (fun s => s)
             drop_digits (fun d n => d +:+ "/" +:+ n) true (fun _ => true)
             (fun _ _ => true) ["a1.txt"; "b.txt"; "a2.txt"] in
  returned r = Returned false /\ effects r = [] /\ exit_code (returned r) = 1%Z.
Proof.
  intros drop_digits r.
  apply (naming_conflict_changes_nothing "out" false false (fun s => s) (fun _ => "")
           (fun s => s) drop_digits (fun d n => d +:+ "/" +:+ n) true (fun _ => true)
           (fun _ _ => true) ["a1.txt"; "b.txt"; "a2.txt"] 0%nat 2%nat
           "a1.txt" "a2.txt" "out/a.txt");
    [lia | reflexivity | reflexivity | reflexivity | reflexivity].
Defined.

End RenamerClaims.

(** * Part III: further properties *)

(** ** Further properties of the organizer *)

Module OrganizeFilesMoreFacts.
Import PyStr PyStrFacts Cli OrganizeFiles OrganizeFilesFacts OrganizeFilesSummary.

Lemma stats_total_insert (counters : gmap (string * string) nat) (k : string * string) :
  stats_total (<[k := S (default 0%nat (counters !! k))]> counters)
  = S (stats_total counters).
Proof.
  unfold stats_total.
  set (f := fun (_ : string * string) (count total : nat) => (count + total)%nat).
  assert (Hfresh : forall (m : gmap (string * string) nat) (v : nat),
             m !! k = None -> map_fold f 0%nat (<[k := v]> m) = (v + map_fold f 0%nat m)%nat).
  { intros m v Hm. apply (map_fold_insert_L f); [| exact Hm]. intros. unfold f. lia. }
  destruct (counters !! k) as [v|] eqn:Hk; simpl.
  - assert (H1 : map_fold f 0%nat (<[k := S v]> counters)
                 = (S v + map_fold f 0%nat (delete k counters))%nat).
    { rewrite <- insert_delete_eq. apply Hfresh, lookup_delete_eq. }
    assert (H2 : map_fold f 0%nat counters
                 = (v + map_fold f 0%nat (delete k counters))%nat).
    { rewrite <- (insert_delete_id counters k v Hk) at 1. apply Hfresh, lookup_delete_eq. }
    rewrite H1, H2. lia.
  - now rewrite Hfresh.
Qed.

(** What one turn of the loop does: the file is set aside, or it is moved
    to the target computed from its name. *)
Lemma organize_step_cases (output_dir : string) (dry_run : bool)
    (copy_ok : file -> string -> bool) (st : state) (f : file) :
  (exists entry,
      organize_step output_dir dry_run copy_ok st f
      = mark_unclassified entry f (count_file st))
  \/ (exists entry shot model six,
        determine_categories (file_name f) = (Some shot, Some model)
        /\ get_six_digit_number (file_name f) = Some six
        /\ organize_step output_dir dry_run copy_ok st f
           = mark_moved entry shot model
               (if dry_run then []
                else [(file_path f, target_of output_dir shot model six)])
               (count_file st)).
Proof.
  unfold organize_step.
  destruct (determine_categories (file_name f)) as [shot_cat model_cat] eqn:Hcat.
  destruct (get_six_digit_number (file_name f)) as [six|] eqn:Hsix;
    destruct shot_cat as [shot|]; destruct model_cat as [model|];
    destruct (negb _); try (left; eexists; reflexivity).
  destruct dry_run.
  - right. do 4 eexists. split; [reflexivity | split; reflexivity].
  - destruct (copy_ok f _); [| left; eexists; reflexivity].
    right. do 4 eexists. split; [reflexivity | split; reflexivity].
Qed.

Lemma determine_categories_in_tables (filename shot model : string) :
  determine_categories filename = (Some shot, Some model) ->
  In shot (map fst shot_patterns) /\ In model (map fst model_patterns).
Proof.
  intros H.
  assert (H1 : fst (determine_categories filename) = Some shot) by now rewrite H.
  assert (H2 : snd (determine_categories filename) = Some model) by now rewrite H.
  change (first_category shot_patterns (lower filename) = Some shot) in H1.
  change (first_category model_patterns (lower filename) = Some model) in H2.
  split; eapply first_category_in_table; eassumption.
Qed.

Lemma contains_trans (p q s : string) :
  contains p q = true -> contains q s = true -> contains p s = true.
Proof.
  intros Hpq Hqs. apply contains_spec in Hpq. apply contains_spec in Hqs.
  apply contains_spec. destruct Hpq as [a [b ->]]. destruct Hqs as [c [d ->]].
  exists (c +:+ a), (b +:+ d). now rewrite !append_assoc.
Qed.

Lemma contains_absorb (p q s : string) :
  contains p q = true -> contains p s || contains q s = contains p s.
Proof.
  intros Hpq. destruct (contains p s) eqn:Hp; [reflexivity |].
  destruct (contains q s) eqn:Hq; [| reflexivity].
  rewrite (contains_trans _ _ _ Hpq Hq) in Hp. discriminate.
Qed.

(** The model table scanned with its redundant patterns left out. *)
Lemma model_category_keywords (s : string) :
  first_category model_patterns s
  = if contains "llama" s then Some "llama"
    else if contains "qwen" s then Some "qwen"
    else if contains "chat" s || contains "gpt" s then Some "chatgpt"
    else None.
Proof.
  unfold model_patterns, first_category, any_pattern_in, existsb.
  change (lower "llama") with "llama". change (lower "qwen") with "qwen".
  change (lower "chat") with "chat". change (lower "gpt") with "gpt".
  change (lower "llama2") with "llama2". change (lower "llama-2") with "llama-2".
  change (lower "qwen-7b") with "qwen-7b". change (lower "qwen-14b") with "qwen-14b".
  change (lower "chatgpt") with "chatgpt". change (lower "gpt-3.5") with "gpt-3.5".
  change (lower "gpt-4") with "gpt-4".
  rewrite !orb_false_r.
  assert (Hllama : contains "llama" s || (contains "llama2" s || contains "llama-2" s)
                   = contains "llama" s).
  { rewrite orb_assoc, (contains_absorb "llama" "llama2" s) by reflexivity.
    now apply contains_absorb. }
  assert (Hqwen : contains "qwen" s || (contains "qwen-7b" s || contains "qwen-14b" s)
                  = contains "qwen" s).
  { rewrite orb_assoc, (contains_absorb "qwen" "qwen-7b" s) by reflexivity.
    now apply contains_absorb. }
  assert (Hchat : contains "chatgpt" s
                  || (contains "chat" s
                      || (contains "gpt" s || (contains "gpt-3.5" s || contains "gpt-4" s)))
                  = contains "chat" s || contains "gpt" s).
  { assert (Hgpt : contains "gpt" s || (contains "gpt-3.5" s || contains "gpt-4" s)
                   = contains "gpt" s).
    { rewrite orb_assoc, (contains_absorb "gpt" "gpt-3.5" s) by reflexivity.
      now apply contains_absorb. }
    rewrite Hgpt, orb_assoc, (orb_comm (contains "chatgpt" s)).
    now rewrite (contains_absorb "chat" "chatgpt" s) by reflexivity. }
  now rewrite Hllama, Hqwen, Hchat.
Qed.

End OrganizeFilesMoreFacts.

Section OrganizerExtras.
Import PyStr PyStrFacts Cli OrganizeFiles OrganizeFilesFacts OrganizeFilesSummary
  OrganizeFilesMoreFacts.

Lemma organizer_balanced_step (output_dir : string) (dry_run : bool)
    (copy_ok : file -> string -> bool) (n : nat) (st : state) (f : file) :
  organizer_balanced dry_run n st ->
  organizer_balanced dry_run (S n) (organize_step output_dir dry_run copy_ok st f).
Proof.
  intros (Hp & Hs & Hu & Ht & Hl & Hc).
  destruct (organize_step_cases output_dir dry_run copy_ok st f)
    as [[entry ->] | (entry & shot & model & six & _ & _ & ->)];
    unfold organizer_balanced; simpl; rewrite ?length_app; simpl.
  - repeat split; try lia; destruct dry_run; simpl in *; lia.
  - rewrite stats_total_insert.
    repeat split; try lia; destruct dry_run; simpl in *; lia.
Qed.

(** X1.  However the files classify and whatever the copies answer, the
    organizer counts every file exactly once: after the loop the number of
    processed files is the number of input files, moved and unclassified
    files add up to it, the list of unclassified files has as many
    entries as its counter, the per-category counters add up to the
    number of moves, one message was logged per file, and outside a dry
    run there is one copy per move. *)
Theorem organize_loop_counts_every_file_once
    (output_dir : string) (dry_run : bool) (copy_ok : file -> string -> bool)
    (text_files : list file) :
  let st := organize_loop output_dir dry_run copy_ok text_files in
  processed_files st = length text_files
  /\ (successful_moves st + stats_unclassified st = length text_files)%nat
  /\ length (unclassified_files st) = stats_unclassified st
  /\ stats_total (stats st) = successful_moves st
  /\ length (log st) = length text_files
  /\ length (copies st) = (if dry_run then 0 else successful_moves st)%nat.
Proof.
  intros st. subst st. unfold organize_loop.
  assert (Hinit : organizer_balanced dry_run 0 init_state).
  { unfold organizer_balanced. simpl. repeat split; try reflexivity.
    now destruct dry_run. }
  assert (Hgen : forall (files : list file) (n : nat) (st : state),
             organizer_balanced dry_run n st ->
             organizer_balanced dry_run (n + length files)
               (fold_left (organize_step output_dir dry_run copy_ok) files st)).
  { induction files as [|f files IH]; intros n st Hst; simpl.
    - now rewrite Nat.add_0_r.
    - replace (n + S (length files))%nat with (S n + length files)%nat by lia.
      apply IH. now apply organizer_balanced_step. }
  exact (Hgen text_files 0%nat init_state Hinit).
Qed.

(** X2.  Every copy the organizer makes takes an input file to the path
    [output_dir/<shot>/<model>/<six digits>.txt] computed from that file's
    name, the two directories being categories of the pattern tables; a
    dry run makes no copy at all. *)
Theorem organizer_copies_only_to_computed_targets
    (output_dir : string) (dry_run : bool) (copy_ok : file -> string -> bool)
    (text_files : list file) :
  let st := organize_loop output_dir dry_run copy_ok text_files in
  (dry_run = true -> copies st = [])
  /\ (forall src dst : string,
        In (src, dst) (copies st) ->
        exists f shot model six,
          In f text_files /\ src = file_path f
          /\ determine_categories (file_name f) = (Some shot, Some model)
          /\ In shot (map fst shot_patterns) /\ In model (map fst model_patterns)
          /\ leftmost_six_digits (file_name f) six
          /\ dst = target_of output_dir shot model six).
Proof.
  intros st. subst st. unfold organize_loop.
  set (good := fun (files : list file) (c : string * string) =>
         exists f shot model six,
           In f files /\ fst c = file_path f
           /\ determine_categories (file_name f) = (Some shot, Some model)
           /\ In shot (map fst shot_patterns) /\ In model (map fst model_patterns)
           /\ leftmost_six_digits (file_name f) six
           /\ snd c = target_of output_dir shot model six).
  assert (Hgen : forall (files seen : list file) (st : state),
             (dry_run = true -> copies st = []) ->
             List.Forall (good seen) (copies st) ->
             let st' := fold_left (organize_step output_dir dry_run copy_ok) files st in
             (dry_run = true -> copies st' = [])
             /\ List.Forall (good (seen ++ files)) (copies st')).
  { induction files as [|f files IH]; intros seen st Hdry Hgood; simpl.
    - split; [exact Hdry | now rewrite app_nil_r].
    - replace (seen ++ f :: files) with ((seen ++ [f]) ++ files)
        by (now rewrite <- app_assoc).
      assert (Hweak : List.Forall (good (seen ++ [f])) (copies st)).
      { eapply List.Forall_impl; [| exact Hgood].
        intros c (g & shot & model & six & Hin & Hrest).
        exists g, shot, model, six. split; [apply in_or_app; now left | exact Hrest]. }
      apply IH.
      + intros Hd.
        destruct (organize_step_cases output_dir dry_run copy_ok st f)
          as [[entry ->] | (entry & shot & model & six & _ & _ & ->)]; simpl.
        * now apply Hdry.
        * rewrite Hd. rewrite (Hdry Hd). reflexivity.
      + destruct (organize_step_cases output_dir dry_run copy_ok st f)
          as [[entry ->] | (entry & shot & model & six & Hcat & Hsix & ->)]; simpl.
        * exact Hweak.
        * apply List.Forall_app. split; [exact Hweak |].
          destruct dry_run; constructor; [| constructor].
          exists f, shot, model, six.
          destruct (determine_categories_in_tables _ _ _ Hcat) as [Hshot Hmodel].
          cbn [fst snd].
          split; [apply in_or_app; right; now left |].
          split; [reflexivity |]. split; [exact Hcat |].
          split; [exact Hshot |]. split; [exact Hmodel |].
          split; [now apply get_six_digit_number_leftmost | reflexivity]. }
  destruct (Hgen text_files [] init_state (fun _ => eq_refl) (List.Forall_nil _))
    as [Hdry Hall].
  split; [exact Hdry |].
  intros src dst Hin. rewrite List.Forall_forall in Hall.
  destruct (Hall _ Hin) as (f & shot & model & six & H1 & H2 & H3 & H4 & H5 & H6 & H7).
  exists f, shot, model, six. simpl in *. repeat split; assumption.
Qed.

Lemma organizer_copies_only_to_computed_targets_witness :
  let f := {| file_path := "in/201301_llama_oneshot.txt";
              file_name := "201301_llama_oneshot.txt" |} in
  copies (organize_loop "out" true (fun _ _ => true) [f]) = [].
Proof.
  intros f.
  apply (proj1 (organizer_copies_only_to_computed_targets "out" true (fun _ _ => true) [f])).
  reflexivity.
Defined.

(** X3.  The model category is decided by four keywords only: it is
    "llama" exactly when "llama" occurs in the filename, "qwen" exactly
    when "qwen" occurs and "llama" does not, "chatgpt" exactly when "chat"
    or "gpt" occurs and neither of the former does, and absent otherwise;
    letter case is ignored, and the longer patterns of the table never
    change the result. *)
Theorem model_category_by_keyword (filename : string) :
  let category := snd (determine_categories filename) in
  let llama := substring_nocase "llama" filename in
  let qwen := substring_nocase "qwen" filename in
  let chat_or_gpt := substring_nocase "chat" filename \/ substring_nocase "gpt" filename in
  (category = Some "llama" <-> llama)
  /\ (category = Some "qwen" <-> ~ llama /\ qwen)
  /\ (category = Some "chatgpt" <-> ~ llama /\ ~ qwen /\ chat_or_gpt)
  /\ (category = None <-> ~ llama /\ ~ qwen /\ ~ chat_or_gpt).
Proof.
  intros category llama qwen chat_or_gpt.
  subst category llama qwen chat_or_gpt.
  unfold determine_categories, substring_nocase. cbn [snd].
  rewrite model_category_keywords.
  change (lower "llama") with "llama". change (lower "qwen") with "qwen".
  change (lower "chat") with "chat". change (lower "gpt") with "gpt".
  rewrite <- !(contains_spec _ (lower filename)).
  destruct (contains "llama" (lower filename)); destruct (contains "qwen" (lower filename));
    destruct (contains "chat" (lower filename)); destruct (contains "gpt" (lower filename));
    simpl; repeat split; intros; try discriminate; try reflexivity;
    try tauto; intuition congruence.
Qed.

End OrganizerExtras.

(** ** Further properties of the document processor *)

Module SummaryExtractorTextFacts.
Import PyStr PyStrFacts SummaryExtractorText.

Lemma scan_capturing (second_suffix : string) (title_found : string -> option bool)
    (paragraphs : list string) (found_title : option string) (found_text : list string) :
  scan second_suffix title_found true paragraphs found_title found_text
  = Some (found_title, found_text ++ captured second_suffix paragraphs).
Proof.
  revert found_text; induction paragraphs as [|text rest IH]; intros found_text.
  - simpl. now rewrite app_nil_r.
  - destruct rest as [|next_text rest'].
    + simpl. reflexivity.
    + change (scan second_suffix title_found true (text :: next_text :: rest')
                found_title found_text)
        with (if looks_like_heading second_suffix next_text
              then Some (found_title, found_text)
              else scan second_suffix title_found true (next_text :: rest') found_title
                     (found_text ++ [text])).
      change (captured second_suffix (text :: next_text :: rest'))
        with (if looks_like_heading second_suffix next_text then []
              else text :: captured second_suffix (next_text :: rest')).
      destruct (looks_like_heading second_suffix next_text).
      * now rewrite app_nil_r.
      * rewrite IH. now rewrite <- app_assoc.
Qed.

Lemma scan_seeking (second_suffix : string) (title_found : string -> option bool)
    (before after : list string) (title : string) :
  List.Forall (fun p => title_found p = Some false) before ->
  title_found title = Some true ->
  scan second_suffix title_found false (before ++ title :: after) None []
  = Some (Some title, captured second_suffix after).
Proof.
  intros Hbefore Htitle. induction Hbefore as [|p before Hp _ IH]; simpl.
  - rewrite Htitle. now rewrite scan_capturing.
  - now rewrite Hp.
Qed.

Lemma scan_no_title (second_suffix : string) (title_found : string -> option bool)
    (paragraphs : list string) :
  List.Forall (fun p => title_found p = Some false) paragraphs ->
  scan second_suffix title_found false paragraphs None [] = Some (None, []).
Proof.
  induction 1 as [|p rest Hp _ IH]; simpl; [reflexivity | now rewrite Hp].
Qed.

(** Where the first title is, when the search never raises. *)
Lemma first_title_split (title_found : string -> option bool) (paragraphs : list string) :
  List.Forall (fun p => title_found p <> None) paragraphs ->
  List.Forall (fun p => title_found p = Some false) paragraphs
  \/ exists before title after,
       paragraphs = before ++ title :: after
       /\ List.Forall (fun p => title_found p = Some false) before
       /\ title_found title = Some true.
Proof.
  induction 1 as [|p rest Hp _ IH]; [left; constructor |].
  destruct (title_found p) as [[|]|] eqn:Hfound; [| | congruence].
  - right. exists [], p, rest. repeat split; [constructor | exact Hfound].
  - destruct IH as [IH | (before & title & after & -> & Hb & Ht)].
    + left. now constructor.
    + right. exists (p :: before), title, after. repeat split; [now constructor | exact Ht].
Qed.

Lemma captured_prefix (second_suffix : string) (paragraphs : list string) :
  exists j : nat,
    captured second_suffix paragraphs = firstn j paragraphs
    /\ (forall i h, (i < j)%nat -> paragraphs !! S i = Some h ->
                    looks_like_heading second_suffix h = false)
    /\ (j = length paragraphs
        \/ exists h, paragraphs !! S j = Some h
                     /\ looks_like_heading second_suffix h = true).
Proof.
  induction paragraphs as [|text rest IH].
  - exists 0%nat. repeat split; [intros; lia | now left].
  - cbn [captured]. destruct rest as [|next_text rest'].
    + exists 1%nat. repeat split; [| now left].
      intros i h Hi Hh. destruct i; discriminate.
    + destruct (looks_like_heading second_suffix next_text) eqn:Hhead.
      * exists 0%nat. repeat split; [intros; lia |].
        right. exists next_text. split; [reflexivity | exact Hhead].
      * destruct IH as (j & Hj & Hbefore & Hstop). exists (S j). repeat split.
        -- rewrite Hj. reflexivity.
        -- intros i h Hi Hh. destruct i as [|i].
           ++ simpl in Hh. injection Hh as <-. exact Hhead.
           ++ apply (Hbefore i h); [lia | exact Hh].
        -- destruct Hstop as [-> | (h & Hh & Hhh)]; [now left |].
           right. exists h. split; [exact Hh | exact Hhh].
Qed.

Lemma captured_empty (second_suffix : string) (paragraphs : list string) :
  captured second_suffix paragraphs = []
  <-> paragraphs = []
      \/ exists h, paragraphs !! 1%nat = Some h
                   /\ looks_like_heading second_suffix h = true.
Proof.
  destruct paragraphs as [|text [|next_text rest]]; cbn [captured].
  - split; [now left | reflexivity].
  - split; [discriminate |]. intros [H | (h & Hh & _)]; discriminate.
  - destruct (looks_like_heading second_suffix next_text) eqn:Hhead.
    + split; [| reflexivity]. intros _. right. exists next_text. now split.
    + split; [discriminate |]. intros [H | (h & Hh & Hhh)]; [discriminate |].
      simpl in Hh. injection Hh as <-. congruence.
Qed.

Lemma take_length (n : nat) (s : string) : (String.length (take n s) <= n)%nat.
Proof.
  revert s; induction n as [|n IH]; intros [|c s]; simpl; try lia.
  specialize (IH s). lia.
Qed.

Lemma take_all (n : nat) (s : string) : (String.length s <= n)%nat -> take n s = s.
Proof.
  revert s; induction n as [|n IH]; intros [|c s]; simpl; intros H;
    try reflexivity; try lia.
  rewrite IH by lia. reflexivity.
Qed.

Lemma take_chars (n : nat) (s : string) (c : ascii) :
  In c (list_ascii_of_string (take n s)) -> In c (list_ascii_of_string s).
Proof.
  revert s; induction n as [|n IH]; intros [|x s]; simpl; try tauto.
  intros [-> | H]; [now left | right; now apply IH].
Qed.

Lemma remove_reserved_chars (s : string) (c : ascii) :
  In c (list_ascii_of_string (remove_reserved s)) ->
  is_reserved c = false /\ In c (list_ascii_of_string s).
Proof.
  induction s as [|x s IH]; simpl; [tauto |].
  destruct (is_reserved x) eqn:Hx; simpl.
  - intros H. destruct (IH H). split; [assumption | now right].
  - intros [<- | H]; [split; [exact Hx | now left] |].
    destruct (IH H). split; [assumption | now right].
Qed.

Lemma remove_reserved_id (s : string) :
  (forall c, In c (list_ascii_of_string s) -> is_reserved c = false) ->
  remove_reserved s = s.
Proof.
  induction s as [|x s IH]; simpl; intros H; [reflexivity |].
  rewrite (H x (or_introl eq_refl)). rewrite IH; [reflexivity |].
  intros c Hc. apply H. now right.
Qed.

End SummaryExtractorTextFacts.

Module SummaryExtractorNumberFacts.
Import PyStr PyStrFacts OrganizeFilesFacts SummaryExtractor.

Lemma drop_prefix (a b : string) : drop (String.length a) (a +:+ b) = b.
Proof. induction a as [|c a IH]; simpl; [now destruct b | exact IH]. Qed.

(** [get_document_number] answers for the stems that are six digits, one
    final newline being allowed by [$], and for no other. *)
Lemma get_document_number_spec (d : doc) :
  truthy (get_document_number d) = true
  <-> exists digits,
        String.length digits = 6%nat /\ all_digits digits = true
        /\ (doc_stem d = digits \/ doc_stem d = digits +:+ newline).
Proof.
  unfold get_document_number. split.
  - destruct (take_digits 6 (doc_stem d)) as [digits|] eqn:Htake; [| discriminate].
    apply take_digits_spec in Htake. destruct Htake as (b & Hstem & Hlen & Hall).
    rewrite Hstem. rewrite <- Hlen at 1. rewrite drop_prefix.
    unfold at_end. destruct (String.eqb b "") eqn:Hb.
    + apply String.eqb_eq in Hb. subst b. intros _. exists digits.
      repeat split; try assumption. left. apply append_nil_r.
    + destruct (String.eqb b newline) eqn:Hn; [| discriminate].
      apply String.eqb_eq in Hn. subst b. intros _. exists digits.
      repeat split; try assumption. now right.
  - intros (digits & Hlen & Hall & Hstem).
    assert (Hform : exists b, doc_stem d = digits +:+ b /\ at_end b = true).
    { destruct Hstem as [-> | ->]; [exists EmptyString | exists newline];
        (split; [| reflexivity]); [now rewrite append_nil_r | reflexivity]. }
    destruct Hform as (b & Hd & Hend).
    assert (Htake : take_digits 6 (doc_stem d) = Some digits).
    { apply take_digits_spec. exists b. repeat split; assumption. }
    rewrite Htake, Hd. rewrite <- Hlen at 1. rewrite drop_prefix, Hend.
    destruct digits as [|c rest]; [discriminate Hlen | reflexivity].
Qed.

End SummaryExtractorNumberFacts.

Section ExtractorExtras.
Import PyStr PyStrFacts Cli SummaryExtractor SummaryExtractorText SummaryExtractorTextFacts.

(** X4.  When [extract_text_under_title] returns a text, the title it
    returns is the first paragraph the pattern is found in, and the text
    is made of the paragraphs that follow it, joined by newlines, up to but
    excluding the paragraph that stands in front of the first
    heading-like paragraph; the paragraph that follows the title directly
    is never tested for being a heading. *)
Theorem extracted_text_is_the_block_after_the_first_title
    (second_suffix : string) (title_found : string -> option bool)
    (texts : list string) (text : string) (found_title : option string) :
  extract_text_under_title second_suffix title_found (Some texts)
  = (Some text, found_title) ->
  exists before title after j,
    stripped_paragraphs texts = before ++ title :: after
    /\ found_title = Some title
    /\ title_found title = Some true
    /\ List.Forall (fun p => title_found p = Some false) before
    /\ text = join_lines (firstn j after)
    /\ (0 < j)%nat
    /\ (forall i h, (i < j)%nat -> after !! S i = Some h ->
                    looks_like_heading second_suffix h = false)
    /\ (j = length after
        \/ exists h, after !! S j = Some h
                     /\ looks_like_heading second_suffix h = true).
Proof.
  unfold extract_text_under_title. set (paragraphs := stripped_paragraphs texts).
  intros Hresult.
  assert (Hsplit : forall ps : list string,
             (exists r, scan second_suffix title_found false ps None [] = Some r) ->
             List.Forall (fun p => title_found p = Some false) ps
             \/ exists before title after,
                  ps = before ++ title :: after
                  /\ List.Forall (fun p => title_found p = Some false) before
                  /\ title_found title = Some true).
  { induction ps as [|p rest IH]; [left; constructor |]. simpl.
    destruct (title_found p) as [[|]|] eqn:Hp.
    - intros _. right. exists [], p, rest. repeat split; [constructor | exact Hp].
    - intros Hr. destruct (IH Hr) as [Hall | (before & title & after & -> & Hb & Ht)].
      + left. now constructor.
      + right. exists (p :: before), title, after.
        repeat split; [now constructor | exact Ht].
    - intros [r Hr]. discriminate. }
  destruct (scan second_suffix title_found false paragraphs None []) as [[ft lines]|] eqn:Hscan;
    [| discriminate].
  destruct (Hsplit paragraphs (ex_intro _ _ Hscan))
    as [Hnone | (before & title & after & Hps & Hbefore & Htitle)].
  - rewrite (scan_no_title _ _ _ Hnone) in Hscan. injection Hscan as <- <-. discriminate.
  - rewrite Hps, (scan_seeking _ _ _ _ _ Hbefore Htitle) in Hscan.
    injection Hscan as <- <-.
    destruct (captured_prefix second_suffix after) as (j & Hj & Hquiet & Hstop).
    destruct (captured second_suffix after) as [|line lines] eqn:Hcap; [discriminate |].
    injection Hresult as <- <-.
    exists before, title, after, j. repeat split; try assumption.
    + rewrite <- Hj. reflexivity.
    + destruct j; [discriminate Hj | lia].
Qed.

Lemma extracted_text_is_the_block_after_the_first_title_witness :
  let title_found := fun p : string => Some (String.eqb p "Summary") in
  let texts := ["Report"; " Summary "; "The vessel grounded"; "";
                "The crew was rescued"; "No one was hurt"; "Causes:"; "Fatigue"] in
  exists before title after j,
    stripped_paragraphs texts = before ++ title :: after
    /\ Some "Summary" = Some title
    /\ title_found title = Some true
    /\ List.Forall (fun p => title_found p = Some false) before
    /\ "The vessel grounded" +:+ newline +:+ "The crew was rescued"
       = join_lines (firstn j after)
    /\ (0 < j)%nat
    /\ (forall i h, (i < j)%nat -> after !! S i = Some h ->
                    looks_like_heading "#" h = false)
    /\ (j = length after
        \/ exists h, after !! S j = Some h /\ looks_like_heading "#" h = true).
Proof.
  intros title_found texts.
  apply (extracted_text_is_the_block_after_the_first_title "#" title_found texts).
  reflexivity.
Defined.

(** X5.  For a document that opens and a pattern that does not make the
    search raise, [extract_text_under_title] returns nothing in exactly
    three cases: the pattern is found in no paragraph, the first paragraph
    it is found in is the last one, or the second paragraph after that
    title looks like a heading (so a section of one paragraph that is
    followed by a heading is lost). *)
Theorem extraction_returns_nothing_exactly_when
    (second_suffix : string) (title_found : string -> option bool)
    (texts : list string) :
  List.Forall (fun p => title_found p <> None) (stripped_paragraphs texts) ->
  (extract_text_under_title second_suffix title_found (Some texts) = (None, None)
   <-> List.Forall (fun p => title_found p = Some false) (stripped_paragraphs texts)
       \/ exists before title after,
            stripped_paragraphs texts = before ++ title :: after
            /\ List.Forall (fun p => title_found p = Some false) before
            /\ title_found title = Some true
            /\ (after = []
                \/ exists h, after !! 1%nat = Some h
                             /\ looks_like_heading second_suffix h = true)).
Proof.
  intros Hok. unfold extract_text_under_title.
  destruct (first_title_split title_found _ Hok)
    as [Hnone | (before & title & after & Hps & Hbefore & Htitle)].
  - rewrite (scan_no_title _ _ _ Hnone). split; [now left | reflexivity].
  - rewrite Hps, (scan_seeking _ _ _ _ _ Hbefore Htitle).
    destruct (captured second_suffix after) as [|line lines] eqn:Hcap.
    + split; [| reflexivity]. intros _. right. exists before, title, after.
      repeat split; try assumption. now apply (captured_empty second_suffix).
    + split; [discriminate |].
      intros [Hnone | (before' & title' & after' & Hps' & Hbefore' & Htitle' & Hempty)].
      * exfalso. rewrite List.Forall_forall in Hnone.
        assert (Hin : In title (before ++ title :: after)) by (apply in_or_app; right; now left).
        specialize (Hnone title Hin). congruence.
      * exfalso.
        assert (Hsame : before' = before /\ title' = title /\ after' = after).
        { clear - Hps' Hbefore Htitle Hbefore' Htitle'.
          revert before' Hps' Hbefore'.
          induction Hbefore as [|p before Hp _ IH]; intros before' Heq Hb'.
          - destruct Hb' as [|p' before' Hp' Hb']; simpl in Heq.
            + injection Heq as -> ->. repeat split.
            + injection Heq as -> _. congruence.
          - destruct Hb' as [|p' before' Hp' Hb']; simpl in Heq.
            + injection Heq as -> _. congruence.
            + injection Heq as -> Heq. destruct (IH before' Heq Hb') as (-> & -> & ->).
              repeat split. }
        destruct Hsame as (_ & _ & ->).
        apply (captured_empty second_suffix) in Hempty. congruence.
Qed.

Lemma extraction_returns_nothing_exactly_when_witness :
  let title_found := fun p : string => Some (String.eqb p "Summary") in
  extract_text_under_title "#" title_found
    (Some ["Summary"; "The vessel grounded."; "Causes:"; "Fatigue."])
  = (None, None).
Proof.
  intros title_found.
  apply (extraction_returns_nothing_exactly_when "#" title_found
           ["Summary"; "The vessel grounded."; "Causes:"; "Fatigue."]).
  - repeat constructor; discriminate.
  - right. exists [], "Summary", ["The vessel grounded."; "Causes:"; "Fatigue."].
    repeat split; [constructor |]. right. exists "Causes:". split; reflexivity.
Defined.

(** X6.  The title part of an output file name has at most 50 characters
    and none of the nine reserved characters (angle brackets, colon, double
    quote, slash, backslash, bar, question mark, star); every character it has
    comes from the title; cleaning a clean title of at most 50 characters
    changes nothing, so cleaning twice is cleaning once. *)
Theorem clean_title_is_short_and_safe (title : string) :
  (String.length (clean_title title) <= 50)%nat
  /\ (forall c : ascii,
        In c (list_ascii_of_string (clean_title title)) ->
        is_reserved c = false /\ In c (list_ascii_of_string title))
  /\ clean_title (clean_title title) = clean_title title.
Proof.
  assert (Hchars : forall c : ascii,
             In c (list_ascii_of_string (clean_title title)) ->
             is_reserved c = false /\ In c (list_ascii_of_string title)).
  { intros c Hc. unfold clean_title in Hc. apply take_chars in Hc.
    now apply remove_reserved_chars. }
  split; [apply take_length | split; [exact Hchars |]].
  unfold clean_title at 1.
  rewrite remove_reserved_id by (intros c Hc; now apply Hchars).
  apply take_all, take_length.
Qed.

(** X7.  [process_documents] handles exactly the documents of the glob
    whose stem is six digits and nothing more (but for one final newline,
    which the anchor of the pattern lets through); it tries every pattern
    on each of them, counts one extraction per file it saved, and, once
    such a document exists, returns [True] whatever the number of
    extractions, zero included. *)
Theorem process_documents_counts
    (patterns : list string) (extract : doc -> string -> option (string * string))
    (save : doc -> string -> bool) (globbed : list doc) :
  let doc_files := find_docx_files globbed in
  let result := process_documents patterns extract save globbed in
  let is_saved := fun e => match e with InfoSaved _ _ => true | _ => false end in
  (forall d : doc,
     In d doc_files
     <-> In d globbed
         /\ exists digits,
              String.length digits = 6%nat /\ all_digits digits = true
              /\ (doc_stem d = digits \/ doc_stem d = digits +:+ newline))
  /\ (doc_files <> [] ->
      fst result = Returned true
      /\ processed_files (snd result) = length doc_files
      /\ successful_extractions (snd result) = length (List.filter is_saved (log (snd result)))
      /\ (successful_extractions (snd result) <= length doc_files * length patterns)%nat
      /\ length (log (snd result)) = (length doc_files * S (length patterns))%nat).
Proof.
  intros doc_files result is_saved. split.
  - intros d. subst doc_files. unfold find_docx_files.
    rewrite filter_In, SummaryExtractorNumberFacts.get_document_number_spec. reflexivity.
  - intros Hne. subst result. unfold process_documents. fold doc_files.
    destruct doc_files as [|d0 rest] eqn:Hdocs; [congruence |]. rewrite <- Hdocs.
    cbn [fst snd]. split; [reflexivity |].
    set (inv := fun (n : nat) (st : state) =>
           processed_files st = n
           /\ successful_extractions st = length (List.filter is_saved (log st))
           /\ (successful_extractions st <= n * length patterns)%nat
           /\ length (log st) = (n * S (length patterns))%nat).
    assert (Hpat : forall (d : doc) (ps : list string) (st : state),
               let st' := fold_left (pattern_step extract save d) ps st in
               processed_files st' = processed_files st
               /\ (successful_extractions st' + length (List.filter is_saved (log st))
                   = successful_extractions st + length (List.filter is_saved (log st')))%nat
               /\ (successful_extractions st' <= successful_extractions st + length ps)%nat
               /\ length (log st') = (length (log st) + length ps)%nat).
    { intros d ps. induction ps as [|p ps IH]; intros st; simpl.
      - repeat split; lia.
      - destruct (IH (pattern_step extract save d st p)) as (H1 & H2 & H3 & H4).
        assert (Hstep :
                  processed_files (pattern_step extract save d st p) = processed_files st
                  /\ (successful_extractions (pattern_step extract save d st p)
                      + length (List.filter is_saved (log st))
                      = successful_extractions st
                        + length (List.filter is_saved
                                    (log (pattern_step extract save d st p))))%nat
                  /\ (successful_extractions (pattern_step extract save d st p)
                      <= successful_extractions st + 1)%nat
                  /\ length (log (pattern_step extract save d st p))
                     = (length (log st) + 1)%nat).
        { unfold pattern_step.
          destruct (extract d p) as [[t1 t2]|]; [destruct (truthy (Some t1));
            [destruct (save d p) |] |]; simpl;
            rewrite ?List.filter_app, ?length_app; simpl; repeat split; lia. }
        destruct Hstep as (G1 & G2 & G3 & G4). repeat split; lia. }
    assert (Hdoc : forall (ds : list doc) (n : nat) (st : state),
               inv n st ->
               inv (n + length ds)%nat (fold_left (doc_step patterns extract save) ds st)).
    { induction ds as [|d ds IH]; intros n st Hst; simpl.
      - now rewrite Nat.add_0_r.
      - replace (n + S (length ds))%nat with (S n + length ds)%nat by lia.
        apply IH. destruct Hst as (H1 & H2 & H3 & H4). unfold doc_step.
        destruct (Hpat d patterns
                    {| processed_files := S (processed_files st);
                       successful_extractions := successful_extractions st;
                       log := log st ++ [InfoProcessing (doc_name d)] |})
          as (G1 & G2 & G3 & G4).
        simpl in G1, G2, G3, G4.
        rewrite List.filter_app, length_app in G2. simpl in G2.
        rewrite length_app in G4. simpl in G4.
        unfold inv. repeat split; try lia; nia. }
    destruct (Hdoc doc_files 0%nat
                {| processed_files := 0; successful_extractions := 0; log := [] |})
      as (H1 & H2 & H3 & H4).
    { unfold inv. simpl. repeat split; lia. }
    simpl in H1, H3, H4. repeat split; assumption.
Qed.

Lemma process_documents_counts_witness :
  let d := {| doc_name := "201301.docx"; doc_stem := "201301" |} in
  let e := {| doc_name := "notes.docx"; doc_stem := "notes" |} in
  let result := process_documents ["Summary"; "Causes"] (fun _ _ => None)
                  (fun _ _ => true) [e; d] in
  fst result = Returned true
  /\ processed_files (snd result) = 1%nat
  /\ successful_extractions (snd result) = 0%nat.
Proof.
  intros d e result.
  destruct (proj2 (process_documents_counts ["Summary"; "Causes"] (fun _ _ => None)
                     (fun _ _ => true) [e; d])) as (H1 & H2 & H3 & _).
  - discriminate.
  - split; [exact H1 | split; [exact H2 | etransitivity; [exact H3 | reflexivity]]].
Defined.

End ExtractorExtras.

(** ** Further properties of the pair matcher *)

Module SummaryEvaluationMoreFacts.
Import PyStr PyStrFacts OrganizeFilesFacts SummaryEvaluation SummaryEvaluationFacts
  SummaryEvaluationOutcomes.

Lemma drop_append (a b : string) : drop (String.length a) (a +:+ b) = b.
Proof. induction a as [|c a IH]; simpl; [now destruct b | exact IH]. Qed.

Lemma at_end_spec (s : string) : at_end s = true <-> s = EmptyString \/ s = newline.
Proof.
  unfold at_end. rewrite orb_true_iff, !String.eqb_eq. reflexivity.
Qed.

(** The identifier and what follows the extension, when the name is
    matched from its first character on. *)
Lemma match_id_txt_spec (s identifier : string) :
  match_id_txt s = Some identifier
  <-> exists tail,
        s = identifier +:+ ".txt" +:+ tail
        /\ (tail = EmptyString \/ tail = newline)
        /\ String.length identifier = 6%nat /\ all_digits identifier = true.
Proof.
  unfold match_id_txt. split.
  - destruct (take_digits 6 s) as [d|] eqn:Htake; [| discriminate].
    apply take_digits_spec in Htake. destruct Htake as (b & -> & Hlen & Hall).
    assert (Hd : drop 6 (d +:+ b) = b) by (rewrite <- Hlen; apply drop_append).
    rewrite !Hd.
    destruct (starts_with ".txt" b) eqn:Hstart; [| discriminate].
    apply starts_with_spec in Hstart. destruct Hstart as [c ->].
    change (drop 4 (".txt" +:+ c)) with c.
    destruct (at_end c) eqn:Hend; [| discriminate].
    intros [= <-]. exists c. repeat split; try assumption. now apply at_end_spec.
  - intros (tail & -> & Htail & Hlen & Hall).
    assert (Htake : take_digits 6 (identifier +:+ ".txt" +:+ tail) = Some identifier).
    { apply take_digits_spec. exists (".txt" +:+ tail). repeat split; assumption. }
    assert (Hd : drop 6 (identifier +:+ ".txt" +:+ tail) = ".txt" +:+ tail)
      by (rewrite <- Hlen; apply drop_append).
    rewrite Htake, !Hd.
    assert (Hstart : starts_with ".txt" (".txt" +:+ tail) = true).
    { apply starts_with_spec. now exists tail. }
    rewrite Hstart. change (drop 4 (".txt" +:+ tail)) with tail.
    apply at_end_spec in Htail. now rewrite Htail.
Qed.

Lemma reference_search_here (s identifier : string) :
  match_id_txt s = Some identifier -> reference_search s = Some identifier.
Proof.
  intros H. destruct s; [discriminate H |]. cbn [reference_search]. now rewrite H.
Qed.

(** No name is matched both from its first and from a later character. *)
Lemma match_id_txt_only_at_the_end (c : ascii) (pre identifier tail : string) :
  (tail = EmptyString \/ tail = newline) ->
  String.length identifier = 6%nat -> all_digits identifier = true ->
  match_id_txt (String c (pre +:+ identifier +:+ ".txt" +:+ tail)) = None.
Proof.
  intros Htail Hlen Hall.
  destruct (match_id_txt (String c (pre +:+ identifier +:+ ".txt" +:+ tail)))
    as [id'|] eqn:Hm; [| reflexivity].
  exfalso. apply match_id_txt_spec in Hm.
  destruct Hm as (tail' & Heq & Htail' & Hlen' & Hall').
  assert (Hl : String.length (String c (pre +:+ identifier +:+ ".txt" +:+ tail))
               = String.length (id' +:+ ".txt" +:+ tail')) by now rewrite Heq.
  simpl in Hl. rewrite !length_append in Hl. simpl in Hl.
  assert (Hcase : pre = EmptyString /\ tail = EmptyString /\ tail' = newline).
  { destruct Htail as [-> | ->]; destruct Htail' as [-> | ->]; simpl in Hl;
      try lia; destruct pre; simpl in Hl; try lia. repeat split. }
  destruct Hcase as (-> & -> & ->). simpl in Heq.
  destruct identifier as [|e1 [|e2 [|e3 [|e4 [|e5 [|e6 [|e7 rest]]]]]]];
    try discriminate Hlen.
  destruct id' as [|d1 [|d2 [|d3 [|d4 [|d5 [|d6 [|d7 rest']]]]]]];
    try discriminate Hlen'.
  simpl in Heq. discriminate Heq.
Qed.

End SummaryEvaluationMoreFacts.

Section PairMatcherExtras.
Import PyStr PyStrFacts OrganizeFilesFacts SummaryEvaluation SummaryEvaluationFacts
  SummaryEvaluationOutcomes SummaryEvaluationMoreFacts.

(** X8.  The identifier of a reference file is the six digits that stand
    directly in front of a final ".txt" (one newline may follow the
    extension): a name has an identifier exactly when it ends that way,
    whatever comes before, further digits included. *)
Theorem reference_identifier_is_the_digits_before_the_extension
    (ref_file identifier : string) :
  reference_search ref_file = Some identifier
  <-> exists before tail,
        ref_file = before +:+ identifier +:+ ".txt" +:+ tail
        /\ (tail = EmptyString \/ tail = newline)
        /\ String.length identifier = 6%nat /\ all_digits identifier = true.
Proof.
  split.
  - induction ref_file as [|c rest IH]; cbn [reference_search].
    + destruct (match_id_txt "") eqn:Hm; [| discriminate].
      intros [= ->]. apply match_id_txt_spec in Hm.
      destruct Hm as (tail & Heq & Hrest). exists EmptyString, tail. now split.
    + destruct (match_id_txt (String c rest)) as [id'|] eqn:Hm.
      * intros [= ->]. apply match_id_txt_spec in Hm.
        destruct Hm as (tail & Heq & Hrest). exists EmptyString, tail. now split.
      * intros Hrest. destruct (IH Hrest) as (before & tail & -> & Hmore).
        exists (String c before), tail. split; [reflexivity | exact Hmore].
  - intros (before & tail & -> & Htail & Hlen & Hall).
    induction before as [|c before IH].
    + apply reference_search_here. apply match_id_txt_spec.
      exists tail. repeat split; assumption.
    + change (String c before +:+ identifier +:+ ".txt" +:+ tail)
        with (String c (before +:+ identifier +:+ ".txt" +:+ tail)).
      cbn [reference_search].
      now rewrite (match_id_txt_only_at_the_end c before identifier tail Htail Hlen Hall).
Qed.

(** X9.  A generated file is accepted exactly when its whole name is six
    digits followed by ".txt" (one newline may follow), the digits being
    its identifier; such a name, read as a reference file, has the same
    identifier. *)
Theorem generated_name_is_identifier_dot_txt (file identifier : string) :
  (generated_match file = Some identifier
   <-> (file = identifier +:+ ".txt" \/ file = identifier +:+ ".txt" +:+ newline)
       /\ String.length identifier = 6%nat /\ all_digits identifier = true)
  /\ (generated_match file = Some identifier -> reference_search file = Some identifier).
Proof.
  split; [| apply reference_search_here].
  unfold generated_match. rewrite match_id_txt_spec. split.
  - intros (tail & -> & [-> | ->] & Hrest); (split; [| exact Hrest]).
    + left. now rewrite append_nil_r.
    + now right.
  - intros ([-> | ->] & Hrest).
    + exists EmptyString. rewrite append_nil_r. repeat split; try apply Hrest. now left.
    + exists newline. repeat split; try apply Hrest. now right.
Qed.

Lemma generated_name_is_identifier_dot_txt_witness :
  reference_search "201301.txt" = Some "201301".
Proof.
  apply (proj2 (generated_name_is_identifier_dot_txt "201301.txt" "201301")).
  reflexivity.
Defined.

(** X10.  A generated file that has a readable, non-blank reference is
    paired wherever it lies: under at least two directories its learning
    mode and model are the first two of them; with fewer (the file lies in
    the base directory or one level below) a warning about the directory
    structure is printed, and the pair is appended all the same, with
    "Unknown" for both. *)
Theorem pair_takes_mode_and_model_from_the_path
    (generated_base_dir : string) (path_exists : string -> bool)
    (read_text : string -> option string) (reference_mapping : gmap string string)
    (d : walk_dir) (st : list summary_pair * list message)
    (file identifier ref tg tr : string) :
  generated_match file = Some identifier ->
  reference_mapping !! identifier = Some ref ->
  ref <> EmptyString ->
  path_exists ref = true ->
  read_text (path_join (root_of generated_base_dir d) file) = Some tg ->
  read_text ref = Some tr ->
  strip tg <> EmptyString ->
  strip tr <> EmptyString ->
  let '(mode, model, warning) :=
    mode_and_model (path_join (root_of generated_base_dir d) file) (rel_dirs d) in
  file_step generated_base_dir path_exists read_text reference_mapping d st file
  = (fst st ++ [ {| Generated_Summary := strip tg; Reference_Summary := strip tr;
                    Learning_Mode := mode; Model := model |} ],
     snd st ++ warning).
Proof.
  intros Hmatch Href Hne Hex Hrg Hrr Hsg Hsr. destruct st as [pairs printed].
  apply String.eqb_neq in Hsg. apply String.eqb_neq in Hsr.
  unfold file_step, mode_and_model.
  rewrite Hmatch, Href, Hrg, Hrr, (truthy_nonempty _ Hne), Hex, Hsg, Hsr.
  destruct (rel_dirs d) as [|a [|b [|c l]]]; simpl; rewrite ?app_nil_r; reflexivity.
Qed.

Lemma pair_takes_mode_and_model_from_the_path_witness :
  file_step "gen" (fun _ => true)
    (fun p : string =>
       if String.eqb p "gen/100001.txt" then Some "generated text"
       else if String.eqb p "refs/ref_100001.txt" then Some "reference text"
       else None)
    {["100001" := "refs/ref_100001.txt"]}
    {| rel_dirs := []; dir_files := ["100001.txt"] |} ([], []) "100001.txt"
  = ([ {| Generated_Summary := "generated text"; Reference_Summary := "reference text";
          Learning_Mode := "Unknown"; Model := "Unknown" |} ],
     [WarnUnexpectedStructure "gen/100001.txt"]).
Proof.
  apply (pair_takes_mode_and_model_from_the_path "gen" (fun _ => true) _
           {["100001" := "refs/ref_100001.txt"]}
           {| rel_dirs := []; dir_files := ["100001.txt"] |} ([], []) "100001.txt"
           "100001" "refs/ref_100001.txt" "generated text" "reference text");
    try reflexivity; discriminate.
Defined.

(** X11.  Every file of the walk whose name is accepted as a generated
    summary ends in exactly one way: it contributes one pair, or one
    message saying why it did not (reference not found, a text that could
    not be read, an empty generated or reference summary).  Files with
    other names leave no trace. *)
Theorem every_generated_file_is_paired_or_reported
    (reference_dir generated_base_dir : string) (path_exists : string -> bool)
    (read_text : string -> option string) (listing : list string) (walk : list walk_dir) :
  let result :=
    read_summaries reference_dir generated_base_dir path_exists read_text listing walk in
  (length (fst result) + length (List.filter is_outcome (snd result))
   = length (generated_files walk))%nat.
Proof.
  intros result. subst result. unfold read_summaries.
  destruct (scan_references reference_dir listing) as [mp printed] eqn:Hscan.
  assert (Hprinted : List.filter is_outcome printed = []).
  { assert (Hgen : forall (l : list string) (st : gmap string string * list message),
               List.filter is_outcome (snd st) = [] ->
               List.filter is_outcome (snd (fold_left (scan_step reference_dir) l st)) = []).
    { induction l as [|f l IH]; intros st Hst; [exact Hst |]. cbn [fold_left].
      apply IH. destruct st as [m p]. unfold scan_step. simpl in Hst.
      destruct (reference_search f) as [i|]; [destruct (m !! i) |]; simpl;
        rewrite ?List.filter_app, ?Hst; reflexivity. }
    specialize (Hgen listing (∅, []) eq_refl).
    unfold scan_references in Hscan. now rewrite Hscan in Hgen. }
  set (measure := fun st : list summary_pair * list message =>
         (length (fst st) + length (List.filter is_outcome (snd st)))%nat).
  assert (Hfile : forall (d : walk_dir) (st : list summary_pair * list message)
                         (file : string),
             measure (file_step generated_base_dir path_exists read_text mp d st file)
             = (measure st + (if is_generated file then 1 else 0))%nat).
  { intros d [pairs msgs] file. unfold measure, file_step, is_generated.
    destruct (generated_match file) as [identifier|]; [| simpl; lia].
    destruct (rel_dirs d ++ [file]) as [|a [|b [|c l]]];
      destruct (mp !! identifier) as [ref|];
      try destruct (truthy (Some ref) && path_exists ref);
      try destruct (read_text _) as [tg|];
      try destruct (read_text ref) as [tr|];
      try destruct (String.eqb (strip tg) ""); try destruct (String.eqb (strip tr) "");
      simpl; rewrite ?List.filter_app, ?length_app; simpl; lia. }
  assert (Hdir : forall (files : list string) (d : walk_dir)
                        (st : list summary_pair * list message),
             measure (fold_left (file_step generated_base_dir path_exists read_text mp d)
                        files st)
             = (measure st + length (List.filter is_generated files))%nat).
  { induction files as [|f files IH]; intros d st; simpl; [lia |].
    rewrite IH, Hfile. destruct (is_generated f); simpl; lia. }
  assert (Hwalk : forall (w : list walk_dir) (st : list summary_pair * list message),
             measure (fold_left (dir_step generated_base_dir path_exists read_text mp) w st)
             = (measure st + length (generated_files w))%nat).
  { induction w as [|d w IH]; intros st; simpl; [lia |].
    rewrite IH. unfold dir_step. rewrite Hdir. unfold generated_files. simpl.
    rewrite length_app. lia. }
  specialize (Hwalk walk ([], printed)). unfold measure in Hwalk. simpl in Hwalk.
  rewrite Hprinted in Hwalk. exact Hwalk.
Qed.

End PairMatcherExtras.

(** ** Further properties of the metric script *)

Module AutomaticMetricFilesFacts.
Import PyStr PyStrFacts AutomaticMetric AutomaticMetricFacts AutomaticMetricFiles.

Lemma rev_app_append (s acc : string) : String.rev_app s acc = String.rev s +:+ acc.
Proof.
  unfold String.rev. revert acc. induction s as [|c s IH]; intros acc; simpl;
    [reflexivity |].
  rewrite (IH (String c acc)), (IH (String c "")), append_assoc. reflexivity.
Qed.

Lemma rev_append (a b : string) : String.rev (a +:+ b) = String.rev b +:+ String.rev a.
Proof.
  induction a as [|c a IH].
  - simpl. now rewrite append_nil_r.
  - change (String.rev (String c a +:+ b)) with (String.rev_app (a +:+ b) (String c "")).
    change (String.rev (String c a)) with (String.rev_app a (String c "")).
    rewrite !rev_app_append, IH, append_assoc. reflexivity.
Qed.

Lemma rev_involutive (s : string) : String.rev (String.rev s) = s.
Proof.
  induction s as [|c s IH]; [reflexivity |].
  change (String c s) with (String c "" +:+ s) at 1.
  rewrite rev_append, rev_append, IH. reflexivity.
Qed.

Lemma ends_with_spec (p s : string) :
  ends_with p s = true <-> exists a, s = a +:+ p.
Proof.
  unfold ends_with. rewrite starts_with_spec. split.
  - intros [c Hc]. exists (String.rev c).
    rewrite <- (rev_involutive s), Hc, rev_append, rev_involutive. reflexivity.
  - intros [a ->]. exists (String.rev a). apply rev_append.
Qed.

Lemma substring_skip (a b : string) (m : nat) :
  String.substring (String.length a) m (a +:+ b) = String.substring 0 m b.
Proof. induction a as [|c a IH]; simpl; [reflexivity | exact IH]. Qed.

Lemma substring_prefix (a b : string) :
  String.substring 0 (String.length a) (a +:+ b) = a.
Proof.
  induction a as [|c a IH]; simpl; [now destruct b | now rewrite IH].
Qed.

Lemma split_at (q : string) (k : nat) :
  (k <= String.length q)%nat ->
  exists a b, q = a +:+ b /\ String.length a = k.
Proof.
  revert k; induction q as [|c q IH]; intros k Hk.
  - exists EmptyString, EmptyString. simpl in *. split; [reflexivity | lia].
  - destruct k as [|k].
    + exists EmptyString, (String c q). now split.
    + simpl in Hk. destruct (IH k ltac:(lia)) as (a & b & -> & Hlen).
      exists (String c a), b. simpl. split; [reflexivity | now rewrite Hlen].
Qed.

(** The slice [[-10:-4]] of a name of ten characters or more: the six
    characters in front of the last four. *)
Lemma slice_six_before_four (before identifier extension : string) :
  String.length identifier = 6%nat -> String.length extension = 4%nat ->
  slice (before +:+ identifier +:+ extension) (-10) (-4) = identifier.
Proof.
  intros Hid Hext. unfold slice. rewrite !length_append, Hid, Hext.
  assert (H1 : slice_bound (String.length before + (6 + 4)) (-10) = String.length before)
    by (unfold slice_bound; simpl; lia).
  assert (H2 : slice_bound (String.length before + (6 + 4)) (-4)
               = (String.length before + 6)%nat)
    by (unfold slice_bound; simpl; lia).
  rewrite H1, H2.
  replace (String.length before + 6 - String.length before)%nat
    with (String.length identifier) by lia.
  rewrite substring_skip. apply substring_prefix.
Qed.

(** The same slice of a shorter name: all but the last four characters. *)
Lemma slice_short (q extension : string) :
  (String.length q < 6)%nat -> String.length extension = 4%nat ->
  slice (q +:+ extension) (-10) (-4) = q.
Proof.
  intros Hq Hext. unfold slice. rewrite !length_append, Hext.
  assert (H1 : slice_bound (String.length q + 4) (-10) = 0%nat)
    by (unfold slice_bound; simpl; lia).
  assert (H2 : slice_bound (String.length q + 4) (-4) = String.length q)
    by (unfold slice_bound; simpl; lia).
  rewrite H1, H2, Nat.sub_0_r. apply substring_prefix.
Qed.

Lemma matches_target_spec (identifier ref_file : string) :
  String.length identifier = 6%nat ->
  matches_target identifier ref_file = true
  <-> exists ref_before, ref_file = ref_before +:+ identifier +:+ ".txt".
Proof.
  intros Hid. unfold matches_target.
  rewrite andb_true_iff, String.eqb_eq, ends_with_spec. split.
  - intros [[q ->] Hslice].
    destruct (Nat.lt_ge_cases (String.length q) 6) as [Hshort | Hlong].
    + rewrite slice_short in Hslice by (try exact Hshort; reflexivity). subst q. lia.
    + destruct (split_at q (String.length q - 6) ltac:(lia)) as (a & b & -> & Hlen).
      rewrite length_append in Hlen, Hlong.
      rewrite append_assoc in Hslice.
      rewrite slice_six_before_four in Hslice by (try reflexivity; lia).
      subst b. exists a. now rewrite append_assoc.
  - intros [ref_before ->]. split.
    + exists (ref_before +:+ identifier). now rewrite append_assoc.
    + now apply slice_six_before_four.
Qed.

(** The sum of the scores is rounded: a score below half a unit in the
    last place of the others is lost. *)
Example py_sum_rounds :
  (Binary64.value (py_sum [0x1p-60; 1]%float) == 1)%Q
  /\ (Binary64.value (py_sum [1; 0x1p-60]%float) == 1)%Q.
Proof. split; vm_compute; reflexivity. Qed.


Section ScoringFacts.
Variable reference_dir : string.
Variable path_exists : string -> bool.
Variable listdir : string -> option (list string).
Variable metrics : string -> string -> option (list float).





End ScoringFacts.

End AutomaticMetricFilesFacts.

Section MetricExtras.
Import PyStr PyStrFacts AutomaticMetric AutomaticMetricFacts AutomaticMetricFiles
  AutomaticMetricFilesFacts.

(** X12.  For a target file whose name has ten characters or more, the
    reference files found are, in the order of the directory listing, the
    files of the reference directory whose names end in the same six
    characters followed by ".txt", the six characters being those in front
    of the last four characters of the target name.  Nothing requires them
    to be digits. *)
Theorem reference_files_share_the_six_characters
    (reference_dir : string) (listing : list string)
    (before identifier extension ref_path : string) :
  String.length identifier = 6%nat ->
  String.length extension = 4%nat ->
  In ref_path
     (find_reference_file reference_dir listing (before +:+ identifier +:+ extension))
  <-> exists ref_before,
        In (ref_before +:+ identifier +:+ ".txt") listing
        /\ ref_path
           = SummaryEvaluation.path_join reference_dir (ref_before +:+ identifier +:+ ".txt").
Proof.
  intros Hid Hext. unfold find_reference_file.
  rewrite (slice_six_before_four _ _ _ Hid Hext), in_map_iff. split.
  - intros (ref_file & <- & Hin). apply filter_In in Hin. destruct Hin as [Hin Hm].
    apply (matches_target_spec _ _ Hid) in Hm. destruct Hm as [ref_before ->].
    now exists ref_before.
  - intros (ref_before & Hin & ->). exists (ref_before +:+ identifier +:+ ".txt").
    split; [reflexivity |]. apply filter_In. split; [exact Hin |].
    apply (matches_target_spec _ _ Hid). now exists ref_before.
Qed.

Lemma reference_files_share_the_six_characters_witness :
  In "refs/report_summary.txt"
     (find_reference_file "refs" ["100001.txt"; "report_summary.txt"] "my_summary.txt").
Proof.
  apply (reference_files_share_the_six_characters "refs"
           ["100001.txt"; "report_summary.txt"] "my_s" "ummary" ".txt"
           "refs/report_summary.txt" eq_refl eq_refl).
  exists "report_s". split; [right; left; reflexivity | reflexivity].
Defined.

(** X13.  Records with equal sums are ranked in the order in which they
    stand in [results]: the earlier one receives the smaller rank. *)
Theorem equal_sums_are_ranked_in_input_order
    (results : list result) (i j : nat) (a b : result) :
  rank_results results !! i = Some a ->
  rank_results results !! j = Some b ->
  (i < j)%nat ->
  (sum a == sum b)%Q ->
  exists ra rb, rank a = Some ra /\ rank b = Some rb /\ (ra < rb)%nat.
Proof.
  intros Ha Hb Hij Heq.
  destruct (rank_results_inv _ _ _ Ha) as (r & p & Hr & Hp & ->).
  destruct (rank_results_inv _ _ _ Hb) as (s & q & Hs & Hq & ->).
  simpl in Heq. exists (S p), (S q). repeat split.
  assert (Hbefore : placed_before (i, sum r) (j, sum s)) by (right; now split).
  pose proof (sorted_desc_decorate_sorted results) as Hsorted.
  destruct (Nat.lt_trichotomy p q) as [Hlt | [-> | Hgt]]; [lia | |].
  - rewrite Hp in Hq. injection Hq as Hq _. lia.
  - exfalso. apply (placed_before_asym _ _ Hbefore).
    exact (sorted_lookup_lt _ _ _ _ _ Hsorted Hq Hp Hgt).
Qed.

Lemma equal_sums_are_ranked_in_input_order_witness :
  exists ra rb,
    rank (set_rank 1 (new_result "llama" "oneshot" "100001.txt"
                        "oneshot/llama/100001.txt" "refs/100001.txt" [0.5; 0.25]%float))
    = Some ra
    /\ rank (set_rank 2 (new_result "qwen" "oneshot" "100001.txt"
                           "oneshot/qwen/100001.txt" "refs/100001.txt" [0.375; 0.375]%float))
       = Some rb
    /\ (ra < rb)%nat.
Proof.
  apply (equal_sums_are_ranked_in_input_order
           [ new_result "llama" "oneshot" "100001.txt" "oneshot/llama/100001.txt"
               "refs/100001.txt" [0.5; 0.25]%float;
             new_result "qwen" "oneshot" "100001.txt" "oneshot/qwen/100001.txt"
               "refs/100001.txt" [0.375; 0.375]%float ] 0 1);
    [reflexivity | reflexivity | lia | reflexivity].
Defined.

(** X14.  The ranking loop leaves every record where it stands in
    [results] and changes nothing but its rank, a number between 1 and the
    number of records: the CSV rows are written in the order in which the
    scores were computed, not in the order of the ranks. *)
Theorem ranking_keeps_the_rows_in_place (results : list result) (i : nat) (r : result) :
  results !! i = Some r ->
  exists k, rank_results results !! i = Some (set_rank k r)
            /\ (1 <= k <= length results)%nat.
Proof.
  intros Hr. destruct (sorted_position_of results i r Hr) as (p & _ & Hp).
  exists (S p). rewrite (rank_results_lookup _ _ _ Hr).
  rewrite (expected_rank_position _ _ _ _ Hr Hp). split; [reflexivity |].
  apply lookup_lt_Some in Hp. rewrite rank_order_length in Hp. lia.
Qed.

Lemma ranking_keeps_the_rows_in_place_witness :
  exists k,
    rank_results
      [ new_result "llama" "oneshot" "a.txt" "oneshot/llama/a.txt" "refs/a.txt" [0.25]%float;
        new_result "qwen" "oneshot" "a.txt" "oneshot/qwen/a.txt" "refs/a.txt" [0.75]%float ]
      !! 0%nat
    = Some (set_rank k (new_result "llama" "oneshot" "a.txt" "oneshot/llama/a.txt"
                          "refs/a.txt" [0.25]%float))
    /\ (1 <= k <= 2)%nat.
Proof.
  exact (ranking_keeps_the_rows_in_place
           [ new_result "llama" "oneshot" "a.txt" "oneshot/llama/a.txt" "refs/a.txt"
               [0.25]%float;
             new_result "qwen" "oneshot" "a.txt" "oneshot/qwen/a.txt" "refs/a.txt"
               [0.75]%float ] 0 _ eq_refl).
Defined.



End MetricExtras.

(** ** Further properties of the hallucination counter *)

Module CountHallucinationMoreFacts.
Import PyStr PyStrFacts Cli CountHallucination CountHallucinationFacts CountHallucinationRun.

(** *** Counting a tag *)

Lemma starts_with_length (p s : string) :
  starts_with p s = true -> (String.length p <= String.length s)%nat.
Proof.
  intros H. apply starts_with_spec in H. destruct H as [c ->].
  rewrite length_append. lia.
Qed.

Lemma count_matches_from_bound (tag text : string) (skip : nat) :
  (count_matches_from skip tag text * String.length tag <= String.length text - skip)%nat.
Proof.
  revert skip; induction text as [|c rest IH]; intros skip; [simpl; lia |].
  destruct skip as [|k]; cbn [count_matches_from].
  - destruct (starts_with tag (String c rest)) eqn:Hs.
    + apply starts_with_length in Hs. specialize (IH (String.length tag - 1)%nat).
      simpl in *. lia.
    + specialize (IH 0%nat). simpl. lia.
  - specialize (IH k). simpl. lia.
Qed.

Lemma substring_later (tag rest : string) (c : ascii) :
  substring tag rest -> substring tag (String c rest).
Proof. intros (a & b & ->). now exists (String c a), b. Qed.

Lemma count_positive_substring (tag text : string) (skip : nat) :
  (0 < count_matches_from skip tag text)%nat -> substring tag text.
Proof.
  revert skip; induction text as [|c rest IH]; intros skip; [simpl; lia |].
  destruct skip as [|k]; cbn [count_matches_from].
  - destruct (starts_with tag (String c rest)) eqn:Hs.
    + intros _. apply starts_with_spec in Hs. destruct Hs as [b Hb].
      exists EmptyString, b. exact Hb.
    + intros H. apply substring_later. exact (IH _ H).
  - intros H. apply substring_later. exact (IH _ H).
Qed.

Lemma substring_count_positive (tag a b : string) :
  tag <> EmptyString -> (0 < count_matches tag (a +:+ tag +:+ b))%nat.
Proof.
  intros Hne. unfold count_matches. induction a as [|c a IH].
  - destruct tag as [|t tag']; [contradiction |].
    change ("" +:+ String t tag' +:+ b) with (String t (tag' +:+ b)).
    cbn [count_matches_from].
    assert (Hs : starts_with (String t tag') (String t (tag' +:+ b)) = true)
      by (apply starts_with_spec; now exists b).
    rewrite Hs. lia.
  - change (String c a +:+ tag +:+ b) with (String c (a +:+ tag +:+ b)).
    cbn [count_matches_from].
    destruct (starts_with tag (String c (a +:+ tag +:+ b))); [lia | exact IH].
Qed.

Lemma count_matches_zero (tag text : string) :
  tag <> EmptyString -> (count_matches tag text = 0%nat <-> ~ substring tag text).
Proof.
  intros Hne. split.
  - intros H0 (a & b & ->). pose proof (substring_count_positive tag a b Hne). lia.
  - intros Hno. destruct (count_matches tag text) as [|n] eqn:Hc; [reflexivity |].
    exfalso. apply Hno. apply (count_positive_substring tag text 0).
    unfold count_matches in Hc. rewrite Hc. lia.
Qed.

Lemma count_hallucinations_lookup (text hall_type tag : string) :
  In (hall_type, tag) hallucination_types ->
  count_hallucinations text !! hall_type = Some (count_matches tag text).
Proof.
  unfold count_hallucinations, hallucination_types. cbn [fold_left In].
  intros H. repeat (destruct H as [[= <- <-] | H]; [now simplify_map_eq |]).
  contradiction.
Qed.

Lemma count_hallucinations_keys (text column : string) :
  is_Some (count_hallucinations text !! column) <-> In column type_names.
Proof.
  unfold count_hallucinations, hallucination_types, type_names. cbn [fold_left map fst In].
  split.
  - intros [n Hn].
    destruct (decide (column = "MGE")) as [-> | ?]; [simpl; auto 10 |].
    destruct (decide (column = "DTE")) as [-> | ?]; [simpl; auto 10 |].
    destruct (decide (column = "NNE")) as [-> | ?]; [simpl; auto 10 |].
    destruct (decide (column = "UGE")) as [-> | ?]; [simpl; auto 10 |].
    destruct (decide (column = "OGE")) as [-> | ?]; [simpl; auto 10 |].
    destruct (decide (column = "UCE")) as [-> | ?]; [simpl; auto 10 |].
    now simplify_map_eq.
  - intros H. repeat (destruct H as [<- | H]; [simplify_map_eq; eauto |]).
    contradiction.
Qed.

(** *** The data frame and its columns *)

Lemma has_column_spec (rows : list row) (column : string) :
  has_column rows column = true <-> exists r, In r rows /\ is_Some (cell r column).
Proof.
  unfold has_column. rewrite existsb_exists. split.
  - intros (r & Hin & Hb). apply bool_decide_eq_true_1 in Hb. now exists r.
  - intros (r & Hin & Hs). exists r. split; [exact Hin |].
    now apply bool_decide_eq_true_2.
Qed.

Lemma unreadable_cells (f : text_file) (column : string) :
  tf_content f = None -> cell (result_of f) column = None.
Proof. intros H. unfold cell, result_of. simpl. now rewrite H. Qed.

Lemma readable_cells (f : text_file) (column : string) :
  tf_content f <> None -> In column type_names -> is_Some (cell (result_of f) column).
Proof.
  intros H Hin. unfold cell, result_of. simpl.
  destruct (tf_content f) as [text|]; [| contradiction]. simpl.
  now apply count_hallucinations_keys.
Qed.

Lemma with_totals_none (files : list text_file) :
  with_totals (map result_of files) = None
  <-> List.Forall (fun f => tf_content f = None) files.
Proof.
  unfold with_totals. split.
  - destruct (forallb _ type_names) eqn:Hall; [discriminate |]. intros _.
    apply List.Forall_forall. intros f Hf.
    destruct (tf_content f) as [text|] eqn:Hc; [| reflexivity]. exfalso.
    assert (Htrue : forallb (has_column (map result_of files)) type_names = true).
    { apply forallb_forall. intros column Hcol. apply has_column_spec.
      exists (result_of f). split; [now apply in_map |].
      apply readable_cells; [congruence | exact Hcol]. }
    congruence.
  - intros Hall.
    assert (Hfalse : has_column (map result_of files) "UCE" = false).
    { destruct (has_column (map result_of files) "UCE") eqn:Hb; [| reflexivity].
      apply has_column_spec in Hb. destruct Hb as (r & Hin & Hs).
      apply in_map_iff in Hin. destruct Hin as (f & <- & Hf).
      rewrite List.Forall_forall in Hall.
      rewrite (unreadable_cells f "UCE" (Hall f Hf)) in Hs. now destruct Hs. }
    change type_names with ("UCE" :: tl type_names). cbn [forallb].
    now rewrite Hfalse.
Qed.

Lemma per_file_csv_none (files : list text_file) :
  per_file_csv files = None <-> List.Forall (fun f => tf_content f = None) files.
Proof.
  unfold per_file_csv. rewrite <- with_totals_none.
  destruct (with_totals (map result_of files)); simpl; split; congruence.
Qed.

Lemma row_total_unreadable (f : text_file) :
  tf_content f = None -> row_total (result_of f) = 0%nat.
Proof.
  intros H. unfold row_total, type_names, hallucination_types. cbn [map fst sum_list_with].
  now rewrite !(unreadable_cells f _ H).
Qed.

(** *** The order of strings *)

Lemma leb_le (a b : string) : String.leb a b = true <-> String.le a b.
Proof. unfold String.le. now destruct (String.leb a b). Qed.

Lemma leb_trans (a b c : string) :
  String.leb a b = true -> String.leb b c = true -> String.leb a c = true.
Proof.
  rewrite !leb_le. intros H1 H2.
  exact (@transitivity _ String.le _ a b c H1 H2).
Qed.

Lemma compare_refl (a : string) : String.compare a a = Eq.
Proof.
  pose proof (String.compare_antisym a a) as H.
  destruct (String.compare a a); simpl in H; congruence.
Qed.

Lemma compare_eq (a b : string) : String.compare a b = Eq <-> a = b.
Proof.
  split; [apply String.compare_eq_iff | intros ->; apply compare_refl].
Qed.

Lemma compare_lt_leb (a b : string) : String.compare a b = Lt -> String.leb a b = true.
Proof. unfold String.leb. now intros ->. Qed.

Lemma compare_lt_not_leb (a b : string) :
  String.compare a b = Lt -> String.leb b a = false.
Proof.
  intros H. unfold String.leb. rewrite String.compare_antisym, H. reflexivity.
Qed.

Lemma compare_lt_trans (a b c : string) :
  String.compare a b = Lt -> String.compare b c = Lt -> String.compare a c = Lt.
Proof.
  intros H1 H2.
  pose proof (leb_trans a b c (compare_lt_leb _ _ H1) (compare_lt_leb _ _ H2)) as Hle.
  destruct (String.compare a c) eqn:Hac; [| reflexivity |].
  - apply compare_eq in Hac. subst c.
    pose proof (compare_lt_not_leb _ _ H1) as Hno.
    rewrite (compare_lt_leb _ _ H2) in Hno. discriminate.
  - unfold String.leb in Hle. rewrite Hac in Hle. discriminate.
Qed.

Lemma compare_gt_lt (a b : string) : String.compare a b = Gt -> String.compare b a = Lt.
Proof. intros H. rewrite String.compare_antisym, H. reflexivity. Qed.

(** *** The order of the CSV rows *)

Lemma row_leb_spec (a b : row) :
  row_leb a b = true
  <-> String.compare (learning_model a) (learning_model b) = Lt
      \/ (learning_model a = learning_model b
          /\ (String.compare (model a) (model b) = Lt
              \/ (model a = model b /\ String.leb (file_name a) (file_name b) = true))).
Proof.
  unfold row_leb, lex. split.
  - destruct (String.compare (learning_model a) (learning_model b)) eqn:H1;
      [| now left | discriminate].
    apply compare_eq in H1. intros H. right. split; [exact H1 |].
    destruct (String.compare (model a) (model b)) eqn:H2; [| now left | discriminate].
    apply compare_eq in H2. right. now split.
  - intros [H1 | [H1 [H2 | [H2 H3]]]].
    + now rewrite H1.
    + rewrite H1, compare_refl. now rewrite H2.
    + now rewrite H1, H2, !compare_refl.
Qed.

Lemma row_leb_total (a b : row) : row_leb a b = false -> row_leb b a = true.
Proof.
  intros Hab. apply row_leb_spec.
  destruct (String.compare (learning_model a) (learning_model b)) eqn:H1.
  - apply compare_eq in H1. right. split; [congruence |].
    destruct (String.compare (model a) (model b)) eqn:H2.
    + apply compare_eq in H2. right. split; [congruence |].
      destruct (String.leb_total (file_name a) (file_name b)) as [H | H]; [| exact H].
      exfalso. assert (row_leb a b = true); [| congruence].
      apply row_leb_spec. right. split; [exact H1 |]. right. now split.
    + exfalso. assert (row_leb a b = true); [| congruence].
      apply row_leb_spec. right. split; [exact H1 |]. now left.
    + left. now apply compare_gt_lt.
  - exfalso. assert (row_leb a b = true); [| congruence].
    apply row_leb_spec. now left.
  - left. now apply compare_gt_lt.
Qed.

Lemma row_leb_trans (a b c : row) :
  row_leb a b = true -> row_leb b c = true -> row_leb a c = true.
Proof.
  rewrite !row_leb_spec.
  intros [H1 | [H1 H1']] [H2 | [H2 H2']].
  - left. eapply compare_lt_trans; eassumption.
  - left. now rewrite <- H2.
  - left. now rewrite H1.
  - right. split; [congruence |].
    destruct H1' as [H3 | [H3 H3']], H2' as [H4 | [H4 H4']].
    + left. eapply compare_lt_trans; eassumption.
    + left. now rewrite <- H4.
    + left. now rewrite H3.
    + right. split; [congruence |]. eapply leb_trans; eassumption.
Qed.

Lemma insert_row_sorted (x : csv_row) (l : list csv_row) :
  StronglySorted csv_le l -> StronglySorted csv_le (insert_row x l).
Proof.
  induction 1 as [|y rest Hs IH Hy]; simpl.
  - constructor; constructor.
  - destruct (row_leb (source x) (source y)) eqn:Hxy.
    + constructor; [now constructor |]. constructor; [exact Hxy |].
      eapply List.Forall_impl; [| exact Hy]. intros z Hz.
      unfold csv_le in *. eapply row_leb_trans; eassumption.
    + constructor; [exact IH |].
      eapply Permutation_Forall; [symmetry; apply insert_row_perm |].
      constructor; [| exact Hy]. now apply row_leb_total.
Qed.

Lemma sort_values_sorted (l : list csv_row) : StronglySorted csv_le (sort_values l).
Proof.
  induction l as [|x l IH]; simpl; [constructor | now apply insert_row_sorted].
Qed.

(** *** The groups of the summary *)

Lemma key_compare_eq (a b : string * string) : key_compare a b = Eq <-> a = b.
Proof.
  destruct a as [a1 a2], b as [b1 b2]. unfold key_compare. simpl. split.
  - destruct (String.compare a1 b1) eqn:H1; try discriminate.
    intros H2. apply compare_eq in H1, H2. congruence.
  - intros [= -> ->]. now rewrite !compare_refl.
Qed.

Lemma key_compare_gt (a b : string * string) : key_compare a b = Gt -> key_lt b a.
Proof.
  destruct a as [a1 a2], b as [b1 b2]. unfold key_lt, key_compare. simpl.
  rewrite (String.compare_antisym a1 b1), (String.compare_antisym a2 b2).
  destruct (String.compare b1 a1), (String.compare b2 a2); simpl; congruence.
Qed.

Lemma key_lt_trans (a b c : string * string) : key_lt a b -> key_lt b c -> key_lt a c.
Proof.
  destruct a as [a1 a2], b as [b1 b2], c as [c1 c2]. unfold key_lt, key_compare. simpl.
  destruct (String.compare a1 b1) eqn:H1; try discriminate;
    destruct (String.compare b1 c1) eqn:H2; try discriminate; intros H3 H4.
  - apply compare_eq in H1, H2. subst. rewrite compare_refl.
    eapply compare_lt_trans; eassumption.
  - apply compare_eq in H1. subst. now rewrite H2.
  - apply compare_eq in H2. subst. now rewrite H1.
  - now rewrite (compare_lt_trans _ _ _ H1 H2).
Qed.

Lemma key_lt_irrefl (a : string * string) : ~ key_lt a a.
Proof.
  unfold key_lt. rewrite (proj2 (key_compare_eq a a) eq_refl). discriminate.
Qed.

Lemma key_eqb_spec (a b : string * string) : key_eqb a b = true <-> a = b.
Proof.
  destruct a as [a1 a2], b as [b1 b2]. unfold key_eqb. simpl.
  rewrite andb_true_iff, !String.eqb_eq. split; [intros [-> ->] | intros [= -> ->]]; auto.
Qed.

Lemma insert_key_in (k x : string * string) (l : list (string * string)) :
  In x (insert_key k l) <-> x = k \/ In x l.
Proof.
  induction l as [|y rest IH]; simpl; [intuition congruence |].
  destruct (key_compare k y) eqn:Hc; simpl.
  - apply key_compare_eq in Hc. subst y. intuition congruence.
  - intuition congruence.
  - rewrite IH. intuition congruence.
Qed.

Lemma insert_key_sorted (k : string * string) (l : list (string * string)) :
  StronglySorted key_lt l -> StronglySorted key_lt (insert_key k l).
Proof.
  induction 1 as [|y rest Hs IH Hy]; simpl.
  - constructor; constructor.
  - destruct (key_compare k y) eqn:Hc.
    + now constructor.
    + constructor; [now constructor |]. constructor; [exact Hc |].
      eapply List.Forall_impl; [| exact Hy]. intros z Hz.
      eapply key_lt_trans; eassumption.
    + constructor; [exact IH |]. apply List.Forall_forall. intros z Hz.
      apply insert_key_in in Hz. destruct Hz as [-> | Hz].
      * now apply key_compare_gt.
      * rewrite List.Forall_forall in Hy. now apply Hy.
Qed.

Lemma group_keys_sorted (df : list csv_row) : StronglySorted key_lt (group_keys df).
Proof.
  unfold group_keys. induction (map group_of df) as [|k l IH]; simpl;
    [constructor | now apply insert_key_sorted].
Qed.

Lemma group_keys_in (df : list csv_row) (k : string * string) :
  In k (group_keys df) <-> exists c, In c df /\ group_of c = k.
Proof.
  assert (Hkeys : forall l, In k (foldr insert_key [] l) <-> In k l).
  { induction l as [|y l IH]; simpl; [tauto |].
    rewrite insert_key_in, IH. intuition congruence. }
  unfold group_keys. rewrite Hkeys, in_map_iff.
  split; intros (c & H1 & H2); exists c; now split.
Qed.

Lemma sorted_keys_NoDup (l : list (string * string)) :
  StronglySorted key_lt l -> List.NoDup l.
Proof.
  induction 1 as [|y rest Hs IH Hy]; constructor; [| exact IH].
  intros Hin. rewrite List.Forall_forall in Hy.
  exact (key_lt_irrefl y (Hy y Hin)).
Qed.

(** Over distinct keys, a row counts for its own key and for no other. *)
Lemma one_key_matches (keys : list (string * string)) (k : string * string) :
  List.NoDup keys -> In k keys ->
  sum_list_with (fun y => if key_eqb k y then 1%nat else 0%nat) keys = 1%nat.
Proof.
  induction 1 as [|y rest Hnot Hnd IH]; [intros [] |].
  intros [-> | Hin]; simpl.
  - rewrite (proj2 (key_eqb_spec k k) eq_refl).
    assert (Hrest : sum_list_with (fun y => if key_eqb k y then 1%nat else 0%nat) rest
                    = 0%nat).
    { clear IH Hnd. induction rest as [|z rest IH]; [reflexivity |]. simpl.
      destruct (key_eqb k z) eqn:Hkz.
      - apply key_eqb_spec in Hkz. subst z. exfalso. apply Hnot. now left.
      - apply IH. intros H. apply Hnot. now right. }
    now rewrite Hrest.
  - destruct (key_eqb k y) eqn:Hky.
    + apply key_eqb_spec in Hky. subst y. contradiction.
    + now rewrite IH.
Qed.

(** A weight summed group by group is the weight summed over the rows. *)
Lemma groups_partition (weight : csv_row -> nat) (keys : list (string * string))
    (df : list csv_row) :
  List.NoDup keys ->
  (forall c, In c df -> In (group_of c) keys) ->
  sum_list_with (fun k => sum_list_with weight (group_rows df k)) keys
  = sum_list_with weight df.
Proof.
  intros Hnd. induction df as [|c df IH]; intros Hin.
  - unfold group_rows. simpl. clear Hnd Hin.
    induction keys as [|k keys IHk]; [reflexivity | exact IHk].
  - assert (Hstep : forall l : list (string * string),
               sum_list_with (fun k => sum_list_with weight (group_rows (c :: df) k)) l
               = (weight c
                  * sum_list_with (fun y => if key_eqb (group_of c) y then 1 else 0) l
                  + sum_list_with (fun k => sum_list_with weight (group_rows df k)) l)%nat).
    { induction l as [|k l IHl]; [simpl; lia |].
      cbn [sum_list_with]. rewrite IHl. unfold group_rows at 1. cbn [List.filter].
      destruct (key_eqb (group_of c) k); cbn [sum_list_with]; fold (group_rows df k); lia. }
    rewrite Hstep, IH by (intros c' Hc'; apply Hin; now right).
    rewrite (one_key_matches keys (group_of c) Hnd) by (apply Hin; now left).
    simpl. lia.
Qed.

End CountHallucinationMoreFacts.

Section CounterExtras.
Import PyStr PyStrFacts Cli CountHallucination CountHallucinationFacts CountHallucinationRun
  CountHallucinationMoreFacts.

(** X16.  [count_hallucinations] gives a count for each of the six types
    and for nothing else.  The count of a type is zero exactly when its
    tag, as written, upper case and brackets included, does not occur in
    the text; the occurrences counted do not overlap, so five times the
    count never exceeds the length of the text. *)
Theorem tag_counts (text : string) :
  (forall column, is_Some (count_hallucinations text !! column) <-> In column type_names)
  /\ (forall hall_type tag,
        In (hall_type, tag) hallucination_types ->
        exists n,
          count_hallucinations text !! hall_type = Some n
          /\ (n = 0%nat <-> ~ substring tag text)
          /\ (n * 5 <= String.length text)%nat).
Proof.
  split; [apply count_hallucinations_keys |].
  intros hall_type tag Hin. exists (count_matches tag text).
  split; [now apply count_hallucinations_lookup |].
  assert (Htag : tag <> EmptyString /\ String.length tag = 5%nat).
  { unfold hallucination_types in Hin. cbn [In] in Hin.
    repeat (destruct Hin as [[= <- <-] | Hin]; [split; [discriminate | reflexivity] |]).
    contradiction. }
  destruct Htag as [Hne Hlen]. split; [now apply count_matches_zero |].
  pose proof (count_matches_from_bound tag text 0) as Hb.
  unfold count_matches. rewrite Hlen in Hb. lia.
Qed.

(** X17.  The per-file CSV cannot be built exactly when no text file could
    be read: every dictionary of counts is then empty, the data frame has
    no column for the types, and selecting them raises.  When it is built,
    the rows of the files that could not be read are there as well, with
    no count in any column and a total of zero. *)
Theorem csv_needs_one_readable_file (files : list text_file) :
  (per_file_csv files = None <-> List.Forall (fun f => tf_content f = None) files)
  /\ (forall csv f,
        per_file_csv files = Some csv ->
        In f files ->
        tf_content f = None ->
        exists c, In c csv /\ source c = result_of f
                  /\ total_hallucinations c = 0%nat
                  /\ forall column, cell (source c) column = None).
Proof.
  split; [apply per_file_csv_none |].
  { intros csv f Hcsv Hf Hnone. unfold per_file_csv in Hcsv.
    destruct (with_totals (map result_of files)) as [df|] eqn:Hdf; [| discriminate].
    injection Hcsv as <-. unfold with_totals in Hdf.
    destruct (forallb _ type_names); [| discriminate]. injection Hdf as <-.
    exists {| source := result_of f; total_hallucinations := row_total (result_of f) |}.
    split; [| split; [reflexivity | split]].
    + apply (Permutation_in _ (symmetry (sort_values_perm _))).
      apply in_map_iff. exists (result_of f). split; [reflexivity | now apply in_map].
    + simpl. now apply row_total_unreadable.
    + intros column. simpl. now apply unreadable_cells. }
Qed.

Lemma csv_needs_one_readable_file_witness :
  per_file_csv
    [ {| tf_learning_model := "oneshot"; tf_model := "llama"; tf_stem := "201301";
         tf_relative_path := "oneshot/llama/201301.txt"; tf_content := None |};
      {| tf_learning_model := "oneshot"; tf_model := "qwen"; tf_stem := "201301";
         tf_relative_path := "oneshot/qwen/201301.txt"; tf_content := None |} ]
  = None.
Proof.
  apply (proj2 (proj1 (csv_needs_one_readable_file _))).
  repeat constructor.
Defined.

(** X18.  [analyze_directories] ends with exit status 0 exactly when at
    least one "*.txt" file of the tree could be read and the CSV and the
    summary files were written; a tree without text files returns [False],
    and a tree whose text files are all unreadable raises. *)
Theorem analyzer_exit_status (summary_written : bool) (tree : list learning_model_dir) :
  (exit_code (analyze_directories summary_written tree) = 0%Z
   <-> summary_written = true
       /\ exists f, In f (files_of tree) /\ tf_content f <> None)
  /\ (files_of tree = [] -> analyze_directories summary_written tree = Returned false)
  /\ (files_of tree <> [] ->
      List.Forall (fun f => tf_content f = None) (files_of tree) ->
      analyze_directories summary_written tree = Raised).
Proof.
  assert (Hreadable : forall files : list text_file,
             (exists f, In f files /\ tf_content f <> None)
             <-> per_file_csv files <> None).
  { intros files. rewrite (per_file_csv_none files).
    rewrite <- List.Exists_Forall_neg by (intros f; destruct (tf_content f); [right | left];
                                           congruence).
    now rewrite List.Exists_exists. }
  unfold analyze_directories. destruct tree as [|lm tree]; [simpl |].
  - split; [| split]; [| reflexivity | contradiction].
    split; [discriminate | intros [_ (f & [] & _)]].
  - set (files := files_of (lm :: tree)). clearbody files.
    destruct files as [|f0 files].
    + split; [| split]; [| reflexivity | contradiction].
      split; [discriminate | intros [_ (f & [] & _)]].
    + split; [| split]; [| discriminate |].
      * rewrite (Hreadable (f0 :: files)).
        destruct (per_file_csv (f0 :: files)) as [csv|]; simpl.
        -- destruct summary_written; simpl; split; try discriminate; try tauto.
           ++ intros _. split; [reflexivity | discriminate].
           ++ intros [? _]. discriminate.
        -- split; [discriminate | intros [_ H]; now contradiction H].
      * intros _ Hall.
        apply (per_file_csv_none (f0 :: files)) in Hall.
        now rewrite Hall.
Qed.

(** X19.  The rows of the per-file CSV are the results of the files, one
    row a file, in ascending order of learning model, then model, then
    file name. *)
Theorem csv_rows_are_sorted (files : list text_file) (csv : list csv_row) :
  per_file_csv files = Some csv ->
  StronglySorted csv_le csv
  /\ Permutation (map source csv) (map result_of files)
  /\ length csv = length files.
Proof.
  unfold per_file_csv. intros Hcsv.
  destruct (with_totals (map result_of files)) as [df|] eqn:Hdf; [| discriminate].
  injection Hcsv as <-. split; [apply sort_values_sorted |].
  unfold with_totals in Hdf. destruct (forallb _ type_names); [| discriminate].
  injection Hdf as <-.
  assert (Hperm : Permutation (map source (sort_values
                     (map (fun r => {| source := r; total_hallucinations := row_total r |})
                        (map result_of files))))
                    (map result_of files)).
  { rewrite sort_values_perm, map_map. simpl. now rewrite map_id. }
  split; [exact Hperm |].
  apply Permutation_length in Hperm. now rewrite !length_map in Hperm.
Qed.

Lemma csv_rows_are_sorted_witness :
  StronglySorted csv_le (default [] (per_file_csv
    [ {| tf_learning_model := "zeroshot"; tf_model := "llama"; tf_stem := "201301";
         tf_relative_path := "zeroshot/llama/201301.txt";
         tf_content := Some "a [UCE] b" |};
      {| tf_learning_model := "oneshot"; tf_model := "qwen"; tf_stem := "201301";
         tf_relative_path := "oneshot/qwen/201301.txt"; tf_content := None |} ])).
Proof.
  refine (proj1 (csv_rows_are_sorted
    [ {| tf_learning_model := "zeroshot"; tf_model := "llama"; tf_stem := "201301";
         tf_relative_path := "zeroshot/llama/201301.txt";
         tf_content := Some "a [UCE] b" |};
      {| tf_learning_model := "oneshot"; tf_model := "qwen"; tf_stem := "201301";
         tf_relative_path := "oneshot/qwen/201301.txt"; tf_content := None |} ] _ _)).
  vm_compute. reflexivity.
Defined.

(** X20.  The summary has one row for each pair of learning model and
    model that occurs in the CSV, in ascending order and without
    repetition; every group has at least one file, and the groups
    account for every row once: their file counts add up to the number
    of rows and their totals to the sum of the row totals. *)
Theorem summary_accounts_for_every_row
    (agg_mean agg_std : list (option nat) -> float) (df : list csv_row) :
  let summary := create_summary agg_mean agg_std df in
  StronglySorted key_lt (map group summary)
  /\ (forall k, In k (map group summary) <-> exists c, In c df /\ group_of c = k)
  /\ List.Forall (fun g => (0 < total_files g)%nat) summary
  /\ sum_list_with total_files summary = length df
  /\ sum_list_with total_sum summary = sum_list_with total_hallucinations df.
Proof.
  intros summary. subst summary. unfold create_summary.
  assert (Hgroups : map group (map (summarize_group agg_mean agg_std df) (group_keys df))
                    = group_keys df).
  { rewrite map_map. simpl. apply map_id. }
  pose proof (group_keys_sorted df) as Hsorted.
  pose proof (sorted_keys_NoDup _ Hsorted) as Hnd.
  assert (Hall : forall c, In c df -> In (group_of c) (group_keys df))
    by (intros c Hc; apply group_keys_in; now exists c).
  rewrite Hgroups. split; [exact Hsorted |]. split; [apply group_keys_in |].
  split; [| split].
  - apply List.Forall_forall. intros g Hg. apply in_map_iff in Hg.
    destruct Hg as (k & <- & Hk). simpl. apply group_keys_in in Hk.
    destruct Hk as (c & Hc & Hgc).
    assert (Hin : In c (group_rows df k)).
    { apply filter_In. split; [exact Hc | now apply key_eqb_spec]. }
    destruct (group_rows df k); [destruct Hin | simpl; lia].
  - pose proof (groups_partition (fun _ => 1%nat) (group_keys df) df Hnd Hall) as Hp.
    assert (Hone : forall l : list csv_row, sum_list_with (fun _ => 1%nat) l = length l)
      by (induction l as [|x l IH]; simpl; [reflexivity | now rewrite IH]).
    rewrite Hone in Hp. rewrite <- Hp. clear Hp Hall Hnd Hsorted Hgroups.
    induction (group_keys df) as [|k keys IH]; simpl; [reflexivity |].
    now rewrite IH, Hone.
  - rewrite <- (groups_partition total_hallucinations (group_keys df) df Hnd Hall).
    clear Hall Hnd Hsorted Hgroups.
    induction (group_keys df) as [|k keys IH]; simpl; [reflexivity |].
    now rewrite IH.
Qed.

End CounterExtras.

(** ** Further properties of the renamer *)

Module RenameFilesMoreFacts.
Import Cli RenameFiles RenameFilesFacts RenameFilesEffects.

Lemma dict_set_fresh (k v : string) (d : list (string * string)) :
  ~ In k (map fst d) -> dict_set k v d = d ++ [(k, v)].
Proof.
  induction d as [|[k' v'] rest IH]; simpl; [reflexivity |].
  intros Hnot. destruct (String.eqb k k') eqn:Hk.
  - apply String.eqb_eq in Hk. subst k'. exfalso. apply Hnot. now left.
  - rewrite IH; [reflexivity |]. intros H. apply Hnot. now right.
Qed.

Lemma copies_of_app (a b : list fs_op) : copies_of (a ++ b) = copies_of a ++ copies_of b.
Proof. unfold copies_of. now rewrite flat_map_app. Qed.

Lemma copies_of_copies (items : list (string * string)) :
  copies_of (map copy_of items) = items.
Proof.
  induction items as [|[o n] items IH]; simpl; [reflexivity | now rewrite IH].
Qed.

Section Passes.

Variable output_dir : string.
Variable dry_run : bool.
Variable preserve_extension : bool.
Variable stem : string -> string.
Variable suffix : string -> string.
Variable name : string -> string.
Variable re_sub : string -> option string.
Variable joinpath : string -> string -> string.
Variable relative_ok : string -> bool.
Variable copy_ok : string -> string -> bool.

Local Abbreviation new_path_of :=
  (RenameFiles.new_path_of output_dir preserve_extension stem suffix name re_sub joinpath).
Local Abbreviation first_pass :=
  (RenameFiles.first_pass output_dir preserve_extension stem suffix name re_sub joinpath).
Local Abbreviation consistent :=
  (RenameFiles.consistent output_dir preserve_extension stem suffix name re_sub joinpath).
Local Abbreviation second_pass := (RenameFiles.second_pass dry_run relative_ok copy_ok).

Lemma fresh_key (rename_map : list (string * string)) (f p : string) :
  consistent rename_map -> new_path_of f = Some p -> ~ In p (values rename_map) ->
  ~ In f (map fst rename_map).
Proof.
  intros Hc Hp Hnot Hin. apply in_map_iff in Hin. destruct Hin as ([k v] & Hk & Hin).
  simpl in Hk. subst k. pose proof (Hc _ _ Hin) as Hv. rewrite Hp in Hv.
  injection Hv as <-. apply Hnot. unfold values. apply in_map_iff.
  now exists (f, p).
Qed.

Lemma consistent_snoc (rename_map : list (string * string)) (f p : string) :
  consistent rename_map -> new_path_of f = Some p -> consistent (rename_map ++ [(f, p)]).
Proof.
  intros Hc Hp k v Hin. apply in_app_or in Hin.
  destruct Hin as [Hin | [[= <- <-] | []]]; [now apply Hc | exact Hp].
Qed.

Lemma first_pass_sound (files : list string) (rename_map m : list (string * string)) :
  consistent rename_map ->
  first_pass files rename_map = inr m ->
  exists paths,
    Forall2 (fun f p => new_path_of f = Some p) files paths
    /\ m = rename_map ++ zip files paths
    /\ (List.NoDup (values rename_map) -> List.NoDup (values rename_map ++ paths)).
Proof.
  revert rename_map; induction files as [|f rest IH]; intros rename_map Hc; simpl.
  - intros [= <-]. exists []. repeat split; [constructor | now rewrite app_nil_r |].
    now rewrite app_nil_r.
  - destruct (generate_new_name preserve_extension stem suffix name re_sub f)
      as [new_name|] eqn:Hname; [| discriminate].
    destruct (bool_decide (joinpath output_dir new_name ∈ values rename_map)) eqn:Hin;
      [discriminate |].
    apply bool_decide_eq_false_1 in Hin. rewrite list_elem_of_In in Hin.
    assert (Hp : new_path_of f = Some (joinpath output_dir new_name))
      by (unfold RenameFiles.new_path_of; now rewrite Hname).
    rewrite (dict_set_fresh _ _ _ (fresh_key _ _ _ Hc Hp Hin)).
    intros Hrest.
    destruct (IH _ (consistent_snoc _ _ _ Hc Hp) Hrest) as (paths & Hall & -> & Hnd).
    exists (joinpath output_dir new_name :: paths). split; [now constructor |]. split.
    + now rewrite <- app_assoc.
    + intros Hvalues. unfold values in *. rewrite map_app, <- app_assoc in Hnd.
      simpl in Hnd. apply Hnd. apply NoDup_ListNoDup. apply NoDup_app. repeat split.
      * now apply NoDup_ListNoDup.
      * intros x Hx Hx'. apply list_elem_of_In in Hx'. destruct Hx' as [<- | []].
        apply Hin. now apply list_elem_of_In.
      * apply NoDup_ListNoDup. repeat constructor. intros [].
Qed.

Lemma first_pass_complete (files paths : list string) (rename_map : list (string * string)) :
  consistent rename_map ->
  Forall2 (fun f p => new_path_of f = Some p) files paths ->
  List.NoDup (values rename_map ++ paths) ->
  first_pass files rename_map = inr (rename_map ++ zip files paths).
Proof.
  intros Hc Hall. revert rename_map Hc.
  induction Hall as [|f p files paths Hp Hall IH]; intros rename_map Hc Hnd; simpl.
  - now rewrite app_nil_r.
  - pose proof Hp as Hp'. unfold RenameFiles.new_path_of in Hp.
    destruct (generate_new_name preserve_extension stem suffix name re_sub f)
      as [new_name|]; [| discriminate].
    injection Hp as <-.
    assert (Hnot : ~ In (joinpath output_dir new_name) (values rename_map)).
    { intros Hin. apply NoDup_ListNoDup in Hnd. apply NoDup_app in Hnd.
      destruct Hnd as (_ & Hdisj & _).
      apply (Hdisj (joinpath output_dir new_name)).
      - now apply list_elem_of_In.
      - apply list_elem_of_In. now left. }
    rewrite bool_decide_eq_false_2 by (now rewrite list_elem_of_In).
    rewrite (dict_set_fresh _ _ _ (fresh_key _ _ _ Hc Hp' Hnot)).
    rewrite IH.
    + now rewrite <- app_assoc.
    + now apply consistent_snoc.
    + unfold values. rewrite map_app, <- app_assoc. exact Hnd.
Qed.

Lemma first_pass_inr (files : list string) (rename_map : list (string * string)) :
  first_pass files [] = inr rename_map ->
  exists paths,
    Forall2 (fun f p => new_path_of f = Some p) files paths
    /\ List.NoDup paths
    /\ rename_map = zip files paths.
Proof.
  intros Hpass.
  destruct (first_pass_sound files [] rename_map) as (paths & Hall & Hmap & Hnd);
    [intros k v [] | exact Hpass |].
  exists paths. split; [exact Hall |]. split; [| exact Hmap]. apply Hnd. constructor.
Qed.

Lemma first_pass_entry (files : list string) (rename_map : list (string * string))
    (entry : log_entry) :
  first_pass files rename_map = inl entry -> is_renamed entry = false.
Proof.
  revert rename_map; induction files as [|f rest IH]; intros rename_map; simpl;
    [discriminate |].
  destruct (generate_new_name preserve_extension stem suffix name re_sub f)
    as [new_name|]; [| now intros [= <-]].
  destruct (bool_decide _); [now intros [= <-] | apply IH].
Qed.

(** The second pass adds to the effects the copies of some of the items,
    in their order, and answers by the number of its successes. *)
Lemma second_pass_spec (items : list (string * string)) (successful : nat)
    (done : list fs_op) (printed : list log_entry) :
  exists made,
    effects (second_pass items successful done printed) = done ++ map copy_of made
    /\ sublist made items
    /\ (dry_run = true -> made = [])
    /\ (dry_run = false ->
        length (List.filter is_renamed (log (second_pass items successful done printed)))
        = (length (List.filter is_renamed printed) + length made)%nat)
    /\ (forall b, returned (second_pass items successful done printed) = Returned b ->
                  if dry_run then b = (0 <? successful + length items)%nat
                  else b = (0 <? successful + length made)%nat).
Proof.
  revert successful done printed.
  induction items as [|[old_path new_path] rest IH]; intros successful done printed;
    cbn [RenameFiles.second_pass].
  - exists []. simpl. rewrite app_nil_r, !Nat.add_0_r.
    repeat split; try constructor. intros b [= <-]. now destruct dry_run.
  - destruct (relative_ok new_path).
    + destruct dry_run eqn:Hdry.
      * destruct (IH (S successful) done (printed ++ [InfoWouldRename old_path new_path]))
          as (made & He & Hs & Hd & _ & Hr).
        exists made. repeat split; try assumption.
        -- now apply sublist_cons.
        -- discriminate.
        -- intros b Hb. rewrite (Hr b Hb). simpl. f_equal. lia.
      * destruct (copy_ok old_path new_path).
        -- destruct (IH (S successful) (done ++ [Copy old_path new_path])
                       (printed ++ [InfoRenamed old_path new_path]))
             as (made & He & Hs & _ & Hl & Hr).
           exists ((old_path, new_path) :: made). repeat split.
           ++ rewrite He, <- app_assoc. reflexivity.
           ++ now apply sublist_skip.
           ++ discriminate.
           ++ intros _. rewrite (Hl eq_refl), List.filter_app, length_app. simpl. lia.
           ++ intros b Hb. rewrite (Hr b Hb). simpl. f_equal. lia.
        -- destruct (IH successful done (printed ++ [ErrorRenaming old_path]))
             as (made & He & Hs & _ & Hl & Hr).
           exists made. repeat split; try assumption.
           ++ now apply sublist_cons.
           ++ discriminate.
           ++ intros _. rewrite (Hl eq_refl), List.filter_app, length_app. simpl. lia.
    + exists []. simpl. rewrite app_nil_r. repeat split.
      * apply sublist_nil_l.
      * intros _. lia.
      * intros b [=].
Qed.

End Passes.

End RenameFilesMoreFacts.

Section RenamerExtras.
Import Cli RenameFiles RenameFilesFacts RenameFilesEffects RenameFilesMoreFacts.

Variable output_dir : string.
Variable dry_run : bool.
Variable preserve_extension : bool.
Variable stem : string -> string.
Variable suffix : string -> string.
Variable name : string -> string.
Variable re_sub : string -> option string.
Variable joinpath : string -> string -> string.
Variable mkdir_ok : bool.
Variable relative_ok : string -> bool.
Variable copy_ok : string -> string -> bool.

Local Abbreviation new_path_of :=
  (RenameFiles.new_path_of output_dir preserve_extension stem suffix name re_sub joinpath).
Local Abbreviation first_pass :=
  (RenameFiles.first_pass output_dir preserve_extension stem suffix name re_sub joinpath).
Local Abbreviation rename_files :=
  (RenameFiles.rename_files output_dir dry_run preserve_extension stem suffix name re_sub
     joinpath mkdir_ok relative_ok copy_ok).

(** X21.  The first pass goes through exactly when a new name can be
    computed for every file and the output paths are pairwise distinct;
    the map it builds then pairs every file with its output path, in the
    order of the files. *)
Theorem first_pass_goes_through_exactly_when (files : list string) :
  (forall paths,
     Forall2 (fun f p => new_path_of f = Some p) files paths ->
     List.NoDup paths ->
     first_pass files [] = inr (zip files paths))
  /\ (forall rename_map,
        first_pass files [] = inr rename_map ->
        exists paths,
          Forall2 (fun f p => new_path_of f = Some p) files paths
          /\ List.NoDup paths
          /\ rename_map = zip files paths).
Proof.
  split.
  - intros paths Hall Hnd.
    apply (first_pass_complete output_dir preserve_extension stem suffix name re_sub
             joinpath files paths []); [intros k v [] | exact Hall | exact Hnd].
  - apply first_pass_inr.
Qed.

(** X22.  What a run does to the file system: a dry run does nothing;
    otherwise the output directory is created first and every further
    effect is the copy of an input file to the output path computed for
    it, the copies being made in the order of the files, no file being
    copied twice and no two copies having the same destination. *)
Theorem copies_go_to_distinct_computed_paths (files : list string) :
  (dry_run = true -> effects (rename_files files) = [])
  /\ (effects (rename_files files) = []
      \/ exists made,
           effects (rename_files files) = Mkdir output_dir :: map copy_of made
           /\ (exists paths,
                 Forall2 (fun f p => new_path_of f = Some p) files paths
                 /\ sublist made (zip files paths))
           /\ List.NoDup (map fst made)
           /\ List.NoDup (map snd made)).
Proof.
  unfold RenameFiles.rename_files. destruct files as [|f0 rest]; [now split; [| left] |].
  set (files := f0 :: rest).
  destruct (first_pass files []) as [entry | rename_map] eqn:Hpass;
    [now split; [| left] |].
  destruct (first_pass_inr output_dir preserve_extension stem suffix name re_sub joinpath
              files _ Hpass) as (paths & Hall & Hnd & ->).
  destruct dry_run eqn:Hdry.
  - destruct (second_pass_spec true relative_ok copy_ok (zip files paths) 0 [] [])
      as (made & He & _ & Hd & _).
    rewrite (Hd eq_refl) in He. simpl in He. split; [intros _; exact He | now left].
  - split; [discriminate |]. destruct mkdir_ok; [| now left].
    destruct (second_pass_spec false relative_ok copy_ok (zip files paths) 0
                [Mkdir output_dir] []) as (made & He & Hs & _).
    right. exists made. split; [exact He |]. split; [now exists paths |].
    assert (Hlen : length files = length paths) by (eapply Forall2_length; exact Hall).
    assert (Hfiles : List.NoDup files).
    { apply NoDup_ListNoDup. apply NoDup_alt. intros i j f Hi Hj.
      destruct (Forall2_lookup_l _ _ _ _ _ Hall Hi) as (p & Hpi & Hfp).
      destruct (Forall2_lookup_l _ _ _ _ _ Hall Hj) as (q & Hqj & Hfq).
      rewrite Hfp in Hfq. injection Hfq as <-.
      apply NoDup_ListNoDup in Hnd. exact (proj1 (NoDup_alt paths) Hnd i j p Hpi Hqj). }
    split; apply NoDup_ListNoDup.
    + apply (sublist_NoDup _ (files)); [now apply NoDup_ListNoDup |].
      rewrite <- (fst_zip files paths) by lia. now apply fmap_sublist.
    + apply (sublist_NoDup _ (paths)); [now apply NoDup_ListNoDup |].
      rewrite <- (snd_zip files paths) by lia. now apply fmap_sublist.
Qed.

(** X23.  When a run outside dry-run mode returns, it returns [True]
    exactly when at least one file was copied, and it logged one "Renamed"
    line per copy: a run whose copies all fail returns [False].  A dry run
    that returns after the first pass went through returns [True] without
    having copied anything. *)
Theorem returns_true_exactly_when_a_file_was_copied (files : list string) (b : bool) :
  returned (rename_files files) = Returned b ->
  (dry_run = false ->
   (b = true <-> copies_of (effects (rename_files files)) <> [])
   /\ length (List.filter is_renamed (log (rename_files files)))
      = length (copies_of (effects (rename_files files))))
  /\ (dry_run = true ->
      (b = true <-> exists rename_map, files <> [] /\ first_pass files [] = inr rename_map)).
Proof.
  unfold RenameFiles.rename_files. destruct files as [|f0 rest].
  - simpl. intros [= <-]. split.
    + intros _. split; [split; [discriminate | contradiction] | reflexivity].
    + intros _. split; [discriminate | intros (m & H & _); contradiction].
  - set (files := f0 :: rest).
    destruct (first_pass files []) as [entry | rename_map] eqn:Hpass.
    + simpl. intros [= <-]. split.
      * intros _. split; [split; [discriminate | contradiction] |].
        now rewrite (first_pass_entry output_dir preserve_extension stem suffix name
                       re_sub joinpath _ _ _ Hpass).
      * intros _. split; [discriminate | intros (m & _ & H); discriminate].
    + destruct (first_pass_inr output_dir preserve_extension stem suffix name re_sub
                  joinpath files _ Hpass) as (paths & Hall & _ & Hmap).
      assert (Hitems : (0 < length rename_map)%nat).
      { rewrite Hmap, length_zip. apply Forall2_length in Hall.
        rewrite <- Hall. simpl. lia. }
      destruct dry_run eqn:Hdry.
      * intros Hret.
        destruct (second_pass_spec true relative_ok copy_ok rename_map 0 [] [])
          as (made & _ & _ & _ & _ & Hr).
        specialize (Hr b Hret). simpl in Hr. split; [discriminate |]. intros _.
        subst b. split; [intros _; now exists rename_map |]. intros _.
        apply Nat.ltb_lt. exact Hitems.
      * destruct mkdir_ok; [| discriminate].
        intros Hret.
        destruct (second_pass_spec false relative_ok copy_ok rename_map 0
                    [Mkdir output_dir] []) as (made & He & _ & _ & Hl & Hr).
        specialize (Hr b Hret). simpl in Hr. split; [| discriminate]. intros _.
        rewrite He, (Hl eq_refl). simpl. rewrite copies_of_copies. split; [| reflexivity].
        subst b. rewrite Nat.ltb_lt. destruct made; simpl; split; try lia; congruence.
Qed.

End RenamerExtras.

Lemma first_pass_goes_through_exactly_when_witness :
  RenameFiles.first_pass "out" true (fun s => s) (fun _ => ".txt") (fun s => s)
    (fun s => Some ("new_" +:+ s)) (fun d n => d +:+ "/" +:+ n) ["a"; "b"] []
  = inr [("a", "out/new_a.txt"); ("b", "out/new_b.txt")].
Proof.
  apply (proj1 (first_pass_goes_through_exactly_when "out" true (fun s => s)
                  (fun _ => ".txt") (fun s => s) (fun s => Some ("new_" +:+ s))
                  (fun d n => d +:+ "/" +:+ n) ["a"; "b"])
           ["out/new_a.txt"; "out/new_b.txt"]).
  - repeat constructor.
  - repeat constructor; simpl; intuition discriminate.
Defined.

Lemma returns_true_exactly_when_a_file_was_copied_witness :
  let r := RenameFiles.rename_files "out" false true (fun s => s) (fun _ => ".txt")
             (fun s => s) (fun s => Some ("new_" +:+ s)) (fun d n => d +:+ "/" +:+ n)
             true (fun _ => true) (fun _ _ => false) ["a"; "b"] in
  (false = true <-> RenameFilesEffects.copies_of (RenameFiles.effects r) <> [])
  /\ length (List.filter RenameFilesEffects.is_renamed (RenameFiles.log r))
     = length (RenameFilesEffects.copies_of (RenameFiles.effects r)).
Proof.
  intros r.
  exact (proj1 (returns_true_exactly_when_a_file_was_copied "out" false true (fun s => s)
                  (fun _ => ".txt") (fun s => s) (fun s => Some ("new_" +:+ s))
                  (fun d n => d +:+ "/" +:+ n) true (fun _ => true) (fun _ _ => false)
                  ["a"; "b"] false eq_refl) eq_refl).
Defined.

(** ** Properties of the string counter *)

Module CountErrorFacts.
Import PyStr PyStrFacts CountError.

Lemma get_add_to (k k' : string) (n : nat) (d : counter) :
  get (add_to k n d) k' = (get d k' + (if String.eqb k' k then n else 0))%nat.
Proof.
  induction d as [|[k0 v] rest IH]; simpl.
  - destruct (String.eqb k' k); lia.
  - destruct (String.eqb k k0) eqn:Hk; simpl.
    + apply String.eqb_eq in Hk. subst k0.
      destruct (String.eqb k' k); lia.
    + destruct (String.eqb k' k0) eqn:Hk'; [| exact IH].
      apply String.eqb_eq in Hk'. subst k0.
      rewrite String.eqb_sym, Hk. lia.
Qed.

Lemma keys_add_to (k : string) (n : nat) (d : counter) :
  map fst (add_to k n d) = first_seen (map fst d) k.
Proof.
  unfold first_seen. induction d as [|[k0 v] rest IH]; simpl; [reflexivity |].
  destruct (String.eqb k k0); simpl; [reflexivity |].
  rewrite IH. now destruct (existsb (String.eqb k) (map fst rest)).
Qed.

(** A loop that adds [amount target] for every target listed. *)
Lemma get_add_all (amount : string -> nat) (target_strings : list string) (d : counter)
    (k : string) :
  get (fold_left (fun c target => add_to target (amount target) c) target_strings d) k
  = (get d k + times_listed k target_strings * amount k)%nat.
Proof.
  revert d; induction target_strings as [|t rest IH]; intros d; simpl; [lia |].
  rewrite IH, get_add_to. unfold times_listed. simpl.
  destruct (String.eqb k t) eqn:Hk; simpl; [| lia].
  apply String.eqb_eq in Hk. subst t. lia.
Qed.

Lemma keys_add_all (amount : string -> nat) (target_strings : list string) (d : counter) :
  map fst (fold_left (fun c target => add_to target (amount target) c) target_strings d)
  = fold_left first_seen target_strings (map fst d).
Proof.
  revert d; induction target_strings as [|t rest IH]; intros d; simpl; [reflexivity |].
  now rewrite IH, keys_add_to.
Qed.

Lemma existsb_eqb (k : string) (l : list string) :
  existsb (String.eqb k) l = true <-> In k l.
Proof.
  rewrite existsb_exists. split.
  - intros (x & Hx & Heq). apply String.eqb_eq in Heq. now subst x.
  - intros H. exists k. split; [exact H | apply String.eqb_refl].
Qed.

Lemma first_seen_in (seen : list string) (t x : string) :
  In x (first_seen seen t) <-> In x seen \/ x = t.
Proof.
  unfold first_seen. destruct (existsb (String.eqb t) seen) eqn:He.
  - apply existsb_eqb in He. split; [now left | intros [H | ->]; assumption].
  - rewrite in_app_iff. simpl. intuition.
Qed.

Lemma first_seen_fold_in (l seen : list string) (x : string) :
  In x (fold_left first_seen l seen) <-> In x seen \/ In x l.
Proof.
  revert seen; induction l as [|t l IH]; intros seen; simpl; [tauto |].
  rewrite IH, first_seen_in. intuition.
Qed.

Lemma first_seen_fold_known (l seen : list string) :
  (forall t, In t l -> In t seen) -> fold_left first_seen l seen = seen.
Proof.
  revert seen; induction l as [|t l IH]; intros seen Hall; simpl; [reflexivity |].
  unfold first_seen at 2. rewrite (proj2 (existsb_eqb t seen)) by (apply Hall; now left).
  apply IH. intros x Hx. apply Hall. now right.
Qed.

Lemma first_seen_fold_NoDup (l seen : list string) :
  List.NoDup seen -> List.NoDup (fold_left first_seen l seen).
Proof.
  revert seen; induction l as [|t l IH]; intros seen Hnd; simpl; [exact Hnd |].
  apply IH. unfold first_seen. destruct (existsb (String.eqb t) seen) eqn:He; [exact Hnd |].
  apply NoDup_ListNoDup. apply NoDup_app. repeat split.
  - now apply NoDup_ListNoDup.
  - intros x Hx Hx'. apply list_elem_of_In in Hx, Hx'. destruct Hx' as [<- | []].
    apply existsb_eqb in Hx. congruence.
  - apply NoDup_ListNoDup. repeat constructor. intros [].
Qed.

Section CountingFacts.
Variable lines_of : string -> list string.

Lemma get_count_strings_in_file (file_path : string) (target_strings : list string)
    (k : string) :
  get (count_strings_in_file lines_of file_path target_strings) k
  = (times_listed k target_strings * sum_list_with (str_count k) (lines_of file_path))%nat.
Proof.
  unfold count_strings_in_file.
  assert (Hgen : forall (lines : list string) (d : counter),
             get (fold_left (count_line target_strings) lines d) k
             = (get d k + times_listed k target_strings * sum_list_with (str_count k) lines)%nat).
  { induction lines as [|line lines IH]; intros d; simpl; [lia |].
    rewrite IH. unfold count_line.
    rewrite (get_add_all (fun target => str_count target line)). lia. }
  rewrite Hgen. simpl. lia.
Qed.

Lemma get_aggregate (files target_strings : list string) (d : counter) (k : string) :
  get (fold_left (aggregate_file lines_of target_strings) files d) k
  = (get d k
     + times_listed k target_strings * times_listed k target_strings
       * occurrences lines_of files k)%nat.
Proof.
  revert d; induction files as [|f files IH]; intros d; simpl; [lia |].
  rewrite IH. unfold aggregate_file.
  rewrite (get_add_all (get (count_strings_in_file lines_of f target_strings))).
  rewrite get_count_strings_in_file. lia.
Qed.

Lemma keys_aggregate (files target_strings : list string) (d : counter) :
  (forall t, In t target_strings -> In t (map fst d)) ->
  map fst (fold_left (aggregate_file lines_of target_strings) files d) = map fst d.
Proof.
  revert d; induction files as [|f files IH]; intros d Hall; simpl; [reflexivity |].
  assert (Hkeys : map fst (aggregate_file lines_of target_strings d f) = map fst d).
  { unfold aggregate_file.
    rewrite (keys_add_all (get (count_strings_in_file lines_of f target_strings))).
    now apply first_seen_fold_known. }
  rewrite IH; [exact Hkeys |]. now rewrite Hkeys.
Qed.

Lemma keys_aggregate_counts (files target_strings : list string) :
  files <> [] ->
  map fst (aggregate_counts lines_of files target_strings) = distinct target_strings.
Proof.
  intros Hfiles. unfold aggregate_counts, distinct.
  destruct files as [|f files]; [contradiction |]. simpl.
  assert (Hfirst : map fst (aggregate_file lines_of target_strings [] f)
                   = fold_left first_seen target_strings []).
  { unfold aggregate_file.
    now rewrite (keys_add_all (get (count_strings_in_file lines_of f target_strings))). }
  rewrite keys_aggregate; [exact Hfirst |].
  intros t Ht. rewrite Hfirst. apply first_seen_fold_in. now right.
Qed.

End CountingFacts.

End CountErrorFacts.

Section CountErrorExtras.
Import PyStr PyStrFacts CountError CountErrorFacts.

(** X24.  With at least one file, the rows of the output are the target
    strings, each once, in the order in which they were first listed, and
    the frequency of a target is the number of its occurrences in the
    lines of all the files, occurrences being counted line by line and
    without overlap, multiplied by the square of the number of times the
    target was listed: a target given once has its exact count, a target
    given twice four times that. *)
Theorem frequencies_of_the_targets
    (lines_of : string -> list string) (files target_strings : list string) :
  files <> [] ->
  map fst (aggregate_counts lines_of files target_strings) = distinct target_strings
  /\ List.NoDup (distinct target_strings)
  /\ (forall target, In target (distinct target_strings) <-> In target target_strings)
  /\ (forall target,
        get (aggregate_counts lines_of files target_strings) target
        = (times_listed target target_strings * times_listed target target_strings
           * occurrences lines_of files target)%nat).
Proof.
  intros Hfiles. split; [now apply keys_aggregate_counts |].
  unfold aggregate_counts, distinct. repeat split.
  - apply first_seen_fold_NoDup. constructor.
  - intros H. apply first_seen_fold_in in H. destruct H as [[] | H]. exact H.
  - intros H. apply first_seen_fold_in. now right.
  - intros target. now rewrite get_aggregate.
Qed.

Lemma frequencies_of_the_targets_witness :
  get (aggregate_counts (fun _ => ["[UCE] and [UCE]"; "no error"; "[OGE]"])
         ["log_1.txt"] ["[UCE]"; "[OGE]"; "[UCE]"]) "[UCE]"
  = (times_listed "[UCE]" ["[UCE]"; "[OGE]"; "[UCE]"]
     * times_listed "[UCE]" ["[UCE]"; "[OGE]"; "[UCE]"]
     * occurrences (fun _ => ["[UCE] and [UCE]"; "no error"; "[OGE]"]) ["log_1.txt"]
         "[UCE]")%nat.
Proof.
  apply (frequencies_of_the_targets (fun _ => ["[UCE] and [UCE]"; "no error"; "[OGE]"])
           ["log_1.txt"] ["[UCE]"; "[OGE]"; "[UCE]"]).
  discriminate.
Defined.

(** X25.  The files counted are the files of the tree whose names start
    with the pattern, whatever their extension; when there is none the
    script stops without producing any row, and otherwise it produces
    one row for each distinct target. *)
Theorem counter_rows
    (lines_of : string -> list string) (walk : list (string * list string))
    (file_pattern : string) (strings : list string) :
  (forall path,
     In path (find_matching_files walk file_pattern)
     <-> exists dirpath filenames rest,
           In (dirpath, filenames) walk
           /\ In (file_pattern +:+ rest) filenames
           /\ path = SummaryEvaluation.path_join dirpath (file_pattern +:+ rest))
  /\ (main lines_of walk file_pattern strings = None
      <-> find_matching_files walk file_pattern = [])
  /\ (forall rows,
        main lines_of walk file_pattern strings = Some rows ->
        map fst rows = distinct strings).
Proof.
  split; [| split].
  - intros path. unfold find_matching_files. rewrite in_flat_map. split.
    + intros ([dirpath filenames] & Hin & Hpath). apply in_map_iff in Hpath.
      destruct Hpath as (filename & <- & Hf). apply filter_In in Hf.
      destruct Hf as [Hf Hstart]. apply starts_with_spec in Hstart.
      destruct Hstart as [rest ->]. now exists dirpath, filenames, rest.
    + intros (dirpath & filenames & rest & Hin & Hf & ->).
      exists (dirpath, filenames). split; [exact Hin |]. apply in_map_iff.
      exists (file_pattern +:+ rest). split; [reflexivity |]. apply filter_In.
      split; [exact Hf |]. apply starts_with_spec. now exists rest.
  - unfold main. destruct (find_matching_files walk file_pattern); split; congruence.
  - intros rows. unfold main.
    destruct (find_matching_files walk file_pattern) as [|f files] eqn:Hfiles;
      [discriminate |].
    intros [= <-].
    apply keys_aggregate_counts. discriminate.
Qed.

End CountErrorExtras.
